(** * Nextcloud contact and calendar duplicate remover: a shallow embedding

    The duplicate-detection and reconciliation engine of
    [nextcloud_duplicate_remover.py], together with the threshold check of
    [config_example.py], embedded as Rocq functions, and the properties of
    the specification stated and settled against that embedding.

    Conventions.
    - A Python [str] is a [string] holding its UTF-8 bytes.  The builtins
      whose result depends on the Unicode database ([str.lower],
      [str.strip], iteration over the characters of a [str], [str.isalnum],
      [str.isspace]) and the fuzzywuzzy library are fields of the class
      [Platform]; every general theorem holds for every platform.
    - A Python [dict] is an association list in insertion order
      ([dict_set] overwrites in place, as assignment to an existing key
      does); a Python [set] of indices is a [gset nat].
    - A record of a group is carried together with the position it was
      read from in the input list, which is the identity the source tracks
      in [processed]. *)

From Stdlib Require Import ZArith String Ascii List Bool Lia Permutation Sorted.
From Stdlib Require Import DecimalString DecimalNat.
From stdpp Require Import base decidable list gmap strings.
Import ListNotations.

Local Open Scope string_scope.
Local Open Scope Z_scope.
Local Open Scope nat_scope.
Local Open Scope list_scope.

(** ** Python strings *)

Module Py.

(** [needle in hay] on strings. *)
Fixpoint str_in (needle hay : string) : bool :=
  String.prefix needle hay ||
  match hay with
  | EmptyString => false
  | String _ hay' => str_in needle hay'
  end.

(** [s.split(sep)] for a one-character separator: never empty. *)
Fixpoint str_split (sep : ascii) (s : string) : list string :=
  match s with
  | EmptyString => [EmptyString]
  | String c s' =>
      if Ascii.eqb c sep then EmptyString :: str_split sep s'
      else match str_split sep s' with
           | h :: t => String c h :: t
           | [] => [String c EmptyString]
           end
  end.

(** [str(n)] for a non-negative integer. *)
Definition str_of_nat (n : nat) : string :=
  NilEmpty.string_of_uint (Nat.to_uint n).

(** Truth value of a string: non-empty. *)
Definition truthy (s : string) : bool :=
  match s with EmptyString => false | _ => true end.

(** [s.startswith(p)]. *)
Definition startswith (s p : string) : bool := String.prefix p s.

(** [s[n:]] on the bytes of [s]; used only with an ASCII prefix length. *)
Fixpoint drop (n : nat) (s : string) : string :=
  match n, s with
  | O, _ => s
  | S n', String _ s' => drop n' s'
  | S _, EmptyString => EmptyString
  end.

(** [d.get(k, default)] on an optional field. *)
Definition get_default {A} (o : option A) (d : A) : A :=
  match o with Some x => x | None => d end.

End Py.

(** The parts of the Python runtime and of the third-party libraries the
    engine calls. *)
Class Platform := {
  FUZZYWUZZY_AVAILABLE : bool;
  CALDAV_AVAILABLE : bool;
  VOBJECT_AVAILABLE : bool;
  (** [fuzz.ratio] *)
  fuzz_ratio : string -> string -> Z;
  (** [str.lower], [str.strip] *)
  str_lower : string -> string;
  str_strip : string -> string;
  (** the characters of a [str], each as a one-character [str] *)
  str_chars : string -> list string;
  str_isalnum : string -> bool;
  str_isspace : string -> bool
}.

(** [len(s)] and [s[a:b]] count characters. *)
Definition str_len `{Platform} (s : string) : nat := length (str_chars s).
Definition str_slice `{Platform} (a b : nat) (s : string) : string :=
  String.concat "" (take (b - a) (drop a (str_chars s))).

(** ** Dictionaries in insertion order *)

Definition dict (V : Type) : Type := list (string * V).

(** [d[k] = v] *)
Fixpoint dict_set {V} (k : string) (v : V) (d : dict V) : dict V :=
  match d with
  | [] => [(k, v)]
  | (k', v') :: d' =>
      if String.eqb k' k then (k', v) :: d' else (k', v') :: dict_set k v d'
  end.

(** [d[k].append(x)] on a [defaultdict(list)] *)
Fixpoint dict_append {A} (k : string) (x : A) (d : dict (list A)) : dict (list A) :=
  match d with
  | [] => [(k, [x])]
  | (k', l) :: d' =>
      if String.eqb k' k then (k', l ++ [x]) :: d' else (k', l) :: dict_append k x d'
  end.

Definition dict_values {V} (d : dict V) : list V := List.map snd d.
Definition dict_keys {V} (d : dict V) : list string := List.map fst d.

(** ** The clustering loop

    [find_duplicates] and [find_event_duplicates] run the same two nested
    loops, over contacts with [_are_duplicates] and keys [group_<n>], over
    events with [_are_events_duplicates] and keys [event_group_<n>]. *)
Section Clustering_loop.
Context {R : Type}.
Variable are_duplicates : R -> R -> bool.
Variable key_prefix : string.

(** [f"group_{n}"], [f"event_group_{n}"] *)
Definition group_key (n : nat) : string := key_prefix +:+ Py.str_of_nat n.

(** The inner loop: [record2] ranges over [records[i+1:]], numbered from
    [i+1]. *)
Fixpoint scan_candidates (record1 : R) (j : nat) (rest : list R)
    (duplicates : list (nat * R)) (processed : gset nat)
    : list (nat * R) * gset nat :=
  match rest with
  | [] => (duplicates, processed)
  | record2 :: rest' =>
      if decide (j ∈ processed) then
        scan_candidates record1 (S j) rest' duplicates processed
      else if are_duplicates record1 record2 then
        scan_candidates record1 (S j) rest'
          (duplicates ++ [(j, record2)]) ({[j]} ∪ processed)
      else
        scan_candidates record1 (S j) rest' duplicates processed
  end.

(** The outer loop: [record1] ranges over the records from position [i]
    on. *)
Fixpoint clustering_loop (i : nat) (rest : list R)
    (duplicate_groups : dict (list (nat * R))) (processed : gset nat)
    : dict (list (nat * R)) :=
  match rest with
  | [] => duplicate_groups
  | record1 :: rest' =>
      if decide (i ∈ processed) then
        clustering_loop (S i) rest' duplicate_groups processed
      else
        let key := group_key (length duplicate_groups) in
        let '(duplicates, processed') :=
          scan_candidates record1 (S i) rest'
            [(i, record1)] ({[i]} ∪ processed) in
        let duplicate_groups' :=
          if 1 <? length duplicates
          then dict_set key duplicates duplicate_groups
          else duplicate_groups in
        clustering_loop (S i) rest' duplicate_groups' processed'
  end.

End Clustering_loop.

Definition forget_positions {R} (groups : dict (list (nat * R))) : dict (list R) :=
  List.map (fun kg => (fst kg, List.map snd (snd kg))) groups.

(** ** Contacts *)

(** The dictionary built by [get_all_contacts] for one address-book object.
    [vcard_object] stands for the remote object the record was read from;
    [full_name] is absent when the vCard has no [FN]. *)
Record Contact := {
  uid : string;
  vcard_object : nat;
  full_name : option string;
  emails : list string;
  phones : list string;
  raw_data : string
}.

#[global] Instance Contact_eq_dec : EqDecision Contact.
Proof. solve_decision. Defined.

(** [set(xs).intersection(set(ys))] is non-empty. *)
Definition sets_intersect (xs ys : list string) : bool :=
  existsb (fun x => existsb (String.eqb x) ys) xs.

Section Contacts.
Context `{Platform}.

(** [NextcloudContactManager._are_duplicates] *)
Definition _are_duplicates (contact1 contact2 : Contact) (threshold : Z) : bool :=
  let emails1 := emails contact1 in
  let emails2 := emails contact2 in
  if sets_intersect emails1 emails2 then true
  else
    let phones1 := phones contact1 in
    let phones2 := phones contact2 in
    if sets_intersect phones1 phones2 then true
    else
      let name1 := str_strip (Py.get_default (full_name contact1) "") in
      let name2 := str_strip (Py.get_default (full_name contact2) "") in
      if Py.truthy name1 && Py.truthy name2 then
        let similarity := fuzz_ratio (str_lower name1) (str_lower name2) in
        if (threshold <=? similarity)%Z then true else false
      else false.

(** The first loop of [_find_duplicates_simple]: index the contacts by
    each non-empty email and by the stripped, lower-cased full name. *)
Fixpoint index_emails (i : nat) (contact : Contact) (es : list string)
    (email_groups : dict (list (nat * Contact))) : dict (list (nat * Contact)) :=
  match es with
  | [] => email_groups
  | email :: es' =>
      index_emails i contact es'
        (if Py.truthy email then dict_append email (i, contact) email_groups
         else email_groups)
  end.

Fixpoint index_contacts (i : nat) (rest : list Contact) (processed : gset nat)
    (email_groups name_groups : dict (list (nat * Contact)))
    : dict (list (nat * Contact)) * dict (list (nat * Contact)) :=
  match rest with
  | [] => (email_groups, name_groups)
  | contact :: rest' =>
      if decide (i ∈ processed) then
        index_contacts (S i) rest' processed email_groups name_groups
      else
        let email_groups' := index_emails i contact (emails contact) email_groups in
        let full_name := str_lower (str_strip (Py.get_default (full_name contact) "")) in
        let name_groups' :=
          if Py.truthy full_name then dict_append full_name (i, contact) name_groups
          else name_groups in
        index_contacts (S i) rest' processed email_groups' name_groups'
  end.

(** [for idx, contact in contacts_list: if idx not in processed: ...] *)
Fixpoint collect_unprocessed (contacts_list : list (nat * Contact))
    (duplicates : list (nat * Contact)) (processed : gset nat)
    : list (nat * Contact) * gset nat :=
  match contacts_list with
  | [] => (duplicates, processed)
  | (idx, contact) :: l' =>
      if decide (idx ∈ processed) then collect_unprocessed l' duplicates processed
      else collect_unprocessed l' (duplicates ++ [(idx, contact)]) ({[idx]} ∪ processed)
  end.

(** The second and third loops of [_find_duplicates_simple], over the items
    of [email_groups] and then of [name_groups]. *)
Fixpoint build_groups (items : dict (list (nat * Contact)))
    (duplicate_groups : dict (list (nat * Contact))) (processed : gset nat)
    (group_counter : nat)
    : dict (list (nat * Contact)) * gset nat * nat :=
  match items with
  | [] => (duplicate_groups, processed, group_counter)
  | (_, contacts_list) :: items' =>
      if 1 <? length contacts_list then
        let key := group_key "group_" group_counter in
        let '(duplicates, processed') :=
          collect_unprocessed contacts_list [] processed in
        if 1 <? length duplicates then
          build_groups items' (dict_set key duplicates duplicate_groups)
            processed' (S group_counter)
        else build_groups items' duplicate_groups processed' group_counter
      else build_groups items' duplicate_groups processed group_counter
  end.

(** [NextcloudContactManager._find_duplicates_simple], with positions. *)
Definition _find_duplicates_simple_at (contacts : list Contact)
    : dict (list (nat * Contact)) :=
  let '(email_groups, name_groups) := index_contacts 0 contacts ∅ [] [] in
  let '(duplicate_groups, processed, group_counter) :=
    build_groups email_groups [] ∅ 0 in
  let '(duplicate_groups', _, _) :=
    build_groups name_groups duplicate_groups processed group_counter in
  duplicate_groups'.

(** [NextcloudContactManager.find_duplicates], every member with the
    position it has in [contacts]. *)
Definition find_duplicates_at (contacts : list Contact) (similarity_threshold : Z)
    : dict (list (nat * Contact)) :=
  if negb FUZZYWUZZY_AVAILABLE then _find_duplicates_simple_at contacts
  else
    clustering_loop
      (fun contact1 contact2 => _are_duplicates contact1 contact2 similarity_threshold)
      "group_" 0 contacts [] ∅.

(** [NextcloudContactManager._find_duplicates_simple] *)
Definition _find_duplicates_simple (contacts : list Contact) : dict (list Contact) :=
  forget_positions (_find_duplicates_simple_at contacts).

(** [NextcloudContactManager.find_duplicates] *)
Definition find_duplicates (contacts : list Contact) (similarity_threshold : Z)
    : dict (list Contact) :=
  forget_positions (find_duplicates_at contacts similarity_threshold).

(** The default of the [similarity_threshold] parameter. *)
Definition default_similarity_threshold : Z := 85.

End Contacts.

(** ** Survivor selection *)

(** [list.sort(key=..., reverse=True)]: the sort is stable, so elements
    with equal keys keep their relative order; an element goes before the
    already sorted ones it is not smaller than. *)
Fixpoint insert_desc {A} (key : A -> nat) (x : A) (l : list A) : list A :=
  match l with
  | [] => [x]
  | y :: l' => if key x <? key y then y :: insert_desc key x l' else x :: y :: l'
  end.

Definition sort_desc {A} (key : A -> nat) (l : list A) : list A :=
  fold_right (insert_desc key) [] l.

(** The score [choose_best_contact] gives a contact. *)
Definition contact_score (contact : Contact) : nat :=
  let score := 0 in
  let score :=
    match emails contact with
    | [] => score
    | _ => score + length (emails contact) * 2
    end in
  let score :=
    match phones contact with
    | [] => score
    | _ => score + length (phones contact) * 2
    end in
  let score :=
    if Py.truthy (Py.get_default (full_name contact) "") then score + 5 else score in
  let vcard_str := raw_data contact in
  score + length (Py.str_split "010"%char vcard_str) * 1.

(** [NextcloudContactManager.choose_best_contact]; [None] is the
    [IndexError] raised on an empty list. *)
Definition choose_best_contact (duplicates : list Contact) : option Contact :=
  match duplicates with
  | [only] => Some only
  | _ =>
      let scored_contacts := List.map (fun c => (contact_score c, c)) duplicates in
      match sort_desc fst scored_contacts with
      | (_, best_contact) :: _ => Some best_contact
      | [] => None
      end
  end.

(** ** A byte-level platform for closed examples

    ASCII letters are case-folded, ASCII white space is stripped, and the
    characters of a string are its UTF-8 sequences.  [fuzz.ratio] is
    replaced by a double that scores equal strings 100 and others 0. *)
Module Ascii_platform.

Definition is_upper (c : ascii) : bool :=
  (65 <=? nat_of_ascii c) && (nat_of_ascii c <=? 90).
Definition chr_lower (c : ascii) : ascii :=
  if is_upper c then ascii_of_nat (nat_of_ascii c + 32) else c.
Fixpoint lower (s : string) : string :=
  match s with
  | EmptyString => EmptyString
  | String c s' => String (chr_lower c) (lower s')
  end.

Definition chr_isspace (c : ascii) : bool :=
  let n := nat_of_ascii c in
  ((9 <=? n) && (n <=? 13)) || ((28 <=? n) && (n <=? 32)).
Fixpoint lstrip (s : string) : string :=
  match s with
  | EmptyString => EmptyString
  | String c s' => if chr_isspace c then lstrip s' else s
  end.
Fixpoint rstrip (s : string) : string :=
  match s with
  | EmptyString => EmptyString
  | String c s' =>
      match rstrip s' with
      | EmptyString => if chr_isspace c then EmptyString else String c EmptyString
      | r => String c r
      end
  end.
Definition strip (s : string) : string := rstrip (lstrip s).

(** A UTF-8 continuation byte: [10xxxxxx]. *)
Definition is_continuation (c : ascii) : bool :=
  (128 <=? nat_of_ascii c) && (nat_of_ascii c <? 192).
Definition continues (s : string) : bool :=
  match s with
  | String c _ => is_continuation c
  | EmptyString => false
  end.
Fixpoint chars (s : string) : list string :=
  match s with
  | EmptyString => []
  | String c s' =>
      match chars s' with
      | h :: t =>
          if continues s' then String c h :: t
          else String c EmptyString :: h :: t
      | [] => [String c EmptyString]
      end
  end.

Definition chr_isalnum (c : ascii) : bool :=
  let n := nat_of_ascii c in
  ((48 <=? n) && (n <=? 57)) || ((65 <=? n) && (n <=? 90)) ||
  ((97 <=? n) && (n <=? 122)).
Definition isalnum (s : string) : bool :=
  match s with
  | String c EmptyString => chr_isalnum c
  | _ => false
  end.
Definition isspace (s : string) : bool :=
  match s with
  | String c EmptyString => chr_isspace c
  | _ => false
  end.

Definition ratio (a b : string) : Z := if String.eqb a b then 100%Z else 0%Z.

Definition platform (fuzzy : bool) : Platform :=
  {| FUZZYWUZZY_AVAILABLE := fuzzy;
     CALDAV_AVAILABLE := true;
     VOBJECT_AVAILABLE := true;
     fuzz_ratio := ratio;
     str_lower := lower;
     str_strip := strip;
     str_chars := chars;
     str_isalnum := isalnum;
     str_isspace := isspace |}.

End Ascii_platform.


(** ** Calendar events *)

(** The value of a [DTSTART]: a [datetime.date], a [datetime.datetime]
    (its [str] is the ISO date, a space and [time]), or any other value,
    taken with its [str]. *)
Inductive DateValue :=
  | PyDate (year month day : nat)
  | PyDateTime (year month day : nat) (time : string)
  | PyOther (text : string).

#[global] Instance DateValue_eq_dec : EqDecision DateValue.
Proof. solve_decision. Defined.

(** The dictionary built by [get_all_events] for one calendar object.
    [vevent_attributes] is the number of public attributes of
    [parsed_event.vevent], when the parsed object has one. *)
Record Event := {
  e_uid : string;
  calendar_name : string;
  event_object : nat;
  title : option string;
  description : option string;
  start_date : option DateValue;
  e_raw_data : string;
  vevent_attributes : option nat
}.

#[global] Instance Event_eq_dec : EqDecision Event.
Proof. solve_decision. Defined.

(** [f"{n:0<width>d}"] *)
Definition zero_pad (width : nat) (n : nat) : string :=
  let digits := Py.str_of_nat n in
  String.concat "" (replicate (width - String.length digits) "0") +:+ digits.

(** [str(d)] for a [datetime.date]. *)
Definition iso_date (year month day : nat) : string :=
  zero_pad 4 year +:+ "-" +:+ zero_pad 2 month +:+ "-" +:+ zero_pad 2 day.

(** Truth value of [event.get('start_date')]. *)
Definition date_truthy (d : option DateValue) : bool :=
  match d with
  | None => false
  | Some (PyOther text) => Py.truthy text
  | Some _ => true
  end.

Section Events.
Context `{Platform}.

(** [str(d).split()[0] if hasattr(d, 'date') else str(d)[:10]] *)
Definition date_prefix (d : option DateValue) : string :=
  match d with
  | Some (PyDateTime y m dd _) => iso_date y m dd
  | Some (PyDate y m dd) => str_slice 0 10 (iso_date y m dd)
  | Some (PyOther text) => str_slice 0 10 text
  | None => ""
  end.

(** [NextcloudCalendarManager._are_events_duplicates] *)
Definition _are_events_duplicates (event1 event2 : Event) (threshold : Z) : bool :=
  let title1 := str_strip (Py.get_default (title event1) "") in
  let title2 := str_strip (Py.get_default (title event2) "") in
  if Py.truthy title1 && Py.truthy title2 then
    if String.eqb (str_lower title1) (str_lower title2) then
      let date1 := start_date event1 in
      let date2 := start_date event2 in
      if date_truthy date1 && date_truthy date2 then
        if String.eqb (date_prefix date1) (date_prefix date2) then true else false
      else false
    else if FUZZYWUZZY_AVAILABLE && (3 <? str_len title1) && (3 <? str_len title2) then
      let similarity := fuzz_ratio (str_lower title1) (str_lower title2) in
      if (threshold <=? similarity)%Z then
        let date1 := start_date event1 in
        let date2 := start_date event2 in
        if date_truthy date1 && date_truthy date2 then
          if String.eqb (date_prefix date1) (date_prefix date2) then true else false
        else false
      else false
    else false
  else false.

(** [NextcloudCalendarManager.find_event_duplicates] *)
Definition find_event_duplicates_at (events : list Event) (similarity_threshold : Z)
    : dict (list (nat * Event)) :=
  clustering_loop
    (fun event1 event2 => _are_events_duplicates event1 event2 similarity_threshold)
    "event_group_" 0 events [] ∅.

Definition find_event_duplicates (events : list Event) (similarity_threshold : Z)
    : dict (list Event) :=
  forget_positions (find_event_duplicates_at events similarity_threshold).

(** Ten times the score [choose_best_event] gives an event.  The source
    adds the terms as binary floating-point numbers with the weights 0.1,
    0.2, 0.5 and 0.3; here the sum is exact, so two events whose exact
    scores are equal or nearly so may be ordered differently. *)
Definition event_score10 (event : Event) : nat :=
  let score := 0 in
  let score :=
    if Py.truthy (Py.get_default (description event) "")
    then score + str_len (Py.get_default (description event) "") * 1 else score in
  let score :=
    if Py.truthy (Py.get_default (title event) "")
    then score + str_len (Py.get_default (title event) "") * 2 else score in
  let raw_data := e_raw_data event in
  let score := score + length (Py.str_split "010"%char raw_data) * 5 in
  match vevent_attributes event with
  | Some properties => score + properties * 3
  | None => score
  end.

(** [NextcloudCalendarManager.choose_best_event] *)
Definition choose_best_event (duplicates : list Event) : option Event :=
  match duplicates with
  | [only] => Some only
  | _ =>
      let scored_events := List.map (fun e => (event_score10 e, e)) duplicates in
      match sort_desc fst scored_events with
      | (_, best_event) :: _ => Some best_event
      | [] => None
      end
  end.

End Events.

(** ** The remote server *)

(** A call that asks the server for a change. *)
Inductive Call :=
  | CallDelete (object : nat)
  | CallAddEvent (calendar : string) (ical_content : string).

#[global] Instance Call_eq_dec : EqDecision Call.
Proof. solve_decision. Defined.

(** A calendar: the events [calendar.events()] returns, and the payloads
    handed to [calendar.add_event] since.  [add_event] raises on a
    read-only calendar. *)
Record Calendar := {
  cal_name : string;
  cal_readonly : bool;
  cal_events : list Event;
  cal_added : list string
}.

(** The server as the managers see it.  [connect] succeeds when the
    service is online; [delete()] raises on a protected object; [calls]
    is the journal of the changes asked for. *)
Record Remote := {
  contacts_online : bool;
  calendars_online : bool;
  addressbook : list Contact;
  calendars : list Calendar;
  protected : gset nat;
  calls : list Call
}.

Definition without_event (object : nat) (c : Calendar) : Calendar :=
  {| cal_name := cal_name c; cal_readonly := cal_readonly c;
     cal_events := List.filter (fun e => negb (event_object e =? object)) (cal_events c);
     cal_added := cal_added c |}.

(** [obj.delete()] inside [try]: [true] when the server deleted the
    object, [false] when the call raised. *)
Definition dav_delete (object : nat) (st : Remote) : bool * Remote :=
  if decide (object ∈ protected st) then
    (false,
     {| contacts_online := contacts_online st; calendars_online := calendars_online st;
        addressbook := addressbook st; calendars := calendars st;
        protected := protected st; calls := calls st ++ [CallDelete object] |})
  else
    (true,
     {| contacts_online := contacts_online st; calendars_online := calendars_online st;
        addressbook :=
          List.filter (fun c => negb (vcard_object c =? object)) (addressbook st);
        calendars := List.map (without_event object) (calendars st);
        protected := protected st; calls := calls st ++ [CallDelete object] |}).

Definition with_added (name ical_content : string) (c : Calendar) : Calendar :=
  if String.eqb (cal_name c) name then
    {| cal_name := cal_name c; cal_readonly := cal_readonly c;
       cal_events := cal_events c; cal_added := cal_added c ++ [ical_content] |}
  else c.

(** [calendar.add_event(ical_content)] inside [try]. *)
Definition dav_add_event (calendar : Calendar) (ical_content : string) (st : Remote)
    : bool * Remote :=
  if cal_readonly calendar then
    (false,
     {| contacts_online := contacts_online st; calendars_online := calendars_online st;
        addressbook := addressbook st; calendars := calendars st;
        protected := protected st;
        calls := calls st ++ [CallAddEvent (cal_name calendar) ical_content] |})
  else
    (true,
     {| contacts_online := contacts_online st; calendars_online := calendars_online st;
        addressbook := addressbook st;
        calendars := List.map (with_added (cal_name calendar) ical_content) (calendars st);
        protected := protected st;
        calls := calls st ++ [CallAddEvent (cal_name calendar) ical_content] |}).

(** [NextcloudContactManager.get_all_contacts]: the parsed address book. *)
Definition get_all_contacts (st : Remote) : list Contact := addressbook st.

(** [NextcloudContactManager.delete_contact] *)
Definition delete_contact (contact : Contact) (st : Remote) : bool * Remote :=
  dav_delete (vcard_object contact) st.

(** [NextcloudCalendarManager.delete_event] *)
Definition delete_event (event : Event) (st : Remote) : bool * Remote :=
  dav_delete (event_object event) st.

(** The body shared by [remove_duplicates] and [remove_event_duplicates]
    once the groups are known.  [None] in a result is an exception that
    leaves the function. *)
Section Removal.
Context {R : Type} `{EqDecision R}.
Variable choose_best : list R -> option R.
Variable delete_record : R -> Remote -> bool * Remote.

(** The dry-run loop: the status ([true] for GARDER) logged for every
    member of every group. *)
Fixpoint dry_run_report (groups : dict (list R)) : option (list (list (bool * R))) :=
  match groups with
  | [] => Some []
  | (_, duplicates) :: groups' =>
      match choose_best duplicates with
      | None => None
      | Some best =>
          match dry_run_report groups' with
          | None => None
          | Some lines =>
              Some (List.map (fun r => (bool_decide (r = best), r)) duplicates :: lines)
          end
      end
  end.

(** [for record in duplicates: if record != best: if delete(record): ...] *)
Fixpoint delete_others (best : R) (duplicates : list R) (deleted_count : nat)
    (st : Remote) : nat * Remote :=
  match duplicates with
  | [] => (deleted_count, st)
  | record :: duplicates' =>
      if bool_decide (record <> best) then
        let '(ok, st') := delete_record record st in
        delete_others best duplicates' (if ok then deleted_count + 1 else deleted_count) st'
      else delete_others best duplicates' deleted_count st
  end.

(** The deletion loop over the groups. *)
Fixpoint delete_in_groups (groups : dict (list R)) (deleted_count : nat)
    (st : Remote) : option nat * Remote :=
  match groups with
  | [] => (Some deleted_count, st)
  | (_, duplicates) :: groups' =>
      match choose_best duplicates with
      | None => (None, st)
      | Some best =>
          let '(deleted_count', st') :=
            delete_others best duplicates deleted_count st in
          delete_in_groups groups' deleted_count' st'
      end
  end.

Definition remove_groups (duplicate_groups : dict (list R)) (dry_run : bool)
    (st : Remote) : option (nat * nat) * Remote :=
  match duplicate_groups with
  | [] => (Some (0, 0), st)
  | _ =>
      let total_duplicates :=
        list_sum (List.map (fun g => length g) (dict_values duplicate_groups)) in
      if dry_run then
        match dry_run_report duplicate_groups with
        | None => (None, st)
        | Some _ => (Some (total_duplicates, 0), st)
        end
      else
        match delete_in_groups duplicate_groups 0 st with
        | (None, st') => (None, st')
        | (Some deleted_count, st') => (Some (total_duplicates, deleted_count), st')
        end
  end.

End Removal.

(** The vCard and iCalendar text handling the reconciliation relies on:
    [contact_birthday] is the body of the loop of
    [_get_contacts_with_birthdays] (the name and the [MM-DD] birthday read
    from a contact, when it has one); [birthday_vevent] is the payload
    [_create_birthday_event] builds from a name and a date, with today's
    year and a fresh identifier ([None] when building it raises). *)
Class Collaborators := {
  contact_birthday : Contact -> option (string * string);
  birthday_vevent : string -> string -> option string
}.

Section Managers.
Context `{Platform} `{Collaborators}.

(** [NextcloudContactManager.remove_duplicates] *)
Definition remove_duplicates (dry_run : bool) (st : Remote)
    : option (nat * nat) * Remote :=
  let contacts := get_all_contacts st in
  match contacts with
  | [] => (Some (0, 0), st)
  | _ =>
      let duplicate_groups := find_duplicates contacts default_similarity_threshold in
      remove_groups choose_best_contact delete_contact duplicate_groups dry_run st
  end.

(** [NextcloudCalendarManager.get_calendar_by_name] *)
Definition get_calendar_by_name (st : Remote) (name : string) : option Calendar :=
  List.find (fun c => String.eqb (str_lower (cal_name c)) (str_lower name))
    (calendars st).

(** [NextcloudCalendarManager.get_all_events]; [None] is the exception
    raised when no calendar is known. *)
Definition get_all_events (calendar : option string) (st : Remote)
    : option (list Event) :=
  match calendars st with
  | [] => None
  | _ =>
      if Py.truthy (Py.get_default calendar "") then
        match get_calendar_by_name st (Py.get_default calendar "") with
        | None => Some []
        | Some c => Some (cal_events c)
        end
      else Some (List.concat (List.map cal_events (calendars st)))
  end.

(** [NextcloudCalendarManager.remove_event_duplicates] *)
Definition remove_event_duplicates (calendar : option string) (dry_run : bool)
    (st : Remote) : option (nat * nat) * Remote :=
  match get_all_events calendar st with
  | None => (None, st)
  | Some [] => (Some (0, 0), st)
  | Some events =>
      let duplicate_groups := find_event_duplicates events default_similarity_threshold in
      remove_groups choose_best_event delete_event duplicate_groups dry_run st
  end.

(** *** Birthday reconciliation *)

Definition birthday_keywords : list string :=
  ["anniversaire"; "birthday"; "naissance"; "date de naissance";
   "bday"; "né le"; "née le"; "born on"; "anniversary"].

Definition non_birthday_keywords : list string :=
  ["réunion"; "meeting"; "rendez-vous"; "rdv"; "déjeuner"; "dîner";
   "restaurant"; "coupole"; "déménagement"; "visite"; "leçon";
   "championnat"; "résilier"; "ramener"; "manette"; "cheveux";
   "barbe"; "circulation"; "datascientest"; "surprise"; "fête"].

(** [NextcloudCalendarManager._is_birthday_event] *)
Definition _is_birthday_event (event_title : string) : bool :=
  let title_lower := str_strip (str_lower event_title) in
  if existsb (fun keyword => Py.str_in keyword title_lower) non_birthday_keywords
  then false
  else existsb (fun keyword => Py.str_in keyword title_lower) birthday_keywords.

Definition prefixes_to_remove : list string :=
  ["anniversaire de "; "anniversary of "; "birthday of ";
   "anniversaire "; "birthday "; "anniversary "; "date de naissance : "].

(** The loop of [_extract_contact_name_from_birthday_event]: the first
    prefix the name starts with is cut off. *)
Fixpoint remove_first_prefix (prefixes : list string) (name : string) : string :=
  match prefixes with
  | [] => name
  | prefix :: prefixes' =>
      if Py.startswith name prefix
      then str_strip (Py.drop (String.length prefix) name)
      else remove_first_prefix prefixes' name
  end.

(** [NextcloudCalendarManager._extract_contact_name_from_birthday_event] *)
Definition _extract_contact_name_from_birthday_event (event_title : string) : string :=
  let name := str_strip (str_lower event_title) in
  remove_first_prefix prefixes_to_remove name.

(** [''.join(c.lower() for c in name if c.isalnum() or c.isspace()).strip()] *)
Definition clean_name (name : string) : string :=
  str_strip
    (String.concat ""
       (List.map str_lower
          (List.filter (fun c => str_isalnum c || str_isspace c) (str_chars name)))).

(** [NextcloudCalendarManager._names_are_similar] *)
Definition _names_are_similar (name1 name2 : string) : bool :=
  if negb FUZZYWUZZY_AVAILABLE then false
  else
    let name1_clean := clean_name name1 in
    let name2_clean := clean_name name2 in
    let similarity := fuzz_ratio name1_clean name2_clean in
    (80 <=? similarity)%Z.

(** [NextcloudCalendarManager._format_date_for_comparison] *)
Definition _format_date_for_comparison (date_obj : option DateValue) : string :=
  if negb (date_truthy date_obj) then ""
  else
    match date_obj with
    | Some (PyDate _ month day) | Some (PyDateTime _ month day _) =>
        zero_pad 2 month +:+ "-" +:+ zero_pad 2 day
    | Some (PyOther date_str) =>
        if 10 <=? str_len date_str then str_slice 5 10 date_str else ""
    | None => ""
    end.

(** [{name.lower(): (name, date) for name, date in contacts_with_birthdays}] *)
Definition contacts_dict_of (contacts_with_birthdays : list (string * string))
    : dict (string * string) :=
  fold_left (fun d nd => dict_set (str_lower (fst nd)) (fst nd, snd nd) d)
    contacts_with_birthdays [].

(** The name test of [_match_birthdays_and_events]. *)
Definition name_matches (contact_name_from_event contact_name_lower : string) : bool :=
  Py.str_in (str_lower contact_name_from_event) contact_name_lower ||
  Py.str_in contact_name_lower (str_lower contact_name_from_event) ||
  _names_are_similar contact_name_from_event contact_name_lower.

(** The search for a contact matching one birthday event; the result is
    [found_match]. *)
Fixpoint find_match (contact_name_from_event : string) (event_date : option DateValue)
    (items : dict (string * string)) : bool :=
  match items with
  | [] => false
  | (contact_name_lower, (original_name, birthday_date)) :: items' =>
      if name_matches contact_name_from_event contact_name_lower then
        let event_date_str := _format_date_for_comparison event_date in
        if Py.truthy event_date_str && String.eqb event_date_str birthday_date then true
        else if negb (Py.truthy event_date_str) then true
        else find_match contact_name_from_event event_date items'
      else find_match contact_name_from_event event_date items'
  end.

(** The loop over the events of [_match_birthdays_and_events]. *)
Fixpoint classify_events (contacts_dict : dict (string * string)) (events : list Event)
    (matched_events orphan_birthday_events non_birthday_events : list Event)
    : list Event * list Event * list Event :=
  match events with
  | [] => (matched_events, orphan_birthday_events, non_birthday_events)
  | event :: events' =>
      let event_title := Py.get_default (title event) "" in
      let event_date := start_date event in
      if negb (_is_birthday_event event_title) then
        classify_events contacts_dict events' matched_events orphan_birthday_events
          (non_birthday_events ++ [event])
      else
        let event_title_lower := str_lower event_title in
        let contact_name_from_event :=
          _extract_contact_name_from_birthday_event event_title_lower in
        if find_match contact_name_from_event event_date contacts_dict then
          classify_events contacts_dict events' (matched_events ++ [event])
            orphan_birthday_events non_birthday_events
        else
          classify_events contacts_dict events' matched_events
            (orphan_birthday_events ++ [event]) non_birthday_events
  end.

(** The first contact of the dictionary whose name matches. *)
Fixpoint first_name_match (contact_name_from_event : string)
    (items : dict (string * string)) : option string :=
  match items with
  | [] => None
  | (contact_name_lower, (original_name, _)) :: items' =>
      if name_matches contact_name_from_event contact_name_lower
      then Some original_name
      else first_name_match contact_name_from_event items'
  end.

(** The loop collecting [matched_contact_names]. *)
Fixpoint matched_names (contacts_dict : dict (string * string))
    (matched_events : list Event) (matched_contact_names : gset string) : gset string :=
  match matched_events with
  | [] => matched_contact_names
  | event :: events' =>
      let event_title := str_lower (Py.get_default (title event) "") in
      let contact_name_from_event :=
        _extract_contact_name_from_birthday_event event_title in
      matched_names contacts_dict events'
        (match first_name_match contact_name_from_event contacts_dict with
         | Some original_name => {[original_name]} ∪ matched_contact_names
         | None => matched_contact_names
         end)
  end.

(** [NextcloudCalendarManager._match_birthdays_and_events] *)
Definition _match_birthdays_and_events
    (contacts_with_birthdays : list (string * string)) (events : list Event)
    : list Event * list Event * list Event * list (string * string) :=
  let contacts_dict := contacts_dict_of contacts_with_birthdays in
  let '(matched_events, orphan_birthday_events, non_birthday_events) :=
    classify_events contacts_dict events [] [] [] in
  let matched_contact_names := matched_names contacts_dict matched_events ∅ in
  let missing_birthdays :=
    List.filter (fun nd => bool_decide (fst nd ∉ matched_contact_names))
      contacts_with_birthdays in
  (matched_events, orphan_birthday_events, non_birthday_events, missing_birthdays).

(** [NextcloudCalendarManager._get_contacts_with_birthdays] *)
Definition _get_contacts_with_birthdays (st : Remote) : list (string * string) :=
  omap contact_birthday (get_all_contacts st).

(** [NextcloudCalendarManager._create_birthday_event] *)
Definition _create_birthday_event (calendar : Calendar)
    (contact_name birthday_date : string) (st : Remote) : bool * Remote :=
  match birthday_vevent contact_name birthday_date with
  | None => (false, st)
  | Some ical_content => dav_add_event calendar ical_content st
  end.

Fixpoint delete_orphans (orphan_birthday_events : list Event) (deleted_count : nat)
    (st : Remote) : nat * Remote :=
  match orphan_birthday_events with
  | [] => (deleted_count, st)
  | event :: events' =>
      let '(ok, st') := delete_event event st in
      delete_orphans events' (if ok then deleted_count + 1 else deleted_count) st'
  end.

Fixpoint create_missing (calendar : Calendar) (missing_birthdays : list (string * string))
    (created_count : nat) (st : Remote) : nat * Remote :=
  match missing_birthdays with
  | [] => (created_count, st)
  | (contact_name, birthday_date) :: missing' =>
      let '(ok, st') := _create_birthday_event calendar contact_name birthday_date st in
      create_missing calendar missing' (if ok then created_count + 1 else created_count) st'
  end.

(** [NextcloudCalendarManager.sync_birthday_calendar] *)
Definition sync_birthday_calendar (calendar_name : string) (dry_run : bool)
    (st : Remote) : option (nat * nat * nat) * Remote :=
  let contacts_with_birthdays := _get_contacts_with_birthdays st in
  match contacts_with_birthdays with
  | [] => (Some (0, 0, 0), st)
  | _ =>
      match get_all_events (Some calendar_name) st with
      | None => (None, st)
      | Some [] => (Some (0, 0, 0), st)
      | Some birthday_events =>
          let '(matched_events, orphan_birthday_events, non_birthday_events,
                missing_birthdays) :=
            _match_birthdays_and_events contacts_with_birthdays birthday_events in
          if dry_run then (Some (length orphan_birthday_events, 0, 0), st)
          else
            let '(deleted_count, st1) := delete_orphans orphan_birthday_events 0 st in
            let '(created_count, st2) :=
              match missing_birthdays with
              | [] => (0, st1)
              | _ =>
                  match get_calendar_by_name st1 calendar_name with
                  | Some calendar => create_missing calendar missing_birthdays 0 st1
                  | None => (0, st1)
                  end
              end in
            (Some (length orphan_birthday_events, deleted_count, created_count), st2)
      end
  end.

(** *** The command line, [api] mode *)

Inductive ItemType := type_contacts | type_calendars.

(** The arguments [argparse] hands to [main] in [api] mode; [--threshold]
    is any integer. *)
Record Args := {
  server_url : string;
  username : string;
  type_ : ItemType;
  calendar : option string;
  sync_birthdays : bool;
  delete : bool;
  threshold : Z
}.

(** What [main] prints from the counts a manager returned. *)
Inductive Report :=
  | NoReport
  | Removal (duplicates_found deleted_count : nat)
  | Sync (orphans_found deleted_count created_count : nat).

Definition is_contacts (t : ItemType) : bool :=
  match t with type_contacts => true | type_calendars => false end.

(** [main] for [args.mode == 'api']: the exit status, what was reported,
    and the server afterwards.  An exception reaching [main] gives the
    status 1. *)
Definition main (args : Args) (st : Remote) : Z * Report * Remote :=
  if negb CALDAV_AVAILABLE then (1%Z, NoReport, st)
  else if negb VOBJECT_AVAILABLE then (1%Z, NoReport, st)
  else if Py.truthy (Py.get_default (calendar args) "") && is_contacts (type_ args)
  then (1%Z, NoReport, st)
  else if sync_birthdays args && is_contacts (type_ args) then (1%Z, NoReport, st)
  else
    match type_ args with
    | type_contacts =>
        if negb (contacts_online st) then (1%Z, NoReport, st)
        else
          match remove_duplicates (negb (delete args)) st with
          | (Some (duplicates_found, deleted_count), st') =>
              (0%Z, Removal duplicates_found deleted_count, st')
          | (None, st') => (1%Z, NoReport, st')
          end
    | type_calendars =>
        if negb (calendars_online st) then (1%Z, NoReport, st)
        else if sync_birthdays args then
          if negb (contacts_online st) then (1%Z, NoReport, st)
          else
            let calendar_name :=
              if Py.truthy (Py.get_default (calendar args) "")
              then Py.get_default (calendar args) "" else "Anniversaire" in
            match sync_birthday_calendar calendar_name (negb (delete args)) st with
            | (Some (orphans_found, deleted_count, created_count), st') =>
                (0%Z, Sync orphans_found deleted_count created_count, st')
            | (None, st') => (1%Z, NoReport, st')
            end
        else
          match remove_event_duplicates (calendar args) (negb (delete args)) st with
          | (Some (duplicates_found, deleted_count), st') =>
              (0%Z, Removal duplicates_found deleted_count, st')
          | (None, st') => (1%Z, NoReport, st')
          end
    end.

End Managers.

(** ** The vCard file mode ([VCardFileProcessor]) *)

(** [process_vcf_file] scans the text read from the input file from
    [position] on.  The loop state [position] is held as the text from
    [position] on, together with whether a line starts there: the text
    starts there, or the character before is a line feed, which is what
    [^] asks for under [re.M]. *)

Definition line_feed : ascii := "010"%char.
Definition carriage_return : ascii := "013"%char.

(** [.*?^END:VCARD] under [re.M | re.S], tried on [s]: the shortest
    stretch up to an [END:VCARD] that starts a line, and the text after
    that [END:VCARD]. *)
Fixpoint to_end_vcard (line_start : bool) (s : string) : option (string * string) :=
  if line_start && Py.startswith s "END:VCARD" then Some ("", Py.drop 9 s)
  else
    match s with
    | EmptyString => None
    | String c s' =>
        match to_end_vcard (Ascii.eqb c line_feed) s' with
        | Some (skipped, after) => Some (String c skipped, after)
        | None => None
        end
    end.

(** [[\x0d\x0a]*]: the longest run of line ends at the head of [s], and
    the text after it. *)
Fixpoint line_ends (s : string) : string * string :=
  match s with
  | EmptyString => ("", "")
  | String c s' =>
      if Ascii.eqb c line_feed || Ascii.eqb c carriage_return then
        let '(ends, after) := line_ends s' in (String c ends, after)
      else ("", s)
  end.

(** A match of the pattern: the text between [position] and
    [match.start(1)], [match.group(1)], [match.group(2)], and the text from
    [match.end(2)] on. *)
Record Match := {
  before : string;
  group1 : string;
  group2 : string;
  after : string
}.

(** [rec.search(content, position)]: the leftmost match of the pattern,
    whose first group is [^BEGIN:VCARD.*?^END:VCARD] and whose second
    group is [[\x0d\x0a]*]. *)
Fixpoint rec_search (line_start : bool) (s : string) : option Match :=
  let here :=
    if line_start && Py.startswith s "BEGIN:VCARD" then
      match to_end_vcard false (Py.drop 11 s) with
      | Some (skipped, rest) =>
          let '(ends, rest') := line_ends rest in
          Some {| before := "";
                  group1 := "BEGIN:VCARD" +:+ skipped +:+ "END:VCARD";
                  group2 := ends; after := rest' |}
      | None => None
      end
    else None in
  match here with
  | Some m => Some m
  | None =>
      match s with
      | EmptyString => None
      | String c s' =>
          match rec_search (Ascii.eqb c line_feed) s' with
          | Some m =>
              Some {| before := String c (before m); group1 := group1 m;
                      group2 := group2 m; after := after m |}
          | None => None
          end
      end
  end.

(** The last character of [s] is a line feed. *)
Fixpoint ends_with_line_feed (s : string) : bool :=
  match s with
  | EmptyString => false
  | String c EmptyString => Ascii.eqb c line_feed
  | String _ s' => ends_with_line_feed s'
  end.

(** How a call of [process_vcf_file] ends: with [ImportError], or with
    the text written to the output file and the number returned.
    [Unfinished] is a loop stopped for lack of fuel. *)
Inductive FileResult :=
  | ImportError
  | Unfinished
  | Processed (written : string) (duplicates_removed : nat).

(** The [while True] loop. *)
Fixpoint process_loop (fuel : nat) (line_start : bool) (rest : string)
    (unique_contacts : gset string) (written : string) (duplicates_removed : nat)
    : FileResult :=
  match fuel with
  | 0 => Unfinished
  | S fuel' =>
      match rec_search line_start rest with
      | None => Processed (written +:+ rest) duplicates_removed
      | Some m =>
          let written := written +:+ before m in
          let vcard_content := group1 m in
          let line_start' := ends_with_line_feed (group1 m +:+ group2 m) in
          if decide (vcard_content ∉ unique_contacts) then
            process_loop fuel' line_start' (after m)
              (unique_contacts ∪ {[vcard_content]})
              (written +:+ vcard_content +:+ group2 m) duplicates_removed
          else
            process_loop fuel' line_start' (after m) unique_contacts written
              (duplicates_removed + 1)
      end
  end.

(** [VCardFileProcessor.process_vcf_file], from the text [f.read()]
    returned to the text handed to [g.write] and the number returned. *)
Definition process_vcf_file `{Platform} (content : string) : FileResult :=
  if negb VOBJECT_AVAILABLE then ImportError
  else process_loop (S (String.length content)) true content ∅ "" 0.

(** ** Configuration ([config_example.py]) *)

(** A value a configuration entry can hold. *)
Inductive ConfigValue :=
  | VInt (z : Z)
  | VBool (b : bool)
  | VStr (s : string)
  | VFloat
  | VNone.

Record Config := {
  cfg_server_url : string;
  cfg_username : string;
  cfg_similarity_threshold : ConfigValue;
  cfg_logging_level : string
}.

Inductive Validation :=
  | Valid
  | ValueError (message : string).

Definition valid_log_levels : list string :=
  ["DEBUG"; "INFO"; "WARNING"; "ERROR"; "CRITICAL"].

(** [isinstance(threshold, int) and 0 <= threshold <= 100]; a [bool] is
    an [int]. *)
Definition threshold_in_range (v : ConfigValue) : bool :=
  match v with
  | VInt z => (0 <=? z)%Z && (z <=? 100)%Z
  | VBool _ => true
  | _ => false
  end.

(** [validate_config] *)
Definition validate_config `{Platform} (config : Config) : Validation :=
  let server_url := cfg_server_url config in
  if negb (Py.startswith server_url "http://" || Py.startswith server_url "https://")
  then ValueError "L'URL du serveur doit commencer par http:// ou https://"
  else
    let username := cfg_username config in
    if negb (Py.truthy username) || negb (Py.truthy (str_strip username))
    then ValueError "Le nom d'utilisateur ne peut pas être vide"
    else
      let threshold := cfg_similarity_threshold config in
      if negb (threshold_in_range threshold)
      then ValueError "Le seuil de similarité doit être un entier entre 0 et 100"
      else if negb (existsb (String.eqb (cfg_logging_level config)) valid_log_levels)
      then ValueError "Niveau de log invalide"
      else Valid.

(** ** Reference formulation of the clustering

    [enumerate] numbers the records; [greedy] is the clustering as a
    recursion on the list of records still unassigned: the first one
    anchors a group, takes every later record the scorer pairs with it,
    and the rest is clustered in turn. *)

Fixpoint enumerate {A} (start : nat) (l : list A) : list (nat * A) :=
  match l with
  | [] => []
  | x :: l' => (start, x) :: enumerate (S start) l'
  end.

Section Greedy.
Context {R : Type}.
Variable are_duplicates : R -> R -> bool.

Definition joins (record1 : R) (jr : nat * R) : Prop := are_duplicates record1 jr.2.

Fixpoint greedy_fuel (fuel : nat) (l : list (nat * R)) : list (list (nat * R)) :=
  match fuel, l with
  | S fuel', (i, record1) :: rest =>
      let members := filter (joins record1) rest in
      let others := filter (fun jr => ~ joins record1 jr) rest in
      (if 1 <? length ((i, record1) :: members)
       then [(i, record1) :: members] else [])
      ++ greedy_fuel fuel' others
  | _, _ => []
  end.

Definition greedy (l : list (nat * R)) : list (list (nat * R)) :=
  greedy_fuel (length l) l.

(** The anchors: the records that open a group or stay alone. *)
Fixpoint anchors_fuel (fuel : nat) (l : list (nat * R)) : list (nat * R) :=
  match fuel, l with
  | S fuel', (i, record1) :: rest =>
      (i, record1) :: anchors_fuel fuel' (filter (fun jr => ~ joins record1 jr) rest)
  | _, _ => []
  end.

Definition anchors (l : list (nat * R)) : list (nat * R) :=
  anchors_fuel (length l) l.

(** The members of the groups other than their anchors. *)
Definition absorbed (l : list (nat * R)) : list (nat * R) :=
  concat (List.map (drop 1) (greedy l)).

End Greedy.

(** A group member [(j, r)] is the record at position [j] of the input. *)
Definition at_positions {R} (records : list R) (group : list (nat * R)) : Prop :=
  Forall (fun jr => records !! jr.1 = Some jr.2) group.

(** The positions of all members of all groups, in order. *)
Definition positions {R} (groups : dict (list (nat * R))) : list nat :=
  (concat (dict_values groups)).*1.

(** Two positions of the input end up in the same returned group. *)
Definition grouped_together {R} (groups : dict (list (nat * R))) (i j : nat) : Prop :=
  exists g, g ∈ dict_values groups /\ i ∈ g.*1 /\ j ∈ g.*1.

(** Two contacts share at least one normalized email. *)
Definition share_email (a b : Contact) : Prop :=
  sets_intersect (emails a) (emails b) = true.

(** The keys [prefix_0], [prefix_1], ... given to groups in order. *)
Fixpoint with_keys {G} (key_prefix : string) (n : nat) (groups : list G) : dict G :=
  match groups with
  | [] => []
  | g :: groups' => (group_key key_prefix n, g) :: with_keys key_prefix (S n) groups'
  end.


(** ** The survivor score as the specification words it *)

Definition name_present (c : Contact) : bool :=
  match full_name c with
  | Some name => Py.truthy name
  | None => false
  end.

Fixpoint count_newlines (s : string) : nat :=
  match s with
  | EmptyString => 0
  | String c s' => (if Ascii.eqb c "010"%char then 1 else 0) + count_newlines s'
  end.

(** The lines of a text: one more than its line breaks. *)
Definition line_count (s : string) : nat := S (count_newlines s).

Definition score_formula (c : Contact) : nat :=
  2 * length (emails c) + 2 * length (phones c)
  + 5 * (if name_present c then 1 else 0)
  + 1 * line_count (raw_data c).

(** ** Reconciliation as the specification words it *)

Section Reconciliation_spec.
Context `{Platform}.

(** The normalized title contains one of the keywords. *)
Definition title_mentions (keywords : list string) (event_title : string) : bool :=
  existsb (fun keyword => Py.str_in keyword (str_strip (str_lower event_title)))
    keywords.

(** The candidate name read from the title of an event. *)
Definition candidate_name (event : Event) : string :=
  _extract_contact_name_from_birthday_event
    (str_lower (Py.get_default (title event) "")).

(** An entry satisfies an event: its name matches the candidate name, and
    its [MM-DD] equals the event's when that can be extracted. *)
Definition entry_satisfies (event : Event) (entry : string * string) : bool :=
  name_matches (candidate_name event) (str_lower entry.1) &&
  (let event_date_str := _format_date_for_comparison (start_date event) in
   if Py.truthy event_date_str then String.eqb event_date_str entry.2 else true).

Definition birthday_typed (event : Event) : bool :=
  _is_birthday_event (Py.get_default (title event) "").

End Reconciliation_spec.

(** A contact is kept when its remote object is none of the deleted ones. *)
Definition kept (deleted : list nat) (c : Contact) : bool :=
  forallb (fun object => negb (vcard_object c =? object)) deleted.

(** The contacts a run that is not dry asks the server to delete: in
    every group, the members other than the elected survivor. *)
Definition deletion_plan (groups : dict (list Contact)) : list Contact :=
  List.concat
    (List.map
       (fun g =>
          match choose_best_contact g with
          | Some best => List.filter (fun c => bool_decide (c <> best)) g
          | None => []
          end)
       (dict_values groups)).

(** The records of a plan whose remote object accepts deletion. *)
Definition deletable (st : Remote) (plan : list Contact) : list Contact :=
  List.filter (fun c => bool_decide (vcard_object c ∉ protected st)) plan.

(** [args] with another [--threshold]. *)
Definition with_threshold (t : Z) (args : Args) : Args :=
  {| server_url := server_url args; username := username args;
     type_ := type_ args; calendar := calendar args;
     sync_birthdays := sync_birthdays args; delete := delete args;
     threshold := t |}.

(** The vCards of a text, in order: the first group of the successive
    matches of the scan of [process_vcf_file]. *)
Fixpoint vcards_fuel (fuel : nat) (line_start : bool) (rest : string) : list string :=
  match fuel with
  | 0 => []
  | S fuel' =>
      match rec_search line_start rest with
      | None => []
      | Some m =>
          group1 m ::
          vcards_fuel fuel' (ends_with_line_feed (group1 m +:+ group2 m)) (after m)
      end
  end.

Definition vcards (content : string) : list string :=
  vcards_fuel (S (String.length content)) true content.

(** ** Sample data for closed examples *)
Module Sample.

#[local] Instance fuzzy : Platform := Ascii_platform.platform true.
Definition degraded : Platform := Ascii_platform.platform false.

Definition contact (object : nat) (name : option string) (es ps : list string)
    : Contact :=
  {| uid := Py.str_of_nat object; vcard_object := object; full_name := name;
     emails := es; phones := ps; raw_data := "BEGIN:VCARD" |}.

(** A chain: [a] and [b] share an address, [b] and [c] another. *)
Definition a : Contact := contact 1 None ["a@example.org"] [].
Definition b : Contact := contact 2 None ["a@example.org"; "b@example.org"] [].
Definition c : Contact := contact 3 None ["b@example.org"] [].

(** Collaborators for the examples: the birthday of a contact is read
    from a raw vCard of the form [BDAY:MM-DD]. *)
#[local] Instance collaborators : Collaborators :=
  {| contact_birthday := fun c =>
       if Py.startswith (raw_data c) "BDAY:"
       then Some (Py.get_default (full_name c) "Contact sans nom", Py.drop 5 (raw_data c))
       else None;
     birthday_vevent := fun name date =>
       Some ("SUMMARY:Anniversaire de " +:+ name +:+ ";" +:+ date) |}.

Definition born (object : nat) (name date : string) : Contact :=
  {| uid := Py.str_of_nat object; vcard_object := object; full_name := Some name;
     emails := []; phones := []; raw_data := "BDAY:" +:+ date |}.

Definition event (object : nat) (summary : string) (date : option DateValue) : Event :=
  {| e_uid := Py.str_of_nat object; calendar_name := "Anniversaire";
     event_object := object; title := Some summary; description := None;
     start_date := date; e_raw_data := "BEGIN:VCALENDAR";
     vevent_attributes := Some 3 |}.

(** A chain by telephone numbers: no address, no name. *)
Definition p : Contact := contact 4 None [] ["+3311"].
Definition q : Contact := contact 5 None [] ["+3311"; "+3322"].
Definition r : Contact := contact 6 None [] ["+3322"].

(** A server holding the chain a, b, c and no calendar. *)
Definition chain_server : Remote :=
  {| contacts_online := true; calendars_online := true;
     addressbook := [a; b; c]; calendars := [];
     protected := ∅; calls := [] |}.

(** A server holding the same contacts with the richest one first. *)
Definition star_server : Remote :=
  {| contacts_online := true; calendars_online := true;
     addressbook := [b; a; c]; calendars := [];
     protected := ∅; calls := [] |}.

(** The chain a, b, c on a server that refuses to delete a. *)
Definition guarded_server : Remote :=
  {| contacts_online := true; calendars_online := true;
     addressbook := [a; b; c]; calendars := [];
     protected := {[1]}; calls := [] |}.

(** The command line [api URL USER --type contacts --delete --threshold t]. *)
Definition delete_contacts (t : Z) : Args :=
  {| server_url := "https://cloud.example.org"; username := "user";
     type_ := type_contacts; calendar := None; sync_birthdays := false;
     delete := true; threshold := t |}.

Definition config (t : ConfigValue) : Config :=
  {| cfg_server_url := "https://cloud.example.org"; cfg_username := "user";
     cfg_similarity_threshold := t; cfg_logging_level := "INFO" |}.

(** Two contacts of the same name born on different days, and the
    birthday event of the first. *)
Definition namesakes : list (string * string) :=
  [("Jean Dupont", "05-12"); ("Jean Dupont", "06-01")].
Definition jean_event : Event :=
  event 10 "Anniversaire de Jean Dupont" (Some (PyDate 2024 5 12)).

(** The scenario of the specification. *)
Definition entries : list (string * string) :=
  [("Jean Dupont", "05-12"); ("Marie Curie", "11-07")].
Definition meeting : Event := event 11 "Réunion client" (Some (PyDate 2024 3 1)).
Definition unknown : Event :=
  event 12 "Anniversaire de X Inconnu" (Some (PyDate 2024 1 2)).
Definition party : Event :=
  event 13 "Fête d'anniversaire de Jean Dupont" (Some (PyDate 2024 5 12)).

(** A server with two contacts born on known days and a calendar holding
    a matching birthday, a meeting and the birthday of a stranger. *)
Definition birthday_server : Remote :=
  {| contacts_online := true; calendars_online := true;
     addressbook := [born 1 "Jean Dupont" "05-12"; born 2 "Marie Curie" "11-07"];
     calendars :=
       [{| cal_name := "Anniversaire"; cal_readonly := false;
           cal_events := [jean_event; meeting; unknown]; cal_added := [] |}];
     protected := ∅; calls := [] |}.

(** The command line [api URL USER --type calendars --sync-birthdays],
    with [--delete] or without. *)
Definition sync_args (really : bool) : Args :=
  {| server_url := "https://cloud.example.org"; username := "user";
     type_ := type_calendars; calendar := None; sync_birthdays := true;
     delete := really; threshold := 85 |}.

(** Two calendars: [Anniversaire] holds the same birthday twice, [Perso]
    holds it once more. *)
Definition twins_server : Remote :=
  {| contacts_online := true; calendars_online := true;
     addressbook := [];
     calendars :=
       [{| cal_name := "Anniversaire"; cal_readonly := false;
           cal_events :=
             [event 20 "Anniversaire de Jean Dupont" (Some (PyDate 2024 5 12));
              event 21 "Anniversaire de Jean Dupont" (Some (PyDate 2024 5 12))];
           cal_added := [] |};
        {| cal_name := "Perso"; cal_readonly := false;
           cal_events :=
             [{| e_uid := "22"; calendar_name := "Perso"; event_object := 22;
                 title := Some "Anniversaire de Jean Dupont"; description := None;
                 start_date := Some (PyDate 2024 5 12);
                 e_raw_data := "BEGIN:VCALENDAR"; vevent_attributes := Some 3 |}];
           cal_added := [] |}];
     protected := ∅; calls := [] |}.

(** A vCard file holding the same card twice, another card between the
    two, and a last line that belongs to no card. *)
Definition line (s : string) : string := s +:+ String line_feed "".
Definition vcard (name : string) : string :=
  line "BEGIN:VCARD" +:+ line ("FN:" +:+ name) +:+ "END:VCARD".
Definition vcf : string :=
  line (vcard "Jean Dupont") +:+ line (vcard "Marie Curie") +:+
  line (vcard "Jean Dupont") +:+ "X-END".

End Sample.

(** * Properties *)

(** ** Strings and dictionaries *)

Lemma str_of_nat_inj n m : Py.str_of_nat n = Py.str_of_nat m -> n = m.
Proof.
  unfold Py.str_of_nat. intros E.
  apply (f_equal NilEmpty.uint_of_string) in E.
  rewrite !NilEmpty.usu in E. injection E as E.
  apply (f_equal Nat.of_uint) in E. by rewrite !Unsigned.of_to in E.
Qed.

Lemma append_inj_r (p a b : string) : p +:+ a = p +:+ b -> a = b.
Proof. induction p as [|c p IH]; simpl; [done|]. intros E. injection E as E. auto. Qed.

Lemma group_key_inj prefix n m : group_key prefix n = group_key prefix m -> n = m.
Proof. unfold group_key. intros E. by apply str_of_nat_inj, (append_inj_r prefix). Qed.

Lemma dict_set_fresh {V} (k : string) (v : V) (d : dict V) :
  k ∉ dict_keys d -> dict_set k v d = d ++ [(k, v)].
Proof.
  induction d as [|[k' v'] d IH]; simpl; [done|].
  intros Hk. apply not_elem_of_cons in Hk as [Hne Hk].
  destruct (String.eqb_spec k' k) as [->|_]; [done|]. by rewrite IH.
Qed.

Lemma with_keys_keys {G} prefix n (gs : list G) :
  dict_keys (with_keys prefix n gs) = List.map (group_key prefix) (seq n (length gs)).
Proof.
  revert n. induction gs as [|g gs IH]; intros n; simpl; [done|].
  f_equal. apply IH.
Qed.

Lemma with_keys_values {G} prefix n (gs : list G) :
  dict_values (with_keys prefix n gs) = gs.
Proof. revert n. induction gs as [|g gs IH]; intros n; simpl; [done|]. f_equal. apply IH. Qed.

Lemma with_keys_length {G} prefix n (gs : list G) :
  length (with_keys prefix n gs) = length gs.
Proof. revert n. induction gs as [|g gs IH]; intros n; simpl; [done|]. f_equal. apply IH. Qed.

Lemma with_keys_snoc {G} prefix n (gs : list G) g :
  with_keys prefix n (gs ++ [g]) =
  with_keys prefix n gs ++ [(group_key prefix (n + length gs), g)].
Proof.
  revert n. induction gs as [|g' gs IH]; intros n; simpl.
  - by rewrite Nat.add_0_r.
  - rewrite IH, Nat.add_succ_r. done.
Qed.

Lemma group_key_fresh prefix n m :
  group_key prefix (n + m) ∉ List.map (group_key prefix) (seq n m).
Proof.
  intros Hin. apply list_elem_of_In, in_map_iff in Hin as (k & Hk & Hin).
  apply group_key_inj in Hk. apply in_seq in Hin. lia.
Qed.

Lemma NoDup_group_keys prefix n m : NoDup (List.map (group_key prefix) (seq n m)).
Proof.
  apply NoDup_ListNoDup, Finite.Injective_map_NoDup; [|apply seq_NoDup].
  intros a b. apply group_key_inj.
Qed.

(** ** Numbered lists *)

Lemma enumerate_elem {A} (l : list A) j k (x : A) :
  (k, x) ∈ enumerate j l <-> j <= k /\ l !! (k - j) = Some x.
Proof.
  revert j. induction l as [|y l IH]; intros j; simpl.
  - split; [by intros ?%elem_of_nil | by intros [_ ?]].
  - rewrite elem_of_cons, IH. split.
    + intros [E|[Hle Hl]].
      * injection E as -> ->. split; [lia|]. by rewrite Nat.sub_diag.
      * split; [lia|]. replace (k - j) with (S (k - S j)) by lia. done.
    + intros [Hle Hl]. destruct (decide (k = j)) as [->|Hne].
      * left. rewrite Nat.sub_diag in Hl. simpl in Hl. congruence.
      * right. split; [lia|]. replace (k - j) with (S (k - S j)) in Hl by lia. done.
Qed.

Lemma enumerate_fst {A} (l : list A) j : (enumerate j l).*1 = seq j (length l).
Proof. revert j. induction l as [|y l IH]; intros j; simpl; [done|]. f_equal. apply IH. Qed.

Lemma enumerate_NoDup_fst {A} (l : list A) j : NoDup (enumerate j l).*1.
Proof. rewrite enumerate_fst. apply NoDup_ListNoDup, seq_NoDup. Qed.

Lemma enumerate_functional {A} (l : list A) j k (x y : A) :
  (k, x) ∈ enumerate j l -> (k, y) ∈ enumerate j l -> x = y.
Proof. rewrite !enumerate_elem. intros [_ Hx] [_ Hy]. congruence. Qed.

Lemma filter_ext_elem {A} (P Q : A -> Prop) `{!forall x, Decision (P x)}
    `{!forall x, Decision (Q x)} (l : list A) :
  (forall x, x ∈ l -> P x <-> Q x) -> filter P l = filter Q l.
Proof.
  induction l as [|x l IH]; intros Hext; [done|].
  rewrite !filter_cons.
  assert (P x <-> Q x) as HPQ by (apply Hext; left).
  rewrite IH by (intros y Hy; apply Hext; by right).
  destruct (decide (P x)), (decide (Q x)); tauto.
Qed.

(** ** The clustering loop is the greedy clustering *)

Section Clustering_facts.
Context {R : Type}.
Variable are_duplicates : R -> R -> bool.
Variable key_prefix : string.

#[local] Abbreviation joins' := (joins are_duplicates).
#[local] Abbreviation greedy' := (greedy are_duplicates).
#[local] Abbreviation greedy_fuel' := (greedy_fuel are_duplicates).

Lemma scan_candidates_spec record1 rest j duplicates (processed : gset nat) :
  let taken :=
    filter (fun jr => (jr.1 ∉ processed) /\ joins' record1 jr) (enumerate j rest) in
  scan_candidates are_duplicates record1 j rest duplicates processed =
  (duplicates ++ taken, list_to_set taken.*1 ∪ processed).
Proof.
  revert j duplicates processed.
  induction rest as [|record2 rest IH]; intros j duplicates processed; simpl.
  - rewrite app_nil_r. f_equal. set_solver.
  - assert (forall extra : gset nat, extra ⊆ {[j]} ->
      filter (fun jr => (jr.1 ∉ extra ∪ processed) /\ joins' record1 jr)
        (enumerate (S j) rest) =
      filter (fun jr => (jr.1 ∉ processed) /\ joins' record1 jr)
        (enumerate (S j) rest)) as Hlater.
    { intros extra Hextra. apply filter_ext_elem. intros [k r] Hk; simpl.
      apply enumerate_elem in Hk as [Hk _].
      assert (k ∉ extra) by (intros ?%Hextra%elem_of_singleton; lia).
      set_solver. }
    destruct (decide (j ∈ processed)) as [Hin|Hout].
    + rewrite IH. rewrite filter_cons_False by (simpl; tauto). done.
    + destruct (are_duplicates record1 record2) eqn:Hdup.
      * rewrite IH, Hlater by done.
        rewrite filter_cons_True by (unfold joins; simpl; by rewrite Hdup).
        rewrite <- app_assoc. simpl. f_equal. set_solver.
      * rewrite IH.
        rewrite filter_cons_False; [done|].
        unfold joins; simpl. rewrite Hdup. intros [_ []].
Qed.

Lemma greedy_fuel_enough fuel1 fuel2 (l : list (nat * R)) :
  length l <= fuel1 -> length l <= fuel2 -> greedy_fuel' fuel1 l = greedy_fuel' fuel2 l.
Proof.
  revert fuel2 l. induction fuel1 as [|fuel1 IH]; intros fuel2 l H1 H2.
  - destruct l; [|simpl in H1; lia]. by destruct fuel2.
  - destruct l as [|[i record1] rest]; [by destruct fuel2|].
    destruct fuel2 as [|fuel2]; [simpl in H2; lia|]. simpl in *.
    f_equal. apply IH.
    + etrans; [apply length_filter|lia].
    + etrans; [apply length_filter|lia].
Qed.

Lemma greedy_cons i record1 (rest : list (nat * R)) :
  greedy' ((i, record1) :: rest) =
  (if 1 <? length ((i, record1) :: filter (joins' record1) rest)
   then [(i, record1) :: filter (joins' record1) rest] else [])
  ++ greedy' (filter (fun jr => ~ joins' record1 jr) rest).
Proof.
  unfold greedy. simpl. f_equal.
  apply greedy_fuel_enough; [apply length_filter|done].
Qed.

Lemma greedy_nil : greedy' [] = [].
Proof. done. Qed.

(** An induction principle following the recursion of [greedy]. *)
Lemma greedy_ind (P : list (nat * R) -> Prop) :
  P [] ->
  (forall i record1 rest,
     P (filter (fun jr => ~ joins' record1 jr) rest) -> P ((i, record1) :: rest)) ->
  forall l, P l.
Proof.
  intros Hnil Hcons l.
  induction l as [l IH] using (induction_ltof1 _ (@length _)).
  destruct l as [|[i record1] rest]; [done|].
  apply Hcons, IH. unfold ltof. simpl.
  eapply Nat.le_lt_trans; [apply length_filter|lia].
Qed.

Lemma clustering_loop_spec rest i groups (processed : gset nat) :
  dict_keys groups = List.map (group_key key_prefix) (seq 0 (length groups)) ->
  clustering_loop are_duplicates key_prefix i rest groups processed =
  groups ++
  with_keys key_prefix (length groups)
    (greedy' (filter (fun jr => jr.1 ∉ processed) (enumerate i rest))).
Proof.
  revert i groups processed.
  induction rest as [|record1 rest IH]; intros i groups processed Hkeys; simpl.
  - by rewrite app_nil_r.
  - destruct (decide (i ∈ processed)) as [Hin|Hout].
    + rewrite IH by done. by rewrite filter_cons_False by (simpl; tauto).
    + rewrite filter_cons_True by done. rewrite greedy_cons.
      rewrite scan_candidates_spec. cbv zeta.
      set (unassigned := filter (fun jr => jr.1 ∉ processed) (enumerate (S i) rest)).
      assert (filter (fun jr => (jr.1 ∉ {[i]} ∪ processed) /\ joins' record1 jr)
                (enumerate (S i) rest) = filter (joins' record1) unassigned) as ->.
      { unfold unassigned. rewrite list_filter_filter.
        apply filter_ext_elem. intros [k r] Hk; simpl.
        apply enumerate_elem in Hk as [Hk _].
        assert (k <> i) by lia. set_solver. }
      set (members := filter (joins' record1) unassigned).
      assert (filter
                (fun jr => jr.1 ∉ list_to_set members.*1 ∪ ({[i]} ∪ processed))
                (enumerate (S i) rest) =
              filter (fun jr => ~ joins' record1 jr) unassigned) as Hothers.
      { unfold unassigned. rewrite list_filter_filter.
        apply filter_ext_elem. intros [k r] Hk; simpl.
        pose proof Hk as Hk'. apply enumerate_elem in Hk' as [Hle _].
        assert (k <> i) by lia.
        rewrite not_elem_of_union, not_elem_of_union, elem_of_list_to_set.
        split.
        - intros (Hmem & _ & Hproc). split; [|done].
          intros Hjoin. apply Hmem. apply list_elem_of_fmap. exists (k, r).
          split; [done|]. apply list_elem_of_filter. split; [done|].
          apply list_elem_of_filter. done.
        - intros [Hjoin Hproc]. split; [|set_solver].
          intros ([k' r'] & Hkk & Hmem)%list_elem_of_fmap. simpl in Hkk. subst k'.
          apply list_elem_of_filter in Hmem as [Hj Hmem].
          apply list_elem_of_filter in Hmem as [_ Hmem].
          by rewrite (enumerate_functional _ _ _ _ _ Hk Hmem) in Hjoin. }
      change (length ((i, record1) :: members)) with (length ([(i, record1)] ++ members)).
      destruct (1 <? length ([(i, record1)] ++ members)) eqn:Hlen.
      * rewrite dict_set_fresh.
        2:{ rewrite Hkeys. apply (group_key_fresh key_prefix 0). }
        rewrite IH.
        2:{ unfold dict_keys in *. rewrite List.map_app, Hkeys. simpl.
            rewrite length_app. simpl. rewrite seq_app, List.map_app. done. }
        rewrite Hothers, length_app, <- app_assoc. simpl.
        by rewrite Nat.add_1_r.
      * rewrite IH by done. by rewrite Hothers.
Qed.

Lemma clustering_loop_greedy (records : list R) :
  clustering_loop are_duplicates key_prefix 0 records [] ∅ =
  with_keys key_prefix 0 (greedy' (enumerate 0 records)).
Proof.
  rewrite clustering_loop_spec by done. simpl. do 2 f_equal.
  induction (enumerate 0 records) as [|x l IH]; [done|].
  rewrite filter_cons_True by set_solver. by f_equal.
Qed.

End Clustering_facts.

(** ** The groups of the greedy clustering *)

Section Greedy_facts.
Context {R : Type}.
Variable are_duplicates : R -> R -> bool.

#[local] Abbreviation joins' := (joins are_duplicates).
#[local] Abbreviation greedy' := (greedy are_duplicates).

Lemma greedy_groups_large (l : list (nat * R)) :
  Forall (fun g => 1 < length g) (greedy' l).
Proof.
  induction l as [|i record1 rest IH] using (greedy_ind are_duplicates); [constructor|].
  rewrite greedy_cons. apply Forall_app; split; [|done].
  destruct (1 <? _) eqn:Hlen; [|constructor].
  constructor; [|constructor]. by apply Nat.ltb_lt.
Qed.

Lemma greedy_submseteq (l : list (nat * R)) : concat (greedy' l) ⊆+ l.
Proof.
  induction l as [|i record1 rest IH] using (greedy_ind are_duplicates); [done|].
  rewrite greedy_cons, concat_app.
  destruct (1 <? _).
  - simpl. rewrite app_nil_r. constructor.
    etrans; [by apply submseteq_skips_l|].
    apply Permutation_submseteq, filter_app_complement.
  - simpl. apply submseteq_cons. etrans; [exact IH|].
    apply sublist_submseteq, sublist_filter.
Qed.

End Greedy_facts.

Lemma elem_of_concat {A} (x : A) (ls : list (list A)) :
  x ∈ concat ls <-> exists l, x ∈ l /\ l ∈ ls.
Proof.
  rewrite list_elem_of_In, in_concat. split.
  - intros (l & Hl & Hx). exists l. by rewrite !list_elem_of_In.
  - intros (l & Hx & Hl). exists l. by rewrite <- !list_elem_of_In.
Qed.

Lemma submseteq_NoDup {A} (l k : list A) : l ⊆+ k -> NoDup k -> NoDup l.
Proof.
  intros [k' Hk]%submseteq_Permutation Hnd. rewrite Hk in Hnd.
  by apply NoDup_app in Hnd as [? _].
Qed.

(** The facts the partition rests on, for the clustering loop over any
    record type. *)
Lemma clustering_loop_partition {R} (are_duplicates : R -> R -> bool) prefix
    (records : list R) :
  let groups := clustering_loop are_duplicates prefix 0 records [] ∅ in
  NoDup (dict_keys groups) /\
  Forall (fun g => 1 < length g /\ at_positions records g) (dict_values groups) /\
  NoDup (positions groups).
Proof.
  cbv zeta. rewrite clustering_loop_greedy. unfold positions.
  rewrite with_keys_keys, with_keys_values.
  pose proof (greedy_submseteq are_duplicates (enumerate 0 records)) as Hsub.
  split; [apply NoDup_group_keys|]. split.
  - apply Forall_forall. intros g Hg. split.
    + by eapply (proj1 (Forall_forall _ _) (greedy_groups_large are_duplicates _)).
    + apply Forall_forall. intros [j r] Hjr. simpl.
      assert ((j, r) ∈ enumerate 0 records) as Hin.
      { eapply elem_of_submseteq; [|exact Hsub]. apply elem_of_concat. eauto. }
      apply enumerate_elem in Hin as [_ Hin]. by rewrite Nat.sub_0_r in Hin.
  - eapply submseteq_NoDup; [by apply fmap_submseteq|]. apply enumerate_NoDup_fst.
Qed.

(** ** The degraded clustering, without the fuzzy library *)

Section Simple_mode.
Context `{Platform}.
Variable contacts : list Contact.

Lemma dict_append_at_positions k (x : nat * Contact) d :
  contacts !! x.1 = Some x.2 ->
  Forall (at_positions contacts) (dict_values d) ->
  Forall (at_positions contacts) (dict_values (dict_append k x d)).
Proof.
  intros Hx. induction d as [|[k' l] d IH]; simpl; intros Hd.
  - repeat constructor. done.
  - apply Forall_cons in Hd as [Hl Hd].
    destruct (String.eqb k' k); simpl; constructor; auto.
    apply Forall_app. split; [done|]. by constructor.
Qed.

Lemma index_emails_at_positions i contact es d :
  contacts !! i = Some contact ->
  Forall (at_positions contacts) (dict_values d) ->
  Forall (at_positions contacts) (dict_values (index_emails i contact es d)).
Proof.
  intros Hi. revert d. induction es as [|email es IH]; intros d Hd; simpl; [done|].
  apply IH. destruct (Py.truthy email); [|done].
  by apply dict_append_at_positions.
Qed.

Lemma index_contacts_at_positions rest i processed email_groups name_groups :
  (forall k c, rest !! k = Some c -> contacts !! (i + k) = Some c) ->
  Forall (at_positions contacts) (dict_values email_groups) ->
  Forall (at_positions contacts) (dict_values name_groups) ->
  Forall (at_positions contacts)
    (dict_values (index_contacts i rest processed email_groups name_groups).1) /\
  Forall (at_positions contacts)
    (dict_values (index_contacts i rest processed email_groups name_groups).2).
Proof.
  revert i email_groups name_groups.
  induction rest as [|contact rest IH]; intros i email_groups name_groups Hrest He Hn;
    simpl; [done|].
  assert (contacts !! i = Some contact) as Hi.
  { rewrite <- (Nat.add_0_r i). by apply Hrest. }
  assert (forall k c, rest !! k = Some c -> contacts !! (S i + k) = Some c) as Hrest'.
  { intros k c Hk. replace (S i + k) with (i + S k) by lia. by apply Hrest. }
  destruct (decide (i ∈ processed)); [by apply IH|].
  apply IH; [done| |].
  - by apply index_emails_at_positions.
  - destruct (Py.truthy _); [|done]. by apply dict_append_at_positions.
Qed.

Lemma collect_unprocessed_spec l duplicates (processed : gset nat) :
  exists new,
    collect_unprocessed l duplicates processed =
      (duplicates ++ new, list_to_set new.*1 ∪ processed) /\
    new ⊆ l /\ NoDup new.*1 /\ (forall k, k ∈ new.*1 -> k ∉ processed).
Proof.
  revert duplicates processed.
  induction l as [|[idx contact] l IH]; intros duplicates processed; simpl.
  - exists []. rewrite app_nil_r. split; [f_equal; set_solver|].
    split; [done|]. split; [constructor|]. by intros k ?%elem_of_nil.
  - destruct (decide (idx ∈ processed)) as [Hin|Hout].
    + destruct (IH duplicates processed) as (new & -> & Hsub & Hnd & Hfresh).
      exists new. split; [done|]. split; [set_solver|]. done.
    + destruct (IH (duplicates ++ [(idx, contact)]) ({[idx]} ∪ processed))
        as (new & -> & Hsub & Hnd & Hfresh).
      exists ((idx, contact) :: new). rewrite <- app_assoc. simpl.
      split; [f_equal; set_solver|]. split; [set_solver|]. split.
      * constructor; [|done]. intros Hidx%Hfresh. set_solver.
      * intros k [->|Hk]%elem_of_cons; [done|]. apply Hfresh in Hk. set_solver.
Qed.

(** The invariant of the two group-building loops. *)
Lemma build_groups_invariant items :
  Forall (at_positions contacts) (dict_values items) ->
  forall groups (processed : gset nat) counter,
    dict_keys groups = List.map (group_key "group_") (seq 0 counter) ->
    Forall (fun g => 1 < length g /\ at_positions contacts g) (dict_values groups) ->
    NoDup (positions groups) ->
    (forall k, k ∈ positions groups -> k ∈ processed) ->
    let '(groups', processed', counter') :=
      build_groups items groups processed counter in
    dict_keys groups' = List.map (group_key "group_") (seq 0 counter') /\
    Forall (fun g => 1 < length g /\ at_positions contacts g) (dict_values groups') /\
    NoDup (positions groups') /\
    (forall k, k ∈ positions groups' -> k ∈ processed').
Proof.
  induction items as [|[key contacts_list] items IH];
    intros Hitems groups processed counter Hkeys Hgroups Hnd Hproc; simpl; [done|].
  apply Forall_cons in Hitems as [Hlist Hitems]. simpl in Hlist.
  destruct (1 <? length contacts_list); [|by apply IH].
  destruct (collect_unprocessed_spec contacts_list [] processed)
    as (new & -> & Hsub & Hnew & Hfresh). simpl.
  destruct (1 <? length new) eqn:Hlen.
  - rewrite dict_set_fresh.
    2:{ rewrite Hkeys. apply (group_key_fresh "group_" 0). }
    apply IH; [done| | | |].
    + unfold dict_keys in *. by rewrite List.map_app, Hkeys, seq_S, List.map_app.
    + unfold dict_values in *. rewrite List.map_app. apply Forall_app. split; [done|].
      repeat constructor; [by apply Nat.ltb_lt|].
      apply Forall_forall. intros jc Hjc.
      by apply (proj1 (Forall_forall _ _) Hlist), Hsub.
    + unfold positions, dict_values in *.
      rewrite List.map_app, concat_app, fmap_app. simpl. rewrite app_nil_r.
      apply NoDup_app. split; [done|]. split; [|done].
      intros k Hk Hk'. by apply Hproc, Hfresh in Hk.
    + unfold positions, dict_values in *.
      rewrite List.map_app, concat_app, fmap_app. simpl. rewrite app_nil_r.
      intros k [Hk|Hk]%elem_of_app; [apply Hproc in Hk|]; set_solver.
  - apply IH; [done..|]. intros k Hk. apply Hproc in Hk. set_solver.
Qed.

Lemma _find_duplicates_simple_partition :
  let groups := _find_duplicates_simple_at contacts in
  NoDup (dict_keys groups) /\
  Forall (fun g => 1 < length g /\ at_positions contacts g) (dict_values groups) /\
  NoDup (positions groups).
Proof.
  cbv zeta. unfold _find_duplicates_simple_at.
  pose proof (index_contacts_at_positions contacts 0 ∅ [] []) as Hindex.
  destruct (index_contacts 0 contacts ∅ [] []) as [email_groups name_groups].
  destruct Hindex as [Hemails Hnames]; [done|constructor|constructor|]. simpl in *.
  pose proof (build_groups_invariant email_groups Hemails [] ∅ 0) as Hfirst.
  destruct (build_groups email_groups [] ∅ 0) as [[groups processed] counter].
  destruct Hfirst as (Hk & Hg & Hnd & Hp);
    [done|constructor|constructor|by intros k ?%elem_of_nil|].
  pose proof (build_groups_invariant name_groups Hnames groups processed counter
                Hk Hg Hnd Hp) as Hsecond.
  destruct (build_groups name_groups groups processed counter)
    as [[groups' processed'] counter'].
  destruct Hsecond as (Hk' & Hg' & Hnd' & _).
  split; [|done]. rewrite Hk'. apply NoDup_group_keys.
Qed.

End Simple_mode.

Lemma joins_true {R} (are_duplicates : R -> R -> bool) r (x : nat * R) :
  are_duplicates r x.2 = true -> joins are_duplicates r x.
Proof. unfold joins. by intros ->. Qed.

Lemma joins_false {R} (are_duplicates : R -> R -> bool) r (x : nat * R) :
  are_duplicates r x.2 = false -> ~ joins are_duplicates r x.
Proof. unfold joins. intros ->. by intros []. Qed.

Lemma not_not_joins {R} (are_duplicates : R -> R -> bool) r (x : nat * R) :
  are_duplicates r x.2 = true -> ~ ~ joins are_duplicates r x.
Proof. intros E Hn. by apply Hn, joins_true. Qed.

(** ** Clustering of contacts *)

Lemma find_duplicates_at_partition `{Platform} (contacts : list Contact) (thr : Z) :
  let groups := find_duplicates_at contacts thr in
  NoDup (dict_keys groups) /\
  Forall (fun g => 1 < length g /\ at_positions contacts g) (dict_values groups) /\
  NoDup (positions groups).
Proof.
  cbv zeta. unfold find_duplicates_at.
  destruct (negb FUZZYWUZZY_AVAILABLE).
  - apply _find_duplicates_simple_partition.
  - apply clustering_loop_partition.
Qed.

(** C1. For every contact list and threshold, with or without the fuzzy
    library: the groups [find_duplicates] returns are those of
    [find_duplicates_at] without the positions; the group keys are
    distinct; every group has at least two members, each being the input
    record at its position; and no input position occurs twice among the
    members of all groups, so that a record belongs to at most one returned
    group and the records belonging to none stay alone. *)
Theorem find_duplicates_partition `{Platform} (contacts : list Contact) (thr : Z) :
  let groups := find_duplicates_at contacts thr in
  find_duplicates contacts thr = forget_positions groups /\
  NoDup (dict_keys groups) /\
  Forall (fun g => 1 < length g /\ at_positions contacts g) (dict_values groups) /\
  NoDup (positions groups).
Proof. cbv zeta. split; [done|]. apply find_duplicates_at_partition. Qed.

Lemma find_duplicates_at_fuzzy `{Platform} (contacts : list Contact) (thr : Z) :
  FUZZYWUZZY_AVAILABLE = true ->
  find_duplicates_at contacts thr =
  with_keys "group_" 0
    (greedy (fun c1 c2 => _are_duplicates c1 c2 thr) (enumerate 0 contacts)).
Proof.
  intros Hfuzzy. unfold find_duplicates_at. rewrite Hfuzzy. simpl.
  apply clustering_loop_greedy.
Qed.

(** Only the anchor is consulted: whatever the scorer says of the pair
    (B, C), the result for A, B, C is the same. *)
Lemma star_clustering_anchor_only `{Platform} (A B C : Contact) (thr : Z) :
  FUZZYWUZZY_AVAILABLE = true ->
  _are_duplicates A B thr = true ->
  _are_duplicates A C thr = false ->
  find_duplicates_at [A; B; C] thr = [("group_0", [(0, A); (1, B)])].
Proof.
  intros Hfuzzy HAB HAC. rewrite find_duplicates_at_fuzzy by done. simpl.
  set (scorer := fun c1 c2 => _are_duplicates c1 c2 thr).
  assert (filter (joins scorer A) [(1, B); (2, C)] = [(1, B)]) as Hmembers.
  { rewrite filter_cons_True by (by apply joins_true).
    by rewrite filter_cons_False by (by apply joins_false). }
  assert (filter (fun jr => ~ joins scorer A jr) [(1, B); (2, C)] = [(2, C)])
    as Hothers.
  { rewrite filter_cons_False by (by apply not_not_joins).
    by rewrite filter_cons_True by (by apply joins_false). }
  rewrite greedy_cons, Hmembers, Hothers, greedy_cons. done.
Qed.

(** C2, as stated, fails without the fuzzy library: the fallback groups by
    address and by name only, so for the telephone chain p, q, r, where
    the scorer pairs (p, q) and (q, r) but not (p, r), no group is
    returned and p and q stay apart. *)
Lemma star_clustering_counterexample :
  @_are_duplicates Sample.degraded Sample.p Sample.q 85 = true /\
  @_are_duplicates Sample.degraded Sample.q Sample.r 85 = true /\
  @_are_duplicates Sample.degraded Sample.p Sample.r 85 = false /\
  @find_duplicates Sample.degraded [Sample.p; Sample.q; Sample.r] 85 = [].
Proof. repeat split; vm_compute; reflexivity. Qed.

(** C2, amended.  With the fuzzy library available, for records A, B, C
    given in this order, with (A, B) and (B, C) judged duplicates and
    (A, C) not, [find_duplicates] returns the single group of A and B; C
    is in no returned group. *)
Theorem star_clustering `{Platform} (A B C : Contact) (thr : Z) :
  FUZZYWUZZY_AVAILABLE = true ->
  _are_duplicates A B thr = true ->
  _are_duplicates B C thr = true ->
  _are_duplicates A C thr = false ->
  find_duplicates [A; B; C] thr = [("group_0", [A; B])].
Proof.
  intros Hfuzzy HAB _ HAC. unfold find_duplicates.
  by rewrite star_clustering_anchor_only.
Qed.

Lemma star_clustering_witness :
  @find_duplicates Sample.fuzzy [Sample.a; Sample.b; Sample.c] 85 =
  [("group_0", [Sample.a; Sample.b])].
Proof.
  apply (@star_clustering Sample.fuzzy Sample.a Sample.b Sample.c 85);
    reflexivity.
Defined.

Lemma enumerate_app {A} (l1 l2 : list A) j :
  enumerate j (l1 ++ l2) = enumerate j l1 ++ enumerate (j + length l1) l2.
Proof.
  revert j. induction l1 as [|x l1 IH]; intros j; simpl.
  - by rewrite Nat.add_0_r.
  - rewrite IH. do 3 f_equal. lia.
Qed.

Lemma enumerate_split {A} (l : list A) i (x : A) :
  l !! i = Some x ->
  enumerate 0 l = enumerate 0 (take i l) ++ (i, x) :: enumerate (S i) (drop (S i) l).
Proof.
  intros Hi. rewrite <- (take_drop_middle l i x Hi) at 1.
  rewrite enumerate_app. simpl.
  assert (length (take i l) = i) as ->; [|done].
  rewrite length_take. apply lookup_lt_Some in Hi. lia.
Qed.

(** A pair the scorer accepts is grouped when no earlier record claims
    either of the two. *)
Lemma greedy_groups_pair {R} (are_duplicates : R -> R -> bool)
    (pre post : list (nat * R)) (x y : nat * R) :
  y ∈ post ->
  are_duplicates x.2 y.2 = true ->
  Forall (fun z => are_duplicates z.2 x.2 = false /\ are_duplicates z.2 y.2 = false) pre ->
  exists g, g ∈ greedy are_duplicates (pre ++ x :: post) /\ x ∈ g /\ y ∈ g.
Proof.
  revert post.
  induction pre as [pre IH] using (induction_ltof1 _ (@length _)).
  intros post Hy Hxy Hpre. destruct pre as [|[k z] pre]; simpl.
  - destruct x as [i r]. rewrite greedy_cons.
    assert (y ∈ filter (joins are_duplicates r) post) as Hmember.
    { apply list_elem_of_filter. split; [by apply joins_true|done]. }
    assert (1 <? length ((i, r) :: filter (joins are_duplicates r) post) = true) as ->.
    { apply Nat.ltb_lt. simpl.
      destruct (filter (joins are_duplicates r) post); [by apply elem_of_nil in Hmember|].
      simpl. lia. }
    eexists. split; [apply elem_of_app; left; apply list_elem_of_here|].
    split; [apply list_elem_of_here|by apply list_elem_of_further].
  - apply Forall_cons in Hpre as [[Hzx Hzy] Hpre]. simpl in Hzx, Hzy.
    rewrite greedy_cons.
    rewrite (filter_app (fun jr => ~ joins are_duplicates z jr)).
    rewrite (filter_cons_True (fun jr => ~ joins are_duplicates z jr) x)
      by (by apply joins_false).
    destruct (IH (filter (fun jr => ~ joins are_duplicates z jr) pre))
      with (post := filter (fun jr => ~ joins are_duplicates z jr) post)
      as (g & Hg & Hgx & Hgy).
    + unfold ltof. simpl. eapply Nat.le_lt_trans; [apply length_filter|lia].
    + apply list_elem_of_filter. split; [by apply joins_false|done].
    + done.
    + apply Forall_forall. intros w Hw%list_elem_of_filter.
      apply (proj1 (Forall_forall _ _) Hpre). tauto.
    + exists g. split; [|done]. apply elem_of_app. by right.
Qed.

Lemma share_email_are_duplicates `{Platform} (a b : Contact) (thr : Z) :
  share_email a b -> _are_duplicates a b thr = true.
Proof. unfold share_email, _are_duplicates. by intros ->. Qed.

(** C3, as stated, fails: in the list a, b, c the records b and c share an
    address, but b joins the group anchored on a, which c does not match,
    and c stays alone; so with and without the fuzzy library. *)
Lemma exact_match_counterexample :
  [Sample.a; Sample.b; Sample.c] !! 1 = Some Sample.b /\
  [Sample.a; Sample.b; Sample.c] !! 2 = Some Sample.c /\
  share_email Sample.b Sample.c /\
  ~ grouped_together
      (@find_duplicates_at Sample.fuzzy [Sample.a; Sample.b; Sample.c] 85) 1 2 /\
  ~ grouped_together
      (@find_duplicates_at Sample.degraded [Sample.a; Sample.b; Sample.c] 85) 1 2.
Proof.
  split; [done|]. split; [done|]. split; [done|].
  assert (forall groups,
            groups = [("group_0", [(0, Sample.a); (1, Sample.b)])] ->
            ~ grouped_together groups 1 2) as Hnot.
  { intros groups -> (g & Hg & _ & H2). simpl in Hg.
    apply list_elem_of_singleton in Hg as ->. simpl in H2.
    repeat (apply elem_of_cons in H2 as [H2|H2]; [discriminate|]).
    by apply elem_of_nil in H2. }
  split; apply Hnot; vm_compute; reflexivity.
Qed.

(** C3, amended.  With the fuzzy library available: two records A and B,
    A before B in the input, that share a normalized email end up in the
    same group whenever no record before A is judged a duplicate of A or
    of B. *)
Theorem exact_match_when_unclaimed `{Platform} (contacts : list Contact) (thr : Z)
    (i j : nat) (A B : Contact) :
  FUZZYWUZZY_AVAILABLE = true ->
  contacts !! i = Some A ->
  contacts !! j = Some B ->
  i < j ->
  share_email A B ->
  (forall k X, k < i -> contacts !! k = Some X ->
     _are_duplicates X A thr = false /\ _are_duplicates X B thr = false) ->
  grouped_together (find_duplicates_at contacts thr) i j.
Proof.
  intros Hfuzzy Hi Hj Hij Hshare Hearlier.
  rewrite find_duplicates_at_fuzzy by done.
  rewrite (enumerate_split contacts i A Hi).
  destruct (greedy_groups_pair (fun c1 c2 => _are_duplicates c1 c2 thr)
              (enumerate 0 (take i contacts))
              (enumerate (S i) (drop (S i) contacts)) (i, A) (j, B))
    as (g & Hg & HgA & HgB).
  - apply enumerate_elem. split; [lia|]. rewrite lookup_drop.
    replace (S i + (j - S i)) with j by lia. done.
  - by apply share_email_are_duplicates.
  - apply Forall_forall. intros [k X] [_ Hk]%enumerate_elem. simpl.
    rewrite Nat.sub_0_r in Hk. apply lookup_take_Some in Hk as [Hk Hlt].
    by apply (Hearlier k X).
  - exists g. rewrite with_keys_values. split; [done|].
    split; apply list_elem_of_fmap; [by exists (i, A)|by exists (j, B)].
Qed.

Lemma exact_match_when_unclaimed_witness :
  grouped_together
    (@find_duplicates_at Sample.fuzzy [Sample.a; Sample.b; Sample.c] 85) 0 1.
Proof.
  apply (@exact_match_when_unclaimed Sample.fuzzy
           [Sample.a; Sample.b; Sample.c] 85 0 1 Sample.a Sample.b);
    [reflexivity | reflexivity | reflexivity | lia | reflexivity | ].
  intros k X Hk. lia.
Defined.

(** ** Survivor selection *)

Section Sorting.
Context {A : Type}.
Variable key : A -> nat.

Lemma insert_desc_perm x (l : list A) : insert_desc key x l ≡ₚ x :: l.
Proof.
  induction l as [|y l IH]; simpl; [done|].
  destruct (key x <? key y); [|done]. rewrite IH. apply Permutation_swap.
Qed.

Lemma sort_desc_perm (l : list A) : sort_desc key l ≡ₚ l.
Proof.
  induction l as [|x l IH]; simpl; [done|].
  rewrite insert_desc_perm. by constructor.
Qed.

Lemma insert_desc_sorted x (l : list A) :
  StronglySorted (fun a b => key b <= key a) l ->
  StronglySorted (fun a b => key b <= key a) (insert_desc key x l).
Proof.
  induction 1 as [|y l Hl IH Hy]; simpl; [repeat constructor|].
  destruct (key x <? key y) eqn:Hlt.
  - apply Nat.ltb_lt in Hlt. constructor; [done|].
    rewrite insert_desc_perm. constructor; [lia|done].
  - apply Nat.ltb_ge in Hlt. constructor; [by constructor|].
    constructor; [done|]. eapply Forall_impl; [exact Hy|]. simpl. lia.
Qed.

(** [sort_desc] sorts by decreasing key ... *)
Lemma sort_desc_sorted (l : list A) :
  StronglySorted (fun a b => key b <= key a) (sort_desc key l).
Proof.
  induction l as [|x l IH]; simpl; [constructor|]. by apply insert_desc_sorted.
Qed.

Lemma insert_desc_stable k x (l : list A) :
  filter (fun a => key a = k) (insert_desc key x l) =
  filter (fun a => key a = k) (x :: l).
Proof.
  induction l as [|y l IH]; simpl; [done|].
  destruct (key x <? key y) eqn:Hlt; [|done].
  apply Nat.ltb_lt in Hlt.
  rewrite (filter_cons _ y), IH, !filter_cons.
  destruct (decide (key y = k)), (decide (key x = k)); done || lia.
Qed.

(** ... and keeps the records of equal key in their order. *)
Lemma sort_desc_stable k (l : list A) :
  filter (fun a => key a = k) (sort_desc key l) = filter (fun a => key a = k) l.
Proof.
  induction l as [|x l IH]; simpl; [done|].
  by rewrite insert_desc_stable, !filter_cons, IH.
Qed.

End Sorting.

(** The head of the scored, sorted list is the first record of maximal
    score. *)
Lemma sort_desc_head {A} (score : A -> nat) (l : list A) :
  l <> [] ->
  exists pre best post,
    l = pre ++ best :: post /\
    head (sort_desc fst (List.map (fun c => (score c, c)) l)) = Some (score best, best) /\
    Forall (fun c => score c < score best) pre /\
    Forall (fun c => score c <= score best) post.
Proof.
  induction l as [|x l IH]; [done|]. intros _.
  destruct l as [|y l].
  - exists [], x, []. simpl. repeat split; constructor.
  - destruct IH as (pre & best & post & Hl & Hhead & Hpre & Hpost); [done|].
    change (sort_desc fst (List.map (fun c => (score c, c)) (x :: y :: l)))
      with (insert_desc fst (score x, x)
              (sort_desc fst (List.map (fun c => (score c, c)) (y :: l)))).
    destruct (sort_desc fst (List.map (fun c => (score c, c)) (y :: l)))
      as [|top sorted]; [done|].
    simpl in Hhead. injection Hhead as ->. simpl.
    destruct (score x <? score best) eqn:Hlt.
    + apply Nat.ltb_lt in Hlt. exists (x :: pre), best, post.
      rewrite Hl. repeat split; [|done]. by constructor.
    + apply Nat.ltb_ge in Hlt. exists [], x, (y :: l).
      repeat split; [constructor|]. rewrite Hl. apply Forall_app. split.
      * eapply Forall_impl; [exact Hpre|]. simpl. lia.
      * constructor; [done|]. eapply Forall_impl; [exact Hpost|]. simpl. lia.
Qed.

Lemma str_split_length (s : string) :
  length (Py.str_split "010"%char s) = line_count s.
Proof.
  unfold line_count. induction s as [|c s IH]; simpl; [done|].
  destruct (Ascii.eqb c "010"%char); simpl; [by rewrite IH|].
  destruct (Py.str_split "010"%char s); simpl in *; [done|]. done.
Qed.

(** The score computed by the code is the formula of the specification. *)
Lemma contact_score_formula (c : Contact) : contact_score c = score_formula c.
Proof.
  unfold contact_score, score_formula, name_present.
  rewrite str_split_length.
  destruct (emails c), (phones c), (full_name c) as [name|]; simpl;
    try destruct (Py.truthy name); lia.
Qed.

(** C6. For a non-empty group, [choose_best_contact] returns a member
    whose score, by the formula of the specification, is at least that of
    every member and strictly above that of every member before it: the
    first member of maximal score.  A group of one returns its member. *)
Theorem choose_best_contact_first_max (duplicates : list Contact)
    (Hnonempty : duplicates <> []) :
  (exists pre best post,
     duplicates = pre ++ best :: post /\
     choose_best_contact duplicates = Some best /\
     Forall (fun c => score_formula c < score_formula best) pre /\
     Forall (fun c => score_formula c <= score_formula best) post) /\
  (forall only, duplicates = [only] -> choose_best_contact duplicates = Some only).
Proof.
  split; [|by intros only ->].
  destruct (sort_desc_head contact_score duplicates Hnonempty)
    as (pre & best & post & Hl & Hhead & Hpre & Hpost).
  exists pre, best, post. split; [done|]. split.
  - destruct duplicates as [|c1 [|c2 rest]]; [done| |].
    + destruct pre as [|? [|? ?]]; simpl in Hl; by simplify_eq.
    + unfold choose_best_contact.
      destruct (sort_desc fst _) as [|[s top] sorted]; [done|].
      simpl in Hhead. by simplify_eq.
  - split; (eapply Forall_impl; [eassumption|]); intros c; simpl;
      by rewrite !contact_score_formula.
Qed.

Lemma choose_best_contact_first_max_witness :
  [Sample.a; Sample.b; Sample.c] <> [] /\
  (exists pre best post,
     [Sample.a; Sample.b; Sample.c] = pre ++ best :: post /\
     choose_best_contact [Sample.a; Sample.b; Sample.c] = Some best /\
     Forall (fun c => score_formula c < score_formula best) pre /\
     Forall (fun c => score_formula c <= score_formula best) post).
Proof.
  assert ([Sample.a; Sample.b; Sample.c] <> []) as Hnonempty by discriminate.
  split; [exact Hnonempty|].
  apply (choose_best_contact_first_max [Sample.a; Sample.b; Sample.c] Hnonempty).
Defined.

(** In the chain a, b, c the record with two addresses scores highest. *)
Example choose_best_contact_chain :
  choose_best_contact [Sample.a; Sample.b; Sample.c] = Some Sample.b /\
  List.map score_formula [Sample.a; Sample.b; Sample.c] = [3; 5; 3].
Proof. split; reflexivity. Qed.


(** ** The command line and the configuration *)

(** C10. The result of a run in [api] mode (exit status, reported counts,
    server afterwards, with the journal of the deletions asked for) does
    not depend on [--threshold]: [remove_duplicates] calls
    [find_duplicates] with the default 85, whatever the command line says. *)
Theorem threshold_never_used `{Platform} `{Collaborators} (args : Args) (t1 t2 : Z)
    (dry_run : bool) (st : Remote) :
  main (with_threshold t1 args) st = main (with_threshold t2 args) st /\
  remove_duplicates dry_run st =
    match get_all_contacts st with
    | [] => (Some (0, 0), st)
    | contacts =>
        remove_groups choose_best_contact delete_contact
          (find_duplicates contacts 85) dry_run st
    end.
Proof. split; [reflexivity|]. unfold remove_duplicates. by destruct (get_all_contacts st). Qed.

Section Command_line_examples.
#[local] Existing Instance Sample.fuzzy.
#[local] Existing Instance Sample.collaborators.

(** The threshold matters to [find_duplicates] itself: two differently
    named contacts are grouped at threshold 0 and not at 85; yet a run
    with [--threshold 0] finds nothing. *)
Example threshold_matters_to_find_duplicates :
  let ann := Sample.contact 1 (Some "Ann") [] [] in
  let bob := Sample.contact 2 (Some "Bob") [] [] in
  let server :=
    {| contacts_online := true; calendars_online := true;
       addressbook := [ann; bob]; calendars := [];
       protected := ∅; calls := [] |} in
  find_duplicates [ann; bob] 0 = [("group_0", [ann; bob])] /\
  find_duplicates [ann; bob] 85 = [] /\
  main (Sample.delete_contacts 0) server = (0%Z, Removal 0 0, server).
Proof. repeat split; vm_compute; reflexivity. Qed.

(** C4: the code at a failing input.  [validate_config] rejects the
    threshold 500, but a run with [--threshold 500 --delete] is not
    rejected: it clusters the address book and deletes a contact, exactly
    as the run with the threshold 85 does. *)
Theorem out_of_range_threshold_accepted :
  validate_config (Sample.config (VInt 500)) =
    ValueError "Le seuil de similarité doit être un entier entre 0 et 100" /\
  validate_config (Sample.config (VInt 85)) = Valid /\
  main (Sample.delete_contacts 500) Sample.chain_server =
    (0%Z, Removal 2 1,
     {| contacts_online := true; calendars_online := true;
        addressbook := [Sample.b; Sample.c]; calendars := [];
        protected := ∅; calls := [CallDelete 1] |}) /\
  main (Sample.delete_contacts 500) Sample.chain_server =
  main (Sample.delete_contacts 85) Sample.chain_server.
Proof. repeat split; vm_compute; reflexivity. Qed.

End Command_line_examples.

(** ** Dry runs *)

Lemma choose_best_contact_some (duplicates : list Contact) :
  duplicates <> [] -> is_Some (choose_best_contact duplicates).
Proof.
  intros Hne.
  destruct (sort_desc_head contact_score duplicates Hne)
    as (pre & best & post & Hl & Hhead & _).
  destruct duplicates as [|c1 [|c2 rest]]; [done|by eexists|].
  unfold choose_best_contact.
  destruct (sort_desc fst _) as [|[s top] sorted]; [done|]. by eexists.
Qed.

Lemma choose_best_event_some `{Platform} (duplicates : list Event) :
  duplicates <> [] -> is_Some (choose_best_event duplicates).
Proof.
  intros Hne.
  destruct (sort_desc_head event_score10 duplicates Hne)
    as (pre & best & post & Hl & Hhead & _).
  destruct duplicates as [|e1 [|e2 rest]]; [done|by eexists|].
  unfold choose_best_event.
  destruct (sort_desc fst _) as [|[s top] sorted]; [done|]. by eexists.
Qed.

Lemma forget_positions_large {R} (groups : dict (list (nat * R))) :
  Forall (fun g => 1 < length g) (dict_values groups) ->
  Forall (fun g => g <> []) (dict_values (forget_positions groups)).
Proof.
  unfold dict_values, forget_positions. rewrite List.map_map. simpl.
  induction groups as [|[k g] groups IH]; simpl; intros Hg; [constructor|].
  apply Forall_cons in Hg as [Hlen Hg]. constructor; [|by apply IH].
  destruct g; simpl in *; [lia|done].
Qed.

Section Dry_run.
Context {R : Type} `{EqDecision R}.
Variable choose_best : list R -> option R.
Variable delete_record : R -> Remote -> bool * Remote.
Hypothesis choose_best_some : forall g, g <> [] -> is_Some (choose_best g).

Lemma dry_run_report_some (groups : dict (list R)) :
  Forall (fun g => g <> []) (dict_values groups) ->
  is_Some (dry_run_report choose_best groups).
Proof.
  induction groups as [|[k g] groups IH]; simpl; intros Hg; [by eexists|].
  apply Forall_cons in Hg as [Hne Hg].
  destruct (choose_best_some g Hne) as [best ->].
  destruct (IH Hg) as [report ->]. by eexists.
Qed.

(** A dry run over any groups returns a deletion count of 0 and the
    server as it was. *)
Lemma remove_groups_dry_run (groups : dict (list R)) (st : Remote) :
  Forall (fun g => g <> []) (dict_values groups) ->
  exists found,
    remove_groups choose_best delete_record groups true st = (Some (found, 0), st).
Proof.
  intros Hg. unfold remove_groups. destruct groups as [|kg groups]; [by eexists|].
  destruct (dry_run_report_some (kg :: groups) Hg) as [report ->]. by eexists.
Qed.

End Dry_run.

Lemma find_duplicates_nonempty `{Platform} (contacts : list Contact) (thr : Z) :
  Forall (fun g => g <> []) (dict_values (find_duplicates contacts thr)).
Proof.
  apply forget_positions_large.
  destruct (find_duplicates_at_partition contacts thr) as (_ & Hg & _).
  eapply Forall_impl; [exact Hg|]. by intros g [? _].
Qed.

Lemma find_event_duplicates_nonempty `{Platform} (events : list Event) (thr : Z) :
  Forall (fun g => g <> []) (dict_values (find_event_duplicates events thr)).
Proof.
  apply forget_positions_large.
  destruct (clustering_loop_partition
              (fun e1 e2 => _are_events_duplicates e1 e2 thr) "event_group_" events)
    as (_ & Hg & _).
  eapply Forall_impl; [exact Hg|]. by intros g [? _].
Qed.

(** C5. With [dry_run] true, [remove_duplicates],
    [remove_event_duplicates] and [sync_birthday_calendar] return the
    server exactly as it was, journal of deletions and creations
    included, and the deletion and creation counts they return are 0.
    The two calendar functions raise, before anything else, when no
    calendar is known ([None]). *)
Theorem dry_run_changes_nothing `{Platform} `{Collaborators} (st : Remote)
    (calendar : option string) (calendar_name : string) :
  (exists found, remove_duplicates true st = (Some (found, 0), st)) /\
  (exists found,
     remove_event_duplicates calendar true st =
     (match calendars st with [] => None | _ => Some (found, 0) end, st)) /\
  (exists orphans,
     sync_birthday_calendar calendar_name true st =
     (match _get_contacts_with_birthdays st, calendars st with
      | _ :: _, [] => None
      | _, _ => Some (orphans, 0, 0)
      end, st)).
Proof.
  split; [|split].
  - unfold remove_duplicates. destruct (get_all_contacts st) as [|c cs]; [by eexists|].
    apply remove_groups_dry_run;
      [apply choose_best_contact_some|apply find_duplicates_nonempty].
  - unfold remove_event_duplicates, get_all_events.
    destruct (calendars st) as [|cal cals] eqn:Hcals; [by exists 0|].
    set (events := if Py.truthy _ then _ else _).
    destruct events as [[|e es]|] eqn:Hevents.
    + by exists 0.
    + apply remove_groups_dry_run;
        [apply choose_best_event_some|apply find_event_duplicates_nonempty].
    + subst events. by repeat case_match.
  - unfold sync_birthday_calendar, get_all_events.
    destruct (_get_contacts_with_birthdays st) as [|nd nds]; [by exists 0|].
    destruct (calendars st) as [|cal cals] eqn:Hcals; [by exists 0|].
    set (events := if Py.truthy _ then _ else _).
    destruct events as [[|e es]|] eqn:Hevents.
    + by exists 0.
    + destruct (_match_birthdays_and_events _ _) as [[[matched orphans] others] missing].
      by eexists.
    + subst events. by repeat case_match.
Qed.

(** ** Birthday reconciliation *)

Section Reconciliation.
Context `{Platform}.

Lemma classify_events_spec (contacts_dict : dict (string * string))
    (events matched orphans others : list Event) :
  let found e := find_match (candidate_name e) (start_date e) contacts_dict in
  classify_events contacts_dict events matched orphans others =
  (matched ++ List.filter (fun e => birthday_typed e && found e) events,
   orphans ++ List.filter (fun e => birthday_typed e && negb (found e)) events,
   others ++ List.filter (fun e => negb (birthday_typed e)) events).
Proof.
  cbv zeta. revert matched orphans others.
  induction events as [|e events IH]; intros matched orphans others; simpl.
  - by rewrite !app_nil_r.
  - unfold birthday_typed, candidate_name in *.
    destruct (_is_birthday_event (Py.get_default (title e) "")); simpl.
    + destruct (find_match _ _ _); simpl; rewrite IH, <- ?app_assoc; done.
    + rewrite IH, <- ?app_assoc. done.
Qed.

Lemma _is_birthday_event_mentions (event_title : string) :
  _is_birthday_event event_title =
  negb (title_mentions non_birthday_keywords event_title)
  && title_mentions birthday_keywords event_title.
Proof.
  unfold _is_birthday_event, title_mentions.
  by destruct (existsb _ non_birthday_keywords).
Qed.

(** C8. An event is birthday-typed exactly when its normalized title
    contains no exclusion keyword and contains an inclusion keyword: an
    exclusion keyword makes it a non-birthday event whatever else the
    title contains, and so does the absence of any inclusion keyword.  The
    non-birthday events of a reconciliation are the events that are not
    birthday-typed, in order. *)
Theorem birthday_classification (event_title : string)
    (contacts_with_birthdays : list (string * string)) (events : list Event) :
  _is_birthday_event event_title =
    negb (title_mentions non_birthday_keywords event_title)
    && title_mentions birthday_keywords event_title /\
  (_match_birthdays_and_events contacts_with_birthdays events).1.2 =
    List.filter
      (fun e =>
         title_mentions non_birthday_keywords (Py.get_default (title e) "")
         || negb (title_mentions birthday_keywords (Py.get_default (title e) "")))
      events.
Proof.
  split; [apply _is_birthday_event_mentions|].
  unfold _match_birthdays_and_events. rewrite classify_events_spec.
  cbn [fst snd app]. apply filter_ext. intros e. unfold birthday_typed.
  rewrite _is_birthday_event_mentions.
  by destruct (title_mentions non_birthday_keywords _), (title_mentions birthday_keywords _).
Qed.

(** The dictionary of the contacts, when no two names agree up to case. *)
Lemma contacts_dict_of_distinct (contacts_with_birthdays : list (string * string)) :
  NoDup (List.map (fun nd => str_lower nd.1) contacts_with_birthdays) ->
  contacts_dict_of contacts_with_birthdays =
  List.map (fun nd => (str_lower nd.1, (nd.1, nd.2))) contacts_with_birthdays.
Proof.
  unfold contacts_dict_of.
  assert (forall l (d : dict (string * string)),
            NoDup (dict_keys d ++ List.map (fun nd => str_lower nd.1) l) ->
            fold_left (fun d nd => dict_set (str_lower nd.1) (nd.1, nd.2) d) l d =
            d ++ List.map (fun nd => (str_lower nd.1, (nd.1, nd.2))) l) as Hgen.
  { induction l as [|nd l IH]; intros d Hnd; simpl; [by rewrite app_nil_r|].
    simpl in Hnd. rewrite dict_set_fresh.
    - rewrite IH; [by rewrite <- app_assoc|].
      unfold dict_keys. rewrite List.map_app. simpl. by rewrite <- app_assoc.
    - apply NoDup_app in Hnd as (_ & Hfresh & _). intros Hin.
      apply (Hfresh _ Hin). left. }
  intros Hnd. by rewrite Hgen.
Qed.

Lemma find_match_satisfies (event : Event) (entries : list (string * string)) :
  find_match (candidate_name event) (start_date event)
    (List.map (fun nd => (str_lower nd.1, (nd.1, nd.2))) entries) =
  existsb (entry_satisfies event) entries.
Proof.
  induction entries as [|[name date] entries IH]; simpl; [done|].
  unfold entry_satisfies at 1. simpl.
  destruct (name_matches _ _); simpl; [|done].
  destruct (Py.truthy _); simpl; [|done].
  by destruct (String.eqb _ date).
Qed.

(** When no two contacts have the same name up to case, the matched
    events are the birthday-typed events some entry satisfies, and the
    orphans are the other birthday-typed events. *)
Lemma matching_with_distinct_names (contacts_with_birthdays : list (string * string))
    (events : list Event) :
  NoDup (List.map (fun nd => str_lower nd.1) contacts_with_birthdays) ->
  (_match_birthdays_and_events contacts_with_birthdays events).1.1.1 =
    List.filter
      (fun e => birthday_typed e
                && existsb (entry_satisfies e) contacts_with_birthdays) events /\
  (_match_birthdays_and_events contacts_with_birthdays events).1.1.2 =
    List.filter
      (fun e => birthday_typed e
                && negb (existsb (entry_satisfies e) contacts_with_birthdays)) events.
Proof.
  intros Hnd. unfold _match_birthdays_and_events.
  rewrite classify_events_spec, contacts_dict_of_distinct by done.
  cbn [fst snd app]. split; apply filter_ext; intros e; by rewrite find_match_satisfies.
Qed.

End Reconciliation.

Section Reconciliation_examples.
#[local] Existing Instance Sample.fuzzy.
#[local] Existing Instance Sample.collaborators.

(** The scenario of the specification: the birthday of Jean Dupont is
    matched, the client meeting is no birthday, the birthday of an unknown
    person is an orphan, Marie Curie has no event; and a party is no
    birthday although its title names one. *)
Example reconciliation_scenario :
  _match_birthdays_and_events Sample.entries
    [Sample.jean_event; Sample.meeting; Sample.unknown; Sample.party] =
  ([Sample.jean_event], [Sample.unknown], [Sample.meeting; Sample.party],
   [("Marie Curie", "11-07")]).
Proof. vm_compute. reflexivity. Qed.

(** C9: the code at a failing input.  Two contacts are both named Jean
    Dupont, born on 05-12 and on 06-01.  The event "Anniversaire de Jean
    Dupont" of 2024-05-12 is birthday-typed and the first entry satisfies
    it, name and date; but the dictionary keyed by the lower-cased name
    keeps one entry for both, with the date of the second, so the event
    is classified an orphan, and a run that is not dry deletes it. *)
Theorem namesake_event_orphaned :
  birthday_typed Sample.jean_event = true /\
  List.map (entry_satisfies Sample.jean_event) Sample.namesakes = [true; false] /\
  contacts_dict_of Sample.namesakes = [("jean dupont", ("Jean Dupont", "06-01"))] /\
  _match_birthdays_and_events Sample.namesakes [Sample.jean_event] =
    ([], [Sample.jean_event], [], Sample.namesakes).
Proof. repeat split; vm_compute; reflexivity. Qed.

End Reconciliation_examples.

(** ** Anchors and absorbed records *)

Lemma filter_none {A} (P : A -> Prop) `{!forall x, Decision (P x)} (l : list A) :
  Forall (fun x => ~ P x) l -> filter P l = [].
Proof.
  induction 1 as [|x l Hx Hl IH]; [done|]. by rewrite filter_cons_False.
Qed.

Lemma filter_all {A} (P : A -> Prop) `{!forall x, Decision (P x)} (l : list A) :
  Forall P l -> filter P l = l.
Proof.
  induction 1 as [|x l Hx Hl IH]; [done|]. rewrite filter_cons_True by done.
  by f_equal.
Qed.

Lemma NoDup_fst_functional {A B} (l : list (A * B)) k (x y : B) :
  NoDup l.*1 -> (k, x) ∈ l -> (k, y) ∈ l -> x = y.
Proof.
  induction l as [|[k' z] l IH]; simpl; intros Hnd Hx Hy.
  - by apply elem_of_nil in Hx.
  - apply NoDup_cons in Hnd as [Hk Hnd].
    apply elem_of_cons in Hx as [Hx|Hx]; apply elem_of_cons in Hy as [Hy|Hy].
    + congruence.
    + injection Hx as -> ->. destruct Hk. by apply (list_elem_of_fmap_2 fst) in Hy.
    + injection Hy as -> ->. destruct Hk. by apply (list_elem_of_fmap_2 fst) in Hx.
    + by apply IH.
Qed.

Section Anchors.
Context {R : Type}.
Variable are_duplicates : R -> R -> bool.

#[local] Abbreviation joins' := (joins are_duplicates).
#[local] Abbreviation greedy' := (greedy are_duplicates).
#[local] Abbreviation anchors' := (anchors are_duplicates).
#[local] Abbreviation absorbed' := (absorbed are_duplicates).

Lemma anchors_fuel_enough fuel1 fuel2 (l : list (nat * R)) :
  length l <= fuel1 -> length l <= fuel2 ->
  anchors_fuel are_duplicates fuel1 l = anchors_fuel are_duplicates fuel2 l.
Proof.
  revert fuel2 l. induction fuel1 as [|fuel1 IH]; intros fuel2 l H1 H2.
  - destruct l; [|simpl in H1; lia]. by destruct fuel2.
  - destruct l as [|[i record1] rest]; [by destruct fuel2|].
    destruct fuel2 as [|fuel2]; [simpl in H2; lia|]. simpl in *.
    f_equal. apply IH; (etrans; [apply length_filter|lia]).
Qed.

Lemma anchors_cons i record1 (rest : list (nat * R)) :
  anchors' ((i, record1) :: rest) =
  (i, record1) :: anchors' (filter (fun jr => ~ joins' record1 jr) rest).
Proof.
  unfold anchors. simpl. f_equal.
  apply anchors_fuel_enough; [apply length_filter|done].
Qed.

Lemma absorbed_cons i record1 (rest : list (nat * R)) :
  absorbed' ((i, record1) :: rest) =
  filter (joins' record1) rest
  ++ absorbed' (filter (fun jr => ~ joins' record1 jr) rest).
Proof.
  unfold absorbed. rewrite greedy_cons, List.map_app, concat_app. f_equal.
  destruct (filter (joins' record1) rest) as [|m members]; simpl; [done|].
  by rewrite app_nil_r.
Qed.

Lemma anchors_elem (l : list (nat * R)) x : x ∈ anchors' l -> x ∈ l.
Proof.
  induction l as [|i record1 rest IH] using (greedy_ind are_duplicates).
  - by intros ?%elem_of_nil.
  - rewrite anchors_cons. intros [->|Hx]%elem_of_cons; [left|].
    right. apply IH in Hx. by apply list_elem_of_filter in Hx as [_ ?].
Qed.

Lemma absorbed_elem (l : list (nat * R)) x : x ∈ absorbed' l -> x ∈ l.
Proof.
  induction l as [|i record1 rest IH] using (greedy_ind are_duplicates).
  - by intros ?%elem_of_nil.
  - rewrite absorbed_cons. intros [Hx|Hx]%elem_of_app; right.
    + by apply list_elem_of_filter in Hx as [_ ?].
    + apply IH in Hx. by apply list_elem_of_filter in Hx as [_ ?].
Qed.

(** No anchor is judged a duplicate of a later anchor. *)
Lemma anchors_no_pairs (l : list (nat * R)) :
  StronglySorted (fun x y => are_duplicates x.2 y.2 = false) (anchors' l).
Proof.
  induction l as [|i record1 rest IH] using (greedy_ind are_duplicates).
  - constructor.
  - rewrite anchors_cons. constructor; [done|].
    apply Forall_forall. intros y Hy%anchors_elem.
    apply list_elem_of_filter in Hy as [Hy _]. simpl.
    unfold joins in Hy. by destruct (are_duplicates record1 y.2).
Qed.

(** A list without a pair the scorer accepts has no group. *)
Lemma greedy_no_pairs (l : list (nat * R)) :
  StronglySorted (fun x y => are_duplicates x.2 y.2 = false) l -> greedy' l = [].
Proof.
  induction 1 as [|[i record1] rest Hrest IH Hhead]; [done|].
  rewrite greedy_cons.
  assert (filter (joins' record1) rest = []) as ->.
  { apply filter_none, Forall_forall. intros y Hy.
    apply (proj1 (Forall_forall _ _) Hhead) in Hy. by apply joins_false. }
  assert (filter (fun jr => ~ joins' record1 jr) rest = rest) as ->; [|done].
  apply filter_all, Forall_forall. intros y Hy.
  apply (proj1 (Forall_forall _ _) Hhead) in Hy. by apply joins_false.
Qed.

(** The anchors are the records at the positions no group absorbed. *)
Lemma anchors_filter (l : list (nat * R)) :
  NoDup l.*1 ->
  anchors' l = filter (fun x => x.1 ∉ (absorbed' l).*1) l.
Proof.
  induction l as [|i record1 rest IH] using (greedy_ind are_duplicates); [done|].
  intros Hnd. simpl in Hnd. apply NoDup_cons in Hnd as [Hi Hnd].
  rewrite anchors_cons, absorbed_cons, fmap_app.
  set (members := filter (joins' record1) rest).
  set (others := filter (fun jr => ~ joins' record1 jr) rest).
  assert (forall x, x ∈ rest -> x.1 ∈ members.*1 <-> joins' record1 x) as Hmembers.
  { intros [k r] Hx. simpl. split.
    - intros ([k' r'] & Hk & Hm)%list_elem_of_fmap. simpl in Hk. subst k'.
      apply list_elem_of_filter in Hm as [Hj Hm].
      by rewrite (NoDup_fst_functional rest k r r' Hnd Hx Hm).
    - intros Hj. apply list_elem_of_fmap. exists (k, r). split; [done|].
      by apply list_elem_of_filter. }
  rewrite filter_cons_True.
  2:{ simpl. intros [Hin|Hin]%elem_of_app; apply Hi.
      - apply list_elem_of_fmap in Hin as (x & -> & Hx).
        apply list_elem_of_filter in Hx as [_ Hx]. by apply list_elem_of_fmap_2.
      - apply list_elem_of_fmap in Hin as (x & -> & Hx%absorbed_elem).
        apply list_elem_of_filter in Hx as [_ Hx]. by apply list_elem_of_fmap_2. }
  f_equal. unfold others. rewrite IH.
  2:{ apply (sublist_NoDup _ rest.*1); [exact Hnd|].
      apply fmap_sublist, sublist_filter. }
  rewrite list_filter_filter. apply filter_ext_elem.
  intros x Hx. rewrite not_elem_of_app, (Hmembers x Hx). tauto.
Qed.

End Anchors.

(** ** Deletions on the server *)

Lemma List_filter_filter {A} (f g : A -> bool) (l : list A) :
  List.filter f (List.filter g l) = List.filter (fun x => g x && f x) l.
Proof.
  induction l as [|x l IH]; simpl; [done|].
  destruct (g x); simpl; [|done]. destruct (f x); by rewrite IH.
Qed.

Lemma kept_nil (l : list Contact) : List.filter (kept []) l = l.
Proof. induction l as [|c l IH]; simpl; [done|]. by rewrite IH. Qed.

Lemma kept_app (d1 d2 : list nat) (c : Contact) :
  kept (d1 ++ d2) c = kept d1 c && kept d2 c.
Proof. unfold kept. apply forallb_app. Qed.

Lemma kept_elem (deleted : list nat) (c : Contact) :
  kept deleted c = true <-> vcard_object c ∉ deleted.
Proof.
  unfold kept. rewrite forallb_forall. split.
  - intros Hall Hin%list_elem_of_In. apply Hall in Hin.
    by rewrite Nat.eqb_refl in Hin.
  - intros Hout object Hin%list_elem_of_In.
    apply negb_true_iff, Nat.eqb_neq. intros E. apply Hout. by rewrite E.
Qed.

Lemma dav_delete_unprotected (object : nat) (st : Remote) :
  object ∉ protected st ->
  (dav_delete object st).1 = true /\
  addressbook (dav_delete object st).2 = List.filter (kept [object]) (addressbook st) /\
  protected (dav_delete object st).2 = protected st.
Proof.
  intros Hfree. unfold dav_delete. destruct (decide (object ∈ protected st)); [done|].
  simpl. repeat split. apply filter_ext. intros c. unfold kept. simpl.
  by rewrite andb_true_r.
Qed.

Lemma delete_others_addressbook (best : Contact) (duplicates : list Contact)
    (deleted_count : nat) (st : Remote) :
  Forall (fun c => vcard_object c ∉ protected st) duplicates ->
  let deleted :=
    List.map vcard_object (List.filter (fun c => bool_decide (c <> best)) duplicates) in
  addressbook (delete_others delete_contact best duplicates deleted_count st).2 =
    List.filter (kept deleted) (addressbook st) /\
  protected (delete_others delete_contact best duplicates deleted_count st).2 =
    protected st.
Proof.
  cbv zeta. revert deleted_count st.
  induction duplicates as [|c duplicates IH]; intros deleted_count st Hfree; simpl.
  - by rewrite kept_nil.
  - apply Forall_cons in Hfree as [Hc Hfree].
    destruct (bool_decide (c <> best)); simpl; [|by apply IH].
    unfold delete_contact at 1 3.
    destruct (dav_delete_unprotected (vcard_object c) st Hc) as (Hok & Hbook & Hprot).
    destruct (dav_delete (vcard_object c) st) as [ok st1]. simpl in *.
    destruct (IH (if ok then deleted_count + 1 else deleted_count) st1) as [Hbook' Hprot'].
    { by rewrite Hprot. }
    rewrite Hbook', Hprot', Hbook, List_filter_filter. split; [|done].
    apply filter_ext. intros x. unfold kept. simpl. by rewrite andb_true_r.
Qed.

Lemma delete_in_groups_addressbook (groups : dict (list Contact))
    (deleted_count : nat) (st : Remote) :
  Forall (fun g => Forall (fun c => vcard_object c ∉ protected st) g)
    (dict_values groups) ->
  Forall
    (fun g => exists anchor members,
       g = anchor :: members /\ choose_best_contact g = Some anchor /\
       Forall (fun c => c <> anchor) members)
    (dict_values groups) ->
  exists deleted_count' st',
    delete_in_groups choose_best_contact delete_contact groups deleted_count st =
      (Some deleted_count', st') /\
    addressbook st' =
      List.filter
        (kept (List.map vcard_object (concat (List.map (drop 1) (dict_values groups)))))
        (addressbook st).
Proof.
  revert deleted_count st.
  induction groups as [|[key g] groups IH]; intros deleted_count st Hfree Hbest.
  - eexists _, _. split; [done|]. simpl. by rewrite kept_nil.
  - change (dict_values ((key, g) :: groups)) with (g :: dict_values groups) in *.
    apply Forall_cons in Hfree as [Hg Hfree].
    apply Forall_cons in Hbest as [(anchor & members & -> & Hchoose & Hne) Hbest].
    cbn [delete_in_groups List.map concat]. rewrite Hchoose.
    destruct (delete_others_addressbook anchor (anchor :: members) deleted_count st Hg)
      as [Hbook Hprot].
    destruct (delete_others delete_contact anchor (anchor :: members) deleted_count st)
      as [deleted_count1 st1]. cbn [fst snd] in Hbook, Hprot.
    destruct (IH deleted_count1 st1) as (deleted_count' & st' & -> & Hbook').
    { by rewrite Hprot. }
    { done. }
    eexists _, _. split; [done|].
    rewrite Hbook', Hbook, List_filter_filter. apply filter_ext. intros x.
    rewrite List.map_app, kept_app. f_equal. simpl.
    rewrite bool_decide_eq_false_2 by (by intros []).
    f_equal. f_equal. clear -Hne.
    induction members as [|m members IHm]; simpl; [done|].
    apply Forall_cons in Hne as [Hm Hne].
    rewrite bool_decide_eq_true_2 by done. by rewrite IHm.
Qed.

(** ** Running the removal twice *)

Lemma enumerate_snd {A} (l : list A) j : (enumerate j l).*2 = l.
Proof. revert j. induction l as [|x l IH]; intros j; simpl; [done|]. f_equal. apply IH. Qed.

Lemma StronglySorted_enumerate {A} (P : A -> A -> Prop) (l : list A) j :
  StronglySorted P l -> StronglySorted (fun x y => P x.2 y.2) (enumerate j l).
Proof.
  intros Hl. revert j. induction Hl as [|x l Hl IH Hx]; intros j; simpl; constructor.
  - apply IH.
  - apply Forall_forall. intros [k y] Hy. simpl.
    apply (proj1 (Forall_forall _ _) Hx).
    rewrite <- (enumerate_snd l (S j)). by apply (list_elem_of_fmap_2 snd) in Hy.
Qed.

Lemma StronglySorted_snd {A} (P : A -> A -> Prop) (l : list (nat * A)) :
  StronglySorted (fun x y => P x.2 y.2) l -> StronglySorted P l.*2.
Proof.
  induction 1 as [|x l Hl IH Hx]; simpl; constructor; [done|].
  apply Forall_fmap. eapply Forall_impl; [exact Hx|]. done.
Qed.

Lemma filter_enumerate {A} (P : nat * A -> Prop) `{!forall x, Decision (P x)}
    (f : A -> bool) (l : list A) j :
  (forall x, x ∈ enumerate j l -> P x <-> f x.2 = true) ->
  (filter P (enumerate j l)).*2 = List.filter f l.
Proof.
  revert j. induction l as [|y l IH]; intros j Hext; simpl; [done|].
  rewrite filter_cons.
  assert (P (j, y) <-> f y = true) as Hy by (apply Hext; left).
  rewrite <- (IH (S j)) by (intros x Hx; apply Hext; by right).
  destruct (decide (P (j, y))) as [HP|HP], (f y); simpl; try done.
  - apply Hy in HP. done.
  - destruct HP. by apply Hy.
Qed.

Lemma forget_positions_values {R} (groups : dict (list (nat * R))) :
  dict_values (forget_positions groups) = List.map (fun g => g.*2) (dict_values groups).
Proof.
  unfold dict_values, forget_positions. rewrite !List.map_map. done.
Qed.

Lemma absorbed_snd {R} (groups : list (list (nat * R))) :
  concat (List.map (drop 1) (List.map (fun g => g.*2) groups)) =
  (concat (List.map (drop 1) groups)).*2.
Proof.
  induction groups as [|g groups IH]; simpl; [done|].
  by rewrite fmap_app, IH, fmap_drop.
Qed.

(** Records at different positions of a list with distinct remote
    objects are different. *)
Lemma distinct_objects (contacts : list Contact) i j (a b : Contact) :
  NoDup (List.map vcard_object contacts) ->
  contacts !! i = Some a -> contacts !! j = Some b ->
  vcard_object a = vcard_object b -> i = j.
Proof.
  intros Hnd Hi Hj Hab.
  apply (NoDup_lookup (List.map vcard_object contacts) i j (vcard_object a)); [done| |].
  - change (List.map vcard_object contacts) with (vcard_object <$> contacts).
    by rewrite list_lookup_fmap, Hi.
  - change (List.map vcard_object contacts) with (vcard_object <$> contacts).
    by rewrite list_lookup_fmap, Hj, Hab.
Qed.

Section Idempotence.
Context `{Platform}.
Variable contacts : list Contact.
Variable thr : Z.
Hypothesis objects_distinct : NoDup (List.map vcard_object contacts).

#[local] Abbreviation scorer := (fun c1 c2 => _are_duplicates c1 c2 thr).
#[local] Abbreviation numbered := (enumerate 0 contacts).

(** Keeping what no group absorbed keeps the anchors. *)
Lemma kept_are_anchors :
  List.filter
    (kept (List.map vcard_object (absorbed scorer numbered).*2)) contacts =
  (anchors scorer numbered).*2.
Proof.
  rewrite anchors_filter by apply enumerate_NoDup_fst.
  symmetry. apply filter_enumerate. intros [k c] Hk. simpl.
  rewrite kept_elem. pose proof Hk as [_ Hc]%enumerate_elem.
  rewrite Nat.sub_0_r in Hc. split.
  - intros Hout Hin. apply Hout.
    apply list_elem_of_In, in_map_iff in Hin as (c' & Hobj & Hin).
    apply list_elem_of_In, list_elem_of_fmap in Hin as ([k' c''] & -> & Hin).
    simpl in Hobj. pose proof Hin as Habs.
    apply absorbed_elem, enumerate_elem in Hin as [_ Hc'].
    rewrite Nat.sub_0_r in Hc'.
    rewrite (distinct_objects contacts k k' c c'' objects_distinct Hc Hc') by done.
    by apply (list_elem_of_fmap_2 fst) in Habs.
  - intros Hout Hin. apply Hout.
    apply list_elem_of_fmap in Hin as ([k' c'] & Hkk & Hin). simpl in Hkk. subst k'.
    pose proof Hin as Habs. apply absorbed_elem in Hin.
    rewrite (enumerate_functional _ _ _ _ _ Hk Hin).
    apply list_elem_of_In, in_map, list_elem_of_In.
    by apply (list_elem_of_fmap_2 snd) in Habs.
Qed.

(** Clustering the anchors finds nothing. *)
Lemma anchors_have_no_groups :
  greedy scorer (enumerate 0 (anchors scorer numbered).*2) = [].
Proof.
  apply (greedy_no_pairs scorer).
  apply (StronglySorted_enumerate (fun a b => _are_duplicates a b thr = false)).
  apply (StronglySorted_snd (fun a b => _are_duplicates a b thr = false)).
  exact (anchors_no_pairs scorer numbered).
Qed.

(** In a group, the members after the anchor differ from it. *)
Lemma members_differ (g : list (nat * Contact)) :
  g ∈ greedy scorer numbered ->
  exists anchor members,
    g.*2 = anchor :: members /\ Forall (fun c => c <> anchor) members /\
    Forall (fun c => c ∈ contacts) g.*2.
Proof.
  intros Hg.
  assert (g ⊆+ numbered) as Hsub.
  { etrans; [|apply (greedy_submseteq scorer)].
    apply list_elem_of_split in Hg as (G1 & G2 & ->).
    rewrite concat_app. simpl. apply submseteq_inserts_l, submseteq_inserts_r. done. }
  assert (NoDup g.*1) as Hnd.
  { eapply submseteq_NoDup; [by apply fmap_submseteq|]. apply enumerate_NoDup_fst. }
  assert (1 < length g) as Hlen.
  { by apply (proj1 (Forall_forall _ _) (greedy_groups_large scorer numbered)). }
  destruct g as [|[i a] members]; [simpl in Hlen; lia|].
  exists a, members.*2. split; [done|]. split.
  - apply Forall_fmap, Forall_forall. intros [j b] Hb. simpl. intros ->.
    simpl in Hnd. apply NoDup_cons in Hnd as [Hi _]. apply Hi.
    assert ((i, a) ∈ numbered) as [_ Ha]%enumerate_elem
      by (eapply elem_of_submseteq; [left|done]).
    assert ((j, a) ∈ numbered) as [_ Hb']%enumerate_elem
      by (eapply elem_of_submseteq; [by right|done]).
    rewrite Nat.sub_0_r in Ha, Hb'.
    rewrite (distinct_objects contacts i j a a objects_distinct Ha Hb') by done.
    by apply (list_elem_of_fmap_2 fst) in Hb.
  - apply Forall_fmap, Forall_forall. intros [j b] Hb. simpl.
    assert ((j, b) ∈ numbered) as [_ Hb']%enumerate_elem
      by (eapply elem_of_submseteq; done).
    rewrite Nat.sub_0_r in Hb'. by eapply list_elem_of_lookup_2.
Qed.

End Idempotence.

Lemma find_duplicates_fuzzy `{Platform} (contacts : list Contact) (thr : Z) :
  FUZZYWUZZY_AVAILABLE = true ->
  find_duplicates contacts thr =
  forget_positions
    (with_keys "group_" 0
       (greedy (fun c1 c2 => _are_duplicates c1 c2 thr) (enumerate 0 contacts))).
Proof. intros Hfuzzy. unfold find_duplicates. by rewrite find_duplicates_at_fuzzy. Qed.

(** C7, as stated, fails: the chain a, b, c gives the group of a and b,
    whose survivor is b, the richer record; a is deleted, and a second run
    over b and c, which share an address, finds them as a group. *)
Lemma idempotence_counterexample :
  @remove_duplicates Sample.fuzzy false Sample.chain_server =
    (Some (2, 1),
     {| contacts_online := true; calendars_online := true;
        addressbook := [Sample.b; Sample.c]; calendars := [];
        protected := ∅; calls := [CallDelete 1] |}) /\
  @find_duplicates Sample.fuzzy [Sample.b; Sample.c] 85 =
    [("group_0", [Sample.b; Sample.c])] /\
  @find_duplicates Sample.degraded [Sample.b; Sample.c] 85 =
    [("group_0", [Sample.b; Sample.c])].
Proof. repeat split; vm_compute; reflexivity. Qed.

(** C7, amended.  With the fuzzy library available, on a server whose
    contacts are distinct remote objects none of which refuses deletion:
    if in every group the elected survivor is the group's anchor (its
    first member), then [remove_duplicates] returns normally and a second
    [find_duplicates] over the remaining contacts yields no group. *)
Theorem idempotent_when_anchors_survive `{Platform} (st : Remote) :
  FUZZYWUZZY_AVAILABLE = true ->
  NoDup (List.map vcard_object (addressbook st)) ->
  Forall (fun c => vcard_object c ∉ protected st) (addressbook st) ->
  Forall (fun g => choose_best_contact g = head g)
    (dict_values (find_duplicates (addressbook st) default_similarity_threshold)) ->
  exists found deleted st',
    remove_duplicates false st = (Some (found, deleted), st') /\
    find_duplicates (get_all_contacts st') default_similarity_threshold = [].
Proof.
  intros Hfuzzy Hnd Hfree Hbest.
  unfold remove_duplicates, get_all_contacts.
  set (thr := default_similarity_threshold) in *.
  remember (addressbook st) as contacts eqn:Hcontacts.
  destruct contacts as [|c0 cs].
  { exists 0, 0, st. split; [done|]. rewrite <- Hcontacts.
    by rewrite find_duplicates_fuzzy. }
  set (contacts := c0 :: cs) in *.
  pose proof (find_duplicates_fuzzy contacts thr Hfuzzy) as Hgroups.
  set (scorer := fun c1 c2 => _are_duplicates c1 c2 thr) in *.
  set (G := greedy scorer (enumerate 0 contacts)) in *.
  assert (dict_values (find_duplicates contacts thr) = List.map (fun g => g.*2) G)
    as Hvalues.
  { by rewrite Hgroups, forget_positions_values, with_keys_values. }
  unfold remove_groups.
  destruct (find_duplicates contacts thr) as [|kg groups] eqn:Hfound.
  { exists 0, 0, st. split; [done|]. rewrite <- Hcontacts. exact Hfound. }
  destruct (delete_in_groups_addressbook (kg :: groups) 0 st)
    as (deleted & st' & -> & Hbook).
  - rewrite Hvalues. apply Forall_fmap, Forall_forall. intros g Hg. simpl.
    destruct (members_differ contacts thr Hnd g Hg) as (_ & _ & _ & _ & Hin).
    apply Forall_forall. intros c Hc.
    apply (proj1 (Forall_forall _ _) Hfree).
    by apply (proj1 (Forall_forall _ _) Hin).
  - rewrite Hvalues in Hbest |- *.
    apply Forall_fmap, Forall_forall. intros g Hg. simpl.
    destruct (members_differ contacts thr Hnd g Hg)
      as (anchor & members & Hshape & Hne & _).
    exists anchor, members. split; [done|]. split; [|done].
    apply Forall_fmap in Hbest.
    apply (proj1 (Forall_forall _ _) Hbest) in Hg. simpl in Hg.
    by rewrite Hg, Hshape.
  - eexists _, deleted, st'. split; [done|].
    rewrite Hbook, Hvalues, absorbed_snd, <- Hcontacts.
    change (concat (List.map (drop 1) G)) with (absorbed scorer (enumerate 0 contacts)).
    subst scorer. rewrite (kept_are_anchors contacts thr Hnd).
    rewrite find_duplicates_fuzzy by done.
    by rewrite (anchors_have_no_groups contacts thr).
Qed.

Lemma idempotent_when_anchors_survive_witness :
  exists found deleted st',
    @remove_duplicates Sample.fuzzy false Sample.star_server =
      (Some (found, deleted), st') /\
    @find_duplicates Sample.fuzzy (get_all_contacts st')
      default_similarity_threshold = [].
Proof.
  apply (@idempotent_when_anchors_survive Sample.fuzzy Sample.star_server).
  - reflexivity.
  - vm_compute. apply (bool_decide_unpack (NoDup [2; 1; 3])). vm_compute. exact I.
  - repeat constructor; apply not_elem_of_empty.
  - vm_compute. repeat constructor.
Defined.

(** With the richest record first, the one group is anchored on the
    survivor and the second run finds nothing. *)
Example idempotence_star :
  @remove_duplicates Sample.fuzzy false Sample.star_server =
    (Some (3, 2),
     {| contacts_online := true; calendars_online := true;
        addressbook := [Sample.b]; calendars := [];
        protected := ∅; calls := [CallDelete 1; CallDelete 3] |}) /\
  @find_duplicates Sample.fuzzy [Sample.b] 85 = [].
Proof. split; vm_compute; reflexivity. Qed.

(** * Further properties of the code *)

(** ** The shape of the groups *)

Section Star_groups.
Context {R : Type}.
Variable are_duplicates : R -> R -> bool.

(** Every group of the greedy clustering is an anchor followed by one or
    more records the scorer pairs with that anchor. *)
Lemma greedy_star (l : list (nat * R)) :
  Forall
    (fun g => exists anchor members,
       g = anchor :: members /\ members <> [] /\
       Forall (fun m => are_duplicates anchor.2 m.2 = true) members)
    (greedy are_duplicates l).
Proof.
  induction l as [|i record1 rest IH] using (greedy_ind are_duplicates); [constructor|].
  rewrite greedy_cons. apply Forall_app. split; [|done].
  destruct (1 <? _) eqn:Hlen; [|constructor]. constructor; [|constructor].
  exists (i, record1), (filter (joins are_duplicates record1) rest). split; [done|].
  split.
  - apply Nat.ltb_lt in Hlen. intros Hnil. rewrite Hnil in Hlen. simpl in Hlen. lia.
  - apply Forall_forall. intros m [Hm _]%list_elem_of_filter. simpl.
    unfold joins in Hm. by destruct (are_duplicates record1 m.2).
Qed.

(** No group at all exactly when no record is paired with a later one. *)
Lemma greedy_nil_iff (l : list (nat * R)) :
  greedy are_duplicates l = [] <->
  StronglySorted (fun x y => are_duplicates x.2 y.2 = false) l.
Proof.
  split; [|apply greedy_no_pairs].
  induction l as [|i record1 rest IH] using (greedy_ind are_duplicates); [constructor|].
  rewrite greedy_cons. intros Hnil. apply app_eq_nil in Hnil as [Hgroup Hrest].
  assert (filter (joins are_duplicates record1) rest = []) as Hmembers.
  { destruct (filter (joins are_duplicates record1) rest); [done|]. discriminate. }
  assert (Forall (fun y => are_duplicates record1 y.2 = false) rest) as Hhead.
  { apply Forall_forall. intros y Hy.
    destruct (are_duplicates record1 y.2) eqn:Hdup; [|done].
    destruct (filter_nil_not_elem_of (joins are_duplicates record1) rest y);
      [exact Hmembers|by apply joins_true|exact Hy]. }
  assert (filter (fun jr => ~ joins are_duplicates record1 jr) rest = rest) as Hothers.
  { apply filter_all. eapply Forall_impl; [exact Hhead|].
    intros y Hy. by apply joins_false. }
  rewrite Hothers in *. constructor; [by apply IH|done].
Qed.

End Star_groups.

Lemma with_keys_nil_iff {G} prefix n (gs : list G) :
  with_keys prefix n gs = [] <-> gs = [].
Proof. by destruct gs. Qed.

Lemma forget_positions_nil_iff {R} (groups : dict (list (nat * R))) :
  forget_positions groups = [] <-> groups = [].
Proof. by destruct groups. Qed.

Lemma StronglySorted_lookup {A} (P : A -> A -> Prop) (l : list A) :
  StronglySorted P l <->
  forall i j x y, i < j -> l !! i = Some x -> l !! j = Some y -> P x y.
Proof.
  split.
  - induction 1 as [|a l Hl IH Ha]; intros i j x y Hij Hi Hj.
    + by rewrite lookup_nil in Hi.
    + destruct j as [|j]; [lia|]. simpl in Hj. destruct i as [|i].
      * simpl in Hi. injection Hi as ->.
        eapply (proj1 (Forall_forall _ _) Ha), list_elem_of_lookup_2, Hj.
      * simpl in Hi. apply (IH i j); [lia|done..].
  - induction l as [|a l IH]; intros Hall; constructor.
    + apply IH. intros i j x y Hij Hi Hj. apply (Hall (S i) (S j)); [lia|done..].
    + apply Forall_forall. intros y [j Hj]%list_elem_of_lookup.
      by apply (Hall 0 (S j)); [lia|..].
Qed.

Lemma StronglySorted_enumerate_iff {A} (P : A -> A -> Prop) (l : list A) j :
  StronglySorted (fun x y => P x.2 y.2) (enumerate j l) <-> StronglySorted P l.
Proof.
  split; [|apply StronglySorted_enumerate].
  intros Hs. apply StronglySorted_snd in Hs. by rewrite enumerate_snd in Hs.
Qed.

(** X1. With the fuzzy library available, [find_duplicates] reports no
    group exactly when no contact is judged a duplicate of a later one. *)
Theorem find_duplicates_nothing_iff `{Platform} (contacts : list Contact) (thr : Z) :
  FUZZYWUZZY_AVAILABLE = true ->
  (find_duplicates contacts thr = [] <->
   forall i j c1 c2, i < j -> contacts !! i = Some c1 -> contacts !! j = Some c2 ->
     _are_duplicates c1 c2 thr = false).
Proof.
  intros Hfuzzy. rewrite find_duplicates_fuzzy by done.
  rewrite forget_positions_nil_iff, with_keys_nil_iff, greedy_nil_iff.
  rewrite (StronglySorted_enumerate_iff (fun c1 c2 => _are_duplicates c1 c2 thr = false)).
  apply StronglySorted_lookup.
Qed.

Lemma find_duplicates_nothing_iff_witness :
  @find_duplicates Sample.fuzzy [Sample.a; Sample.c] 85 = [] <->
  forall i j c1 c2, i < j -> [Sample.a; Sample.c] !! i = Some c1 ->
    [Sample.a; Sample.c] !! j = Some c2 ->
    @_are_duplicates Sample.fuzzy c1 c2 85 = false.
Proof.
  apply (@find_duplicates_nothing_iff Sample.fuzzy [Sample.a; Sample.c] 85).
  reflexivity.
Defined.

Lemma forget_positions_star {R} (are_duplicates : R -> R -> bool) prefix n
    (groups : list (list (nat * R))) :
  Forall
    (fun g => exists anchor members,
       g = anchor :: members /\ members <> [] /\
       Forall (fun m => are_duplicates anchor.2 m.2 = true) members) groups ->
  Forall
    (fun g => exists anchor members,
       g = anchor :: members /\ members <> [] /\
       Forall (fun m => are_duplicates anchor m = true) members)
    (dict_values (forget_positions (with_keys prefix n groups))).
Proof.
  rewrite forget_positions_values, with_keys_values. intros Hg.
  apply Forall_fmap. eapply Forall_impl; [exact Hg|].
  intros g (anchor & members & -> & Hne & Hm). exists anchor.2, members.*2.
  split; [done|]. split; [by destruct members|].
  apply Forall_fmap. eapply Forall_impl; [exact Hm|]. done.
Qed.

(** X2. With the fuzzy library available, every group [find_duplicates]
    returns is an anchor followed by one or more contacts, each judged a
    duplicate of that anchor. *)
Theorem find_duplicates_star `{Platform} (contacts : list Contact) (thr : Z) :
  FUZZYWUZZY_AVAILABLE = true ->
  Forall
    (fun g => exists anchor members,
       g = anchor :: members /\ members <> [] /\
       Forall (fun m => _are_duplicates anchor m thr = true) members)
    (dict_values (find_duplicates contacts thr)).
Proof.
  intros Hfuzzy. rewrite find_duplicates_fuzzy by done.
  apply (forget_positions_star (fun c1 c2 => _are_duplicates c1 c2 thr)).
  exact (greedy_star (fun c1 c2 => _are_duplicates c1 c2 thr) (enumerate 0 contacts)).
Qed.

Lemma find_duplicates_star_witness :
  Forall
    (fun g => exists anchor members,
       g = anchor :: members /\ members <> [] /\
       Forall (fun m => @_are_duplicates Sample.fuzzy anchor m 85 = true) members)
    (dict_values (@find_duplicates Sample.fuzzy [Sample.a; Sample.b; Sample.c] 85)).
Proof.
  apply (@find_duplicates_star Sample.fuzzy [Sample.a; Sample.b; Sample.c] 85).
  reflexivity.
Defined.

(** ** Duplicate events *)

Lemma find_event_duplicates_greedy `{Platform} (events : list Event) (thr : Z) :
  find_event_duplicates events thr =
  forget_positions
    (with_keys "event_group_" 0
       (greedy (fun e1 e2 => _are_events_duplicates e1 e2 thr) (enumerate 0 events))).
Proof.
  unfold find_event_duplicates, find_event_duplicates_at.
  by rewrite clustering_loop_greedy.
Qed.

(** X3. The groups [find_event_duplicates] returns have distinct keys and
    at least two members each, every member being the input event at its
    position, and no input position occurs twice among all groups. *)
Theorem find_event_duplicates_partition `{Platform} (events : list Event) (thr : Z) :
  let groups := find_event_duplicates_at events thr in
  find_event_duplicates events thr = forget_positions groups /\
  NoDup (dict_keys groups) /\
  Forall (fun g => 1 < length g /\ at_positions events g) (dict_values groups) /\
  NoDup (positions groups).
Proof. cbv zeta. split; [done|]. apply clustering_loop_partition. Qed.

(** Two events are duplicates only if both have a title and a start date
    and the dates agree on their first ten characters. *)
Lemma _are_events_duplicates_dated `{Platform} (event1 event2 : Event) (thr : Z) :
  _are_events_duplicates event1 event2 thr = true ->
  date_truthy (start_date event1) = true /\
  date_truthy (start_date event2) = true /\
  date_prefix (start_date event1) = date_prefix (start_date event2).
Proof.
  unfold _are_events_duplicates.
  destruct (Py.truthy _ && Py.truthy _); [|done].
  destruct (String.eqb (str_lower _) (str_lower _)).
  - destruct (date_truthy (start_date event1)), (date_truthy (start_date event2));
      simpl; try done.
    destruct (String.eqb_spec (date_prefix (start_date event1))
                (date_prefix (start_date event2))); done.
  - destruct (FUZZYWUZZY_AVAILABLE && _ && _); [|done].
    destruct (_ <=? _)%Z; [|done].
    destruct (date_truthy (start_date event1)), (date_truthy (start_date event2));
      simpl; try done.
    destruct (String.eqb_spec (date_prefix (start_date event1))
                (date_prefix (start_date event2))); done.
Qed.

(** X4. Every group of duplicate events consists of dated events of one
    day: every member has a start date, and the first ten characters of
    its text are those of the anchor's.  An event without a start date is
    in no group. *)
Theorem event_groups_same_day `{Platform} (events : list Event) (thr : Z) :
  Forall
    (fun g =>
       Forall (fun e => date_truthy (start_date e) = true) g /\
       exists anchor members,
         g = anchor :: members /\
         Forall (fun e => date_prefix (start_date e) = date_prefix (start_date anchor))
           members)
    (dict_values (find_event_duplicates events thr)).
Proof.
  rewrite find_event_duplicates_greedy.
  set (scorer := fun e1 e2 => _are_events_duplicates e1 e2 thr).
  eapply Forall_impl;
    [exact (forget_positions_star scorer "event_group_" 0 _
              (greedy_star scorer (enumerate 0 events)))|].
  intros g (anchor & members & -> & Hne & Hm).
  assert (Forall (fun e => date_truthy (start_date anchor) = true /\
                           date_truthy (start_date e) = true /\
                           date_prefix (start_date e) = date_prefix (start_date anchor))
            members) as Hdated.
  { eapply Forall_impl; [exact Hm|]. intros e He.
    apply _are_events_duplicates_dated in He as (? & ? & ?). done. }
  split.
  - constructor.
    + destruct members as [|m members]; [done|].
      by apply Forall_cons in Hdated as [(? & _) _].
    + eapply Forall_impl; [exact Hdated|]. by intros e (_ & ? & _).
  - exists anchor, members. split; [done|].
    eapply Forall_impl; [exact Hdated|]. by intros e (_ & _ & ?).
Qed.

(** ** The scorer of contacts *)

Lemma sets_intersect_sym (xs ys : list string) :
  sets_intersect xs ys = sets_intersect ys xs.
Proof.
  apply eq_true_iff_eq. unfold sets_intersect.
  rewrite !existsb_exists. split.
  - intros (x & Hx & (y & Hy & E)%existsb_exists).
    apply String.eqb_eq in E as ->. exists y. split; [done|].
    apply existsb_exists. exists y. split; [done|]. apply String.eqb_refl.
  - intros (y & Hy & (x & Hx & E)%existsb_exists).
    apply String.eqb_eq in E as ->. exists x. split; [done|].
    apply existsb_exists. exists x. split; [done|]. apply String.eqb_refl.
Qed.

(** X5. When the similarity ratio of the fuzzy library is symmetric, so is
    the judgement of [_are_duplicates]: the order of the two contacts does
    not matter. *)
Theorem _are_duplicates_sym `{Platform} (contact1 contact2 : Contact) (thr : Z) :
  (forall s t, fuzz_ratio s t = fuzz_ratio t s) ->
  _are_duplicates contact1 contact2 thr = _are_duplicates contact2 contact1 thr.
Proof.
  intros Hsym. unfold _are_duplicates.
  rewrite (sets_intersect_sym (emails contact2)), (sets_intersect_sym (phones contact2)).
  rewrite (andb_comm (Py.truthy (str_strip (Py.get_default (full_name contact2) "")))).
  by rewrite (Hsym (str_lower (str_strip (Py.get_default (full_name contact2) "")))).
Qed.

Lemma _are_duplicates_sym_witness :
  @_are_duplicates Sample.fuzzy Sample.a Sample.b 85 =
  @_are_duplicates Sample.fuzzy Sample.b Sample.a 85.
Proof.
  apply (@_are_duplicates_sym Sample.fuzzy Sample.a Sample.b 85).
  intros s t. simpl. unfold Ascii_platform.ratio. by rewrite String.eqb_sym.
Defined.

(** X6. Lowering the threshold never loses a pair: two contacts judged
    duplicates at a threshold are judged duplicates at every lower one. *)
Theorem _are_duplicates_monotone `{Platform} (contact1 contact2 : Contact)
    (low high : Z) :
  (low <= high)%Z ->
  _are_duplicates contact1 contact2 high = true ->
  _are_duplicates contact1 contact2 low = true.
Proof.
  intros Hle. unfold _are_duplicates.
  destruct (sets_intersect (emails contact1) (emails contact2)); [done|].
  destruct (sets_intersect (phones contact1) (phones contact2)); [done|].
  destruct (Py.truthy _ && Py.truthy _); [|done].
  destruct (Z.leb_spec high (fuzz_ratio (str_lower (str_strip
              (Py.get_default (full_name contact1) "")))
              (str_lower (str_strip (Py.get_default (full_name contact2) ""))))); [|done].
  intros _. destruct (Z.leb_spec low (fuzz_ratio (str_lower (str_strip
              (Py.get_default (full_name contact1) "")))
              (str_lower (str_strip (Py.get_default (full_name contact2) ""))))); [done|lia].
Qed.

Lemma _are_duplicates_monotone_witness :
  @_are_duplicates Sample.fuzzy
    (Sample.contact 1 (Some "Ann") [] []) (Sample.contact 2 (Some "ann ") [] []) 40 = true.
Proof.
  apply (@_are_duplicates_monotone Sample.fuzzy
           (Sample.contact 1 (Some "Ann") [] []) (Sample.contact 2 (Some "ann ") [] [])
           40 85); [lia|reflexivity].
Defined.

(** ** The four lists of a reconciliation *)

Lemma List_filter_partition {A} (f : A -> bool) (l : list A) :
  List.filter f l ++ List.filter (fun x => negb (f x)) l ≡ₚ l.
Proof.
  induction l as [|x l IH]; simpl; [done|].
  destruct (f x); simpl.
  - by constructor.
  - rewrite <- Permutation_middle. by constructor.
Qed.

Lemma List_filter_sublist {A} (f : A -> bool) (l : list A) :
  List.filter f l `sublist_of` l.
Proof.
  induction l as [|x l IH]; simpl; [constructor|].
  destruct (f x); by constructor.
Qed.

Lemma List_filter_and {A} (f g : A -> bool) (l : list A) :
  List.filter (fun x => f x && g x) l = List.filter g (List.filter f l).
Proof. by rewrite List_filter_filter. Qed.

(** X7. [_match_birthdays_and_events] sorts every event into exactly one
    of its three event lists: the matched, orphan and non-birthday events
    together are a rearrangement of the input events, each list keeps the
    input order, and the missing birthdays are entries of the input, in
    order. *)
Theorem reconciliation_partition `{Platform}
    (contacts_with_birthdays : list (string * string)) (events : list Event) :
  let '(matched_events, orphan_birthday_events, non_birthday_events,
        missing_birthdays) :=
    _match_birthdays_and_events contacts_with_birthdays events in
  matched_events ++ orphan_birthday_events ++ non_birthday_events ≡ₚ events /\
  matched_events `sublist_of` events /\
  orphan_birthday_events `sublist_of` events /\
  non_birthday_events `sublist_of` events /\
  missing_birthdays `sublist_of` contacts_with_birthdays.
Proof.
  unfold _match_birthdays_and_events. rewrite classify_events_spec.
  cbn [app]. repeat split; try apply List_filter_sublist.
  set (found := fun e => find_match (candidate_name e) (start_date e)
                          (contacts_dict_of contacts_with_birthdays)).
  rewrite (List_filter_and birthday_typed found).
  rewrite (List_filter_and birthday_typed (fun e => negb (found e))).
  rewrite app_assoc, List_filter_partition. apply List_filter_partition.
Qed.

Lemma dict_set_elem {V} (k : string) (v : V) (d : dict V) k' v' :
  (k', v') ∈ dict_set k v d -> (k', v') ∈ d \/ (k' = k /\ v' = v).
Proof.
  induction d as [|[k0 v0] d IH]; simpl.
  - intros E%list_elem_of_singleton. injection E as -> ->. by right.
  - destruct (String.eqb_spec k0 k) as [->|Hne].
    + intros [E|Hin]%elem_of_cons; [right; by injection E|left; by right].
    + intros [E|Hin]%elem_of_cons; [left; rewrite E; left|].
      destruct (IH Hin) as [?|?]; [left; by right|by right].
Qed.

(** Every item of the dictionary of contacts comes from an entry, under
    the lower-cased name of that entry. *)
Lemma contacts_dict_of_elem `{Platform} (entries : list (string * string)) k name date :
  (k, (name, date)) ∈ contacts_dict_of entries ->
  k = str_lower name /\ (name, date) ∈ entries.
Proof.
  unfold contacts_dict_of.
  assert (forall l (d : dict (string * string)),
            (k, (name, date)) ∈
              fold_left (fun d nd => dict_set (str_lower nd.1) (nd.1, nd.2) d) l d ->
            (k, (name, date)) ∈ d \/ (k = str_lower name /\ (name, date) ∈ l)) as Hgen.
  { induction l as [|[n dt] l IH]; intros d Hin; simpl in Hin; [by left|].
    destruct (IH _ Hin) as [Hd|[-> Hl]]; [|right; split; [done|by right]].
    apply dict_set_elem in Hd as [Hd|[-> E]]; [by left|].
    simpl in E. injection E as -> ->. right. split; [done|left]. }
  intros Hin. destruct (Hgen _ _ Hin) as [Hnil|?]; [|done].
  by apply elem_of_nil in Hnil.
Qed.

Lemma find_match_elem `{Platform} (candidate : string) (event_date : option DateValue)
    (items : dict (string * string)) :
  find_match candidate event_date items = true ->
  exists k name date,
    (k, (name, date)) ∈ items /\ name_matches candidate k = true /\
    (Py.truthy (_format_date_for_comparison event_date) = true ->
     _format_date_for_comparison event_date = date).
Proof.
  induction items as [|[k [name date]] items IH]; simpl; [done|].
  destruct (name_matches candidate k) eqn:Hname.
  - destruct (Py.truthy (_format_date_for_comparison event_date)) eqn:Htruthy; simpl.
    + destruct (String.eqb_spec (_format_date_for_comparison event_date) date) as [E|_].
      * intros _. exists k, name, date. split; [left|done].
      * intros (k' & n' & d' & Hin & ?)%IH. exists k', n', d'. split; [by right|done].
    + intros _. exists k, name, date. split; [left|]. split; [done|]. done.
  - intros (k' & n' & d' & Hin & ?)%IH. exists k', n', d'. split; [by right|done].
Qed.

Lemma month_day_truthy (month day : nat) :
  Py.truthy (zero_pad 2 month +:+ "-" +:+ zero_pad 2 day) = true.
Proof. by destruct (zero_pad 2 month). Qed.

(** X8. An event whose start is a date or a date and time is matched only
    if some birthday entry has a matching name and exactly the event's
    month and day, written MM-DD: for a dated event a matching name alone
    never suffices. *)
Theorem dated_event_needs_same_day `{Platform}
    (contacts_with_birthdays : list (string * string)) (events : list Event)
    (event : Event) (year month day : nat) (time : string) :
  start_date event = Some (PyDate year month day) \/
  start_date event = Some (PyDateTime year month day time) ->
  event ∈ (_match_birthdays_and_events contacts_with_birthdays events).1.1.1 ->
  exists name,
    (name, zero_pad 2 month +:+ "-" +:+ zero_pad 2 day) ∈ contacts_with_birthdays /\
    name_matches (candidate_name event) (str_lower name) = true.
Proof.
  intros Hdate. unfold _match_birthdays_and_events.
  rewrite classify_events_spec. cbn [fst snd app].
  intros Hin. apply list_elem_of_In, filter_In in Hin as [_ Hin].
  apply andb_true_iff in Hin as [_ Hfound].
  apply find_match_elem in Hfound as (k & name & date & Hitem & Hname & Hsame).
  apply contacts_dict_of_elem in Hitem as [-> Hentry].
  exists name. split; [|done].
  assert (_format_date_for_comparison (start_date event) =
          zero_pad 2 month +:+ "-" +:+ zero_pad 2 day) as Hformat.
  { by destruct Hdate as [-> | ->]. }
  rewrite Hformat in Hsame. by rewrite (Hsame (month_day_truthy month day)).
Qed.

Lemma dated_event_needs_same_day_witness :
  exists name,
    (name, zero_pad 2 5 +:+ "-" +:+ zero_pad 2 12) ∈ Sample.entries /\
    @name_matches Sample.fuzzy (@candidate_name Sample.fuzzy Sample.jean_event)
      (Ascii_platform.lower name) = true.
Proof.
  apply (@dated_event_needs_same_day Sample.fuzzy Sample.entries
           [Sample.jean_event; Sample.meeting] Sample.jean_event 2024 5 12 "").
  - left. reflexivity.
  - vm_compute. left.
Defined.

(** ** What a run asks of the server *)

Lemma dav_delete_spec (object : nat) (st : Remote) :
  (dav_delete object st).1 = bool_decide (object ∉ protected st) /\
  calls (dav_delete object st).2 = calls st ++ [CallDelete object] /\
  protected (dav_delete object st).2 = protected st /\
  addressbook (dav_delete object st).2 =
    List.filter (kept (if bool_decide (object ∉ protected st) then [object] else []))
      (addressbook st).
Proof.
  unfold dav_delete. destruct (decide (object ∈ protected st)) as [Hin|Hout]; simpl.
  - rewrite bool_decide_eq_false_2 by (by intros []). by rewrite kept_nil.
  - rewrite bool_decide_eq_true_2 by done. repeat split.
    apply filter_ext. intros c. unfold kept. simpl. by rewrite andb_true_r.
Qed.

Lemma delete_others_spec (best : Contact) (duplicates : list Contact)
    (deleted_count : nat) (st : Remote) :
  let plan := List.filter (fun c => bool_decide (c <> best)) duplicates in
  let result := delete_others delete_contact best duplicates deleted_count st in
  result.1 = deleted_count + length (deletable st plan) /\
  calls result.2 = calls st ++ List.map (fun c => CallDelete (vcard_object c)) plan /\
  protected result.2 = protected st /\
  addressbook result.2 =
    List.filter (kept (List.map vcard_object (deletable st plan))) (addressbook st).
Proof.
  cbv zeta. revert deleted_count st.
  induction duplicates as [|c duplicates IH]; intros deleted_count st; simpl.
  - rewrite kept_nil, app_nil_r. repeat split. lia.
  - destruct (bool_decide (c <> best)); simpl; [|apply IH].
    change (delete_contact c st) with (dav_delete (vcard_object c) st).
    destruct (dav_delete_spec (vcard_object c) st) as (Hok & Hcalls & Hprot & Hbook).
    destruct (dav_delete (vcard_object c) st) as [ok st1]. simpl in *.
    destruct (IH (if ok then deleted_count + 1 else deleted_count) st1)
      as (Hcount' & Hcalls' & Hprot' & Hbook').
    unfold deletable in *. rewrite Hprot in *.
    rewrite Hcount', Hcalls', Hprot', Hbook', Hcalls, Hbook.
    subst ok. destruct (bool_decide (vcard_object c ∉ protected st)); simpl.
    + split; [lia|]. split; [by rewrite <- app_assoc|]. split; [done|].
      rewrite List_filter_filter.
      apply filter_ext. intros x. unfold kept. simpl. by rewrite andb_true_r.
    + split; [done|]. split; [by rewrite <- app_assoc|]. split; [done|].
      by rewrite kept_nil.
Qed.

Lemma delete_in_groups_spec (groups : dict (list Contact)) (deleted_count : nat)
    (st : Remote) :
  Forall (fun g => g <> []) (dict_values groups) ->
  let plan := deletion_plan groups in
  exists st',
    delete_in_groups choose_best_contact delete_contact groups deleted_count st =
      (Some (deleted_count + length (deletable st plan)), st') /\
    calls st' = calls st ++ List.map (fun c => CallDelete (vcard_object c)) plan /\
    protected st' = protected st /\
    addressbook st' =
      List.filter (kept (List.map vcard_object (deletable st plan))) (addressbook st).
Proof.
  cbv zeta. revert deleted_count st.
  induction groups as [|[key g] groups IH]; intros deleted_count st Hne.
  - exists st. simpl. rewrite kept_nil, app_nil_r, Nat.add_0_r. done.
  - change (dict_values ((key, g) :: groups)) with (g :: dict_values groups) in Hne.
    apply Forall_cons in Hne as [Hg Hne].
    destruct (choose_best_contact_some g Hg) as [best Hbest].
    unfold deletion_plan.
    change (dict_values ((key, g) :: groups)) with (g :: dict_values groups).
    cbn [delete_in_groups List.map concat]. rewrite Hbest.
    fold (deletion_plan groups).
    destruct (delete_others_spec best g deleted_count st)
      as (Hcount & Hcalls & Hprot & Hbook).
    destruct (delete_others delete_contact best g deleted_count st) as [count1 st1].
    cbn [fst snd] in *.
    destruct (IH count1 st1 Hne) as (st' & -> & Hcalls' & Hprot' & Hbook').
    exists st'. unfold deletable in *. rewrite Hprot in *.
    rewrite Hcalls', Hprot', Hbook', Hcalls, Hbook, Hcount.
    rewrite !List.filter_app, !List.map_app, !length_app.
    split; [do 2 f_equal; lia|]. split; [by rewrite <- app_assoc|]. split; [done|].
    rewrite List_filter_filter.
    apply filter_ext. intros x. by rewrite kept_app.
Qed.

Lemma find_duplicates_empty `{Platform} (thr : Z) : find_duplicates [] thr = [].
Proof.
  unfold find_duplicates, find_duplicates_at.
  by destruct (negb FUZZYWUZZY_AVAILABLE).
Qed.

(** X9. A run of [remove_duplicates] that is not dry asks the server to
    delete exactly the members of the groups other than the elected
    survivors, in the order of the groups, and nothing else; it returns
    the number of grouped contacts and the number of deletions the server
    accepted; and the address book afterwards is the former one without
    the contacts whose deletion was accepted.  A refused deletion is only
    left out of the count. *)
Theorem remove_duplicates_journal `{Platform} (st : Remote) :
  let groups := find_duplicates (get_all_contacts st) default_similarity_threshold in
  let plan := deletion_plan groups in
  exists st',
    remove_duplicates false st =
      (Some (list_sum (List.map (fun g => length g) (dict_values groups)),
             length (deletable st plan)), st') /\
    calls st' = calls st ++ List.map (fun c => CallDelete (vcard_object c)) plan /\
    protected st' = protected st /\
    addressbook st' =
      List.filter (kept (List.map vcard_object (deletable st plan))) (addressbook st).
Proof.
  cbv zeta. unfold remove_duplicates.
  destruct (get_all_contacts st) as [|c0 cs] eqn:Hcontacts.
  { exists st. rewrite find_duplicates_empty. simpl.
    by rewrite kept_nil, app_nil_r. }
  set (groups := find_duplicates (c0 :: cs) default_similarity_threshold).
  pose proof (find_duplicates_nonempty (c0 :: cs) default_similarity_threshold) as Hne.
  fold groups in Hne. unfold remove_groups.
  destruct groups as [|kg groups'] eqn:Hgroups.
  { exists st. simpl. by rewrite kept_nil, app_nil_r. }
  destruct (delete_in_groups_spec (kg :: groups') 0 st Hne)
    as (st' & -> & Hcalls & Hprot & Hbook).
  exists st'. done.
Qed.

(** On a server that refuses to delete contact a, the run still asks for
    it, counts no deletion, and the address book is unchanged. *)
Example remove_duplicates_refused :
  @remove_duplicates Sample.fuzzy false Sample.guarded_server =
  (Some (2, 0),
   {| contacts_online := true; calendars_online := true;
      addressbook := [Sample.a; Sample.b; Sample.c]; calendars := [];
      protected := {[1]}; calls := [CallDelete 1] |}).
Proof. vm_compute. reflexivity. Qed.

Section Removal_returns.
Context {R : Type} `{EqDecision R}.
Variable choose_best : list R -> option R.
Variable delete_record : R -> Remote -> bool * Remote.
Hypothesis choose_best_some : forall g, g <> [] -> is_Some (choose_best g).

Lemma delete_in_groups_some (groups : dict (list R)) (deleted_count : nat)
    (st : Remote) :
  Forall (fun g => g <> []) (dict_values groups) ->
  exists deleted_count' st',
    delete_in_groups choose_best delete_record groups deleted_count st =
    (Some deleted_count', st').
Proof.
  revert deleted_count st.
  induction groups as [|[key g] groups IH]; intros deleted_count st Hne; simpl.
  - by eexists _, _.
  - apply Forall_cons in Hne as [Hg Hne].
    destruct (choose_best_some g Hg) as [best ->].
    destruct (delete_others delete_record best g deleted_count st) as [count1 st1].
    by apply IH.
Qed.

(** Whatever the mode, the removal over non-empty groups returns counts. *)
Lemma remove_groups_some (groups : dict (list R)) (dry_run : bool) (st : Remote) :
  Forall (fun g => g <> []) (dict_values groups) ->
  exists counts st',
    remove_groups choose_best delete_record groups dry_run st = (Some counts, st').
Proof.
  intros Hne. destruct dry_run.
  - destruct (remove_groups_dry_run choose_best delete_record choose_best_some
                groups st Hne) as [found ->]. by eexists _, _.
  - unfold remove_groups. destruct groups as [|kg groups]; [by eexists _, _|].
    destruct (delete_in_groups_some (kg :: groups) 0 st Hne) as (n & st' & ->).
    by eexists _, _.
Qed.

End Removal_returns.

Section Runs.
Context `{Platform} `{Collaborators}.


Lemma remove_duplicates_dry (st : Remote) : (remove_duplicates true st).2 = st.
Proof.
  unfold remove_duplicates. destruct (get_all_contacts st) as [|c cs]; [done|].
  destruct (remove_groups_dry_run choose_best_contact delete_contact
              choose_best_contact_some
              (find_duplicates (c :: cs) default_similarity_threshold) st
              (find_duplicates_nonempty _ _)) as [found ->].
  done.
Qed.

(** [remove_event_duplicates] raises only when no calendar is known, and
    then the server is as it was. *)
Lemma remove_event_duplicates_cases (calendar : option string) (dry_run : bool)
    (st : Remote) :
  remove_event_duplicates calendar dry_run st = (None, st) \/
  exists counts st',
    remove_event_duplicates calendar dry_run st = (Some counts, st') /\
    (dry_run = true -> st' = st).
Proof.
  unfold remove_event_duplicates.
  destruct (get_all_events calendar st) as [[|e es]|]; [right|right|by left].
  - by eexists _, _.
  - destruct dry_run.
    + destruct (remove_groups_dry_run choose_best_event delete_event
                  choose_best_event_some
                  (find_event_duplicates (e :: es) default_similarity_threshold) st
                  (find_event_duplicates_nonempty _ _)) as [found ->].
      by eexists _, _.
    + destruct (remove_groups_some choose_best_event delete_event
                  choose_best_event_some
                  (find_event_duplicates (e :: es) default_similarity_threshold) false st
                  (find_event_duplicates_nonempty _ _)) as (counts & st' & ->).
      by eexists _, _.
Qed.

Lemma sync_birthday_calendar_cases (calendar_name : string) (dry_run : bool)
    (st : Remote) :
  sync_birthday_calendar calendar_name dry_run st = (None, st) \/
  exists counts st',
    sync_birthday_calendar calendar_name dry_run st = (Some counts, st') /\
    (dry_run = true -> st' = st).
Proof.
  unfold sync_birthday_calendar.
  destruct (_get_contacts_with_birthdays st); [right; by eexists _, _|].
  destruct (get_all_events (Some calendar_name) st) as [[|e es]|];
    [right; by eexists _, _| |by left].
  right. destruct (_match_birthdays_and_events _ _) as [[[matched orphans] others] missing].
  destruct dry_run; [by eexists _, _|].
  destruct (delete_orphans orphans 0 st) as [deleted st1].
  destruct missing as [|m missing]; [by eexists _, _|].
  destruct (get_calendar_by_name st1 calendar_name) as [cal|]; [|by eexists _, _].
  destruct (create_missing cal (m :: missing) 0 st1) as [created st2].
  by eexists _, _.
Qed.

(** X10. Without [--delete] a run in [api] mode changes nothing: whatever
    the other arguments and the state of the server, the server after
    [main] is the server before, journal of requested changes included. *)
Theorem main_default_is_dry_run (args : Args) (st : Remote) :
  delete args = false -> (main args st).2 = st.
Proof.
  intros Hdry. unfold main. rewrite Hdry. change (negb false) with true.
  destruct (negb CALDAV_AVAILABLE); [done|].
  destruct (negb VOBJECT_AVAILABLE); [done|].
  destruct (Py.truthy (Py.get_default (calendar args) "") && is_contacts (type_ args));
    [done|].
  destruct (sync_birthdays args && is_contacts (type_ args)); [done|].
  destruct (type_ args).
  - destruct (negb (contacts_online st)); [done|].
    pose proof (remove_duplicates_dry st) as Hst.
    by destruct (remove_duplicates true st) as [[[found deleted]|] st'].
  - destruct (negb (calendars_online st)); [done|].
    destruct (sync_birthdays args).
    + destruct (negb (contacts_online st)); [done|].
      match goal with
      | |- context [sync_birthday_calendar ?name true st] =>
          destruct (sync_birthday_calendar_cases name true st)
            as [-> | ([[o d] c] & st' & -> & Hst)]; [done|by rewrite Hst]
      end.
    + destruct (remove_event_duplicates_cases (calendar args) true st)
        as [-> | ([f d] & st' & -> & Hst)]; [done|by rewrite Hst].
Qed.


End Runs.

Lemma main_default_is_dry_run_witness :
  (@main Sample.fuzzy Sample.collaborators (Sample.sync_args false)
     Sample.birthday_server).2 = Sample.birthday_server.
Proof.
  apply (@main_default_is_dry_run Sample.fuzzy Sample.collaborators
           (Sample.sync_args false) Sample.birthday_server).
  reflexivity.
Defined.


(** ** What a synchronisation deletes *)

Section Synchronisation.
Context `{Platform} `{Collaborators}.


Lemma dav_add_event_calls (cal : Calendar) (ical_content : string) (st : Remote) :
  calls (dav_add_event cal ical_content st).2 =
  calls st ++ [CallAddEvent (cal_name cal) ical_content].
Proof. unfold dav_add_event. by destruct (cal_readonly cal). Qed.



End Synchronisation.


(** The synchronisation of the sample server: the stranger's birthday is
    deleted, the meeting and the matched birthday stay, and an event is
    created for the contact that had none. *)
Example sync_sample :
  (@sync_birthday_calendar Sample.fuzzy Sample.collaborators "Anniversaire" false
     Sample.birthday_server).1 = Some (1, 1, 1) /\
  calls (@sync_birthday_calendar Sample.fuzzy Sample.collaborators "Anniversaire" false
           Sample.birthday_server).2 =
  [CallDelete 12;
   CallAddEvent "Anniversaire" "SUMMARY:Anniversaire de Marie Curie;11-07"].
Proof. split; vm_compute; reflexivity. Qed.

(** ** The vCard file mode *)

Lemma str_app_cons (x : ascii) (a b : string) : String x a +:+ b = String x (a +:+ b).
Proof. reflexivity. Qed.

Lemma str_app_nil_l (b : string) : "" +:+ b = b.
Proof. reflexivity. Qed.

Lemma str_app_assoc (a b c : string) : (a +:+ b) +:+ c = a +:+ (b +:+ c).
Proof.
  induction a as [|x a IH]; [done|]. by rewrite !str_app_cons, IH.
Qed.

Lemma str_length_app (a b : string) :
  String.length (a +:+ b) = String.length a + String.length b.
Proof.
  induction a as [|x a IH]; [done|]. rewrite str_app_cons. simpl. by rewrite IH.
Qed.

Lemma prefix_drop (p s : string) :
  String.prefix p s = true -> s = p +:+ Py.drop (String.length p) s.
Proof.
  revert s. induction p as [|x p IH]; intros s Hp; [done|].
  destruct s as [|y s]; [done|]. simpl in Hp.
  destruct (ascii_dec x y) as [->|]; [|done].
  rewrite str_app_cons. simpl. f_equal. by apply IH.
Qed.

Lemma to_end_vcard_eq (line_start : bool) (s : string) :
  to_end_vcard line_start s =
  if line_start && Py.startswith s "END:VCARD" then Some ("", Py.drop 9 s)
  else
    match s with
    | EmptyString => None
    | String c s' =>
        match to_end_vcard (Ascii.eqb c line_feed) s' with
        | Some (skipped, rest) => Some (String c skipped, rest)
        | None => None
        end
    end.
Proof. by destruct s. Qed.

Lemma to_end_vcard_spec (line_start : bool) (s skipped rest : string) :
  to_end_vcard line_start s = Some (skipped, rest) ->
  s = skipped +:+ "END:VCARD" +:+ rest.
Proof.
  revert line_start skipped. induction s as [|c s IH]; intros line_start skipped.
  - rewrite to_end_vcard_eq. by rewrite andb_false_r.
  - rewrite to_end_vcard_eq.
    destruct (line_start && Py.startswith (String c s) "END:VCARD") eqn:Hhere.
    + intros [= <- <-]. apply andb_true_iff in Hhere as [_ Hprefix].
      by apply prefix_drop in Hprefix.
    + destruct (to_end_vcard (Ascii.eqb c line_feed) s) as [[skipped' rest']|] eqn:Hnext;
        [|done].
      intros [= <- <-]. rewrite str_app_cons. f_equal. by apply IH in Hnext.
Qed.

Lemma line_ends_spec (s : string) : s = (line_ends s).1 +:+ (line_ends s).2.
Proof.
  induction s as [|c s IH]; [done|]. simpl.
  destruct (Ascii.eqb c line_feed || Ascii.eqb c carriage_return); [|done].
  destruct (line_ends s) as [ends rest]. simpl in *.
  rewrite str_app_cons. by f_equal.
Qed.

Lemma rec_search_eq (line_start : bool) (s : string) :
  rec_search line_start s =
  match
    (if line_start && Py.startswith s "BEGIN:VCARD" then
       match to_end_vcard false (Py.drop 11 s) with
       | Some (skipped, rest) =>
           let '(ends, rest') := line_ends rest in
           Some {| before := "";
                   group1 := "BEGIN:VCARD" +:+ skipped +:+ "END:VCARD";
                   group2 := ends; after := rest' |}
       | None => None
       end
     else None)
  with
  | Some m => Some m
  | None =>
      match s with
      | EmptyString => None
      | String c s' =>
          match rec_search (Ascii.eqb c line_feed) s' with
          | Some m =>
              Some {| before := String c (before m); group1 := group1 m;
                      group2 := group2 m; after := after m |}
          | None => None
          end
      end
  end.
Proof. by destruct s. Qed.

(** A match cuts the text in four, and its first group holds at least
    the twenty characters of [BEGIN:VCARD] and [END:VCARD]. *)
Lemma rec_search_spec (line_start : bool) (s : string) (m : Match) :
  rec_search line_start s = Some m ->
  s = before m +:+ group1 m +:+ group2 m +:+ after m /\
  20 <= String.length (group1 m).
Proof.
  revert line_start m. induction s as [|c s IH]; intros line_start m.
  - rewrite rec_search_eq. by rewrite andb_false_r.
  - rewrite rec_search_eq.
    destruct (line_start && Py.startswith (String c s) "BEGIN:VCARD") eqn:Hhere.
    + apply andb_true_iff in Hhere as [_ Hprefix]. apply prefix_drop in Hprefix.
      change (String.length "BEGIN:VCARD") with 11 in Hprefix.
      destruct (to_end_vcard false (Py.drop 11 (String c s)))
        as [[skipped rest]|] eqn:Hend.
      * apply to_end_vcard_spec in Hend.
        pose proof (line_ends_spec rest) as Hrest.
        destruct (line_ends rest) as [ends rest']. simpl in Hrest.
        intros [= <-]. cbn [before group1 group2 after]. split.
        -- rewrite Hprefix at 1. rewrite Hend, Hrest.
           by rewrite str_app_nil_l, !str_app_assoc.
        -- rewrite !str_length_app. simpl. lia.
      * destruct (rec_search (Ascii.eqb c line_feed) s) as [m'|] eqn:Hnext; [|done].
        intros [= <-]. cbn [before group1 group2 after].
        apply IH in Hnext as [Hs ?]. by rewrite str_app_cons, <- Hs.
    + destruct (rec_search (Ascii.eqb c line_feed) s) as [m'|] eqn:Hnext; [|done].
      intros [= <-]. cbn [before group1 group2 after].
      apply IH in Hnext as [Hs ?]. by rewrite str_app_cons, <- Hs.
Qed.

(** The loop ends, drops at least twenty characters for every duplicate
    it counts, and writes all the text when it counts none. *)
Lemma process_loop_spec (fuel : nat) (line_start : bool) (rest : string)
    (unique_contacts : gset string) (written : string) (duplicates_removed : nat) :
  String.length rest < fuel ->
  exists out n,
    process_loop fuel line_start rest unique_contacts written duplicates_removed =
      Processed out n /\
    duplicates_removed <= n /\
    (n = duplicates_removed -> out = written +:+ rest) /\
    String.length out + 20 * (n - duplicates_removed) <=
      String.length written + String.length rest.
Proof.
  revert line_start rest unique_contacts written duplicates_removed.
  induction fuel as [|fuel IH];
    intros line_start rest unique_contacts written duplicates_removed Hfuel; [lia|].
  simpl. destruct (rec_search line_start rest) as [m|] eqn:Hsearch.
  - apply rec_search_spec in Hsearch as [Hrest Hcard].
    assert (String.length rest =
            String.length (before m) + String.length (group1 m) +
            String.length (group2 m) + String.length (after m)) as Hlen.
    { rewrite Hrest at 1. rewrite !str_length_app. lia. }
    destruct (decide (group1 m ∉ unique_contacts)) as [Hnew|Hold].
    + destruct (IH (ends_with_line_feed (group1 m +:+ group2 m)) (after m)
                  (unique_contacts ∪ {[group1 m]})
                  ((written +:+ before m) +:+ group1 m +:+ group2 m)
                  duplicates_removed) as (out & n & -> & Hle & Hcopy & Hshort); [lia|].
      exists out, n. split; [done|]. split; [done|]. split.
      * intros Hn. rewrite (Hcopy Hn). rewrite Hrest at 1.
        by rewrite !str_app_assoc.
      * rewrite !str_length_app in Hshort. lia.
    + destruct (IH (ends_with_line_feed (group1 m +:+ group2 m)) (after m)
                  unique_contacts (written +:+ before m)
                  (duplicates_removed + 1)) as (out & n & -> & Hle & Hcopy & Hshort);
        [lia|].
      exists out, n. split; [done|]. split; [lia|]. split; [lia|].
      rewrite !str_length_app in Hshort. lia.
  - exists (written +:+ rest), duplicates_removed.
    split; [done|]. split; [done|]. split; [done|].
    rewrite str_length_app. lia.
Qed.

(** X13. With the vobject library present, [process_vcf_file] always
    finishes; the text it writes is the text it read exactly when it
    reports no duplicate, and is at least twenty bytes shorter for every
    duplicate it reports. *)
Theorem process_vcf_file_copy `{Platform} (content : string) :
  VOBJECT_AVAILABLE = true ->
  exists written n,
    process_vcf_file content = Processed written n /\
    (n = 0 <-> written = content) /\
    String.length written + 20 * n <= String.length content.
Proof.
  intros Hvobject. unfold process_vcf_file. rewrite Hvobject. cbn [negb].
  destruct (process_loop_spec (S (String.length content)) true content ∅ "" 0)
    as (out & n & Hrun & _ & Hcopy & Hshort); [lia|].
  exists out, n. split; [done|]. rewrite Nat.sub_0_r in Hshort. simpl in Hshort.
  split; [|done]. split.
  - intros ->. by apply Hcopy.
  - intros ->. lia.
Qed.

Lemma process_vcf_file_copy_witness :
  exists written n,
    @process_vcf_file Sample.fuzzy Sample.vcf = Processed written n /\
    (n = 0 <-> written = Sample.vcf) /\
    String.length written + 20 * n <= String.length Sample.vcf.
Proof. apply (@process_vcf_file_copy Sample.fuzzy Sample.vcf). reflexivity. Defined.

Lemma size_list_to_set_le (l : list string) :
  size (list_to_set l : gset string) <= length l.
Proof.
  induction l as [|x l IH]; [done|]. cbn [list_to_set length].
  rewrite size_union_alt, size_singleton.
  assert (size (list_to_set l ∖ {[x]} : gset string) <= size (list_to_set l : gset string)).
  { apply subseteq_size. set_solver. }
  lia.
Qed.

Lemma size_list_to_set_NoDup (l : list string) :
  size (list_to_set l : gset string) = length l <-> NoDup l.
Proof.
  split; [|apply size_list_to_set].
  induction l as [|x l IH]; [constructor|]. cbn [list_to_set length]. intros Hsize.
  pose proof (size_list_to_set_le l) as Hle.
  destruct (decide (x ∈ l)) as [Hin|Hout].
  - assert ({[x]} ∪ list_to_set l = (list_to_set l : gset string)) as Heq by set_solver.
    rewrite Heq in Hsize. lia.
  - constructor; [done|]. apply IH.
    rewrite size_union, size_singleton in Hsize by set_solver. lia.
Qed.

(** The set of the loop holds the cards met so far: the number returned
    counts the cards that were in it when they were met. *)
Lemma process_loop_count (fuel : nat) (line_start : bool) (rest : string)
    (unique_contacts : gset string) (written : string) (duplicates_removed : nat)
    (out : string) (n : nat) :
  process_loop fuel line_start rest unique_contacts written duplicates_removed =
    Processed out n ->
  n + size (unique_contacts ∪ list_to_set (vcards_fuel fuel line_start rest)) =
  duplicates_removed + size unique_contacts +
  length (vcards_fuel fuel line_start rest).
Proof.
  revert line_start rest unique_contacts written duplicates_removed.
  induction fuel as [|fuel IH];
    intros line_start rest unique_contacts written duplicates_removed; [done|].
  simpl. destruct (rec_search line_start rest) as [m|] eqn:Hsearch.
  - destruct (decide (group1 m ∉ unique_contacts)) as [Hnew|Hold].
    + intros Hrun. apply IH in Hrun. cbn [list_to_set length].
      rewrite (assoc_L (∪)). rewrite Hrun.
      rewrite size_union, size_singleton by set_solver. lia.
    + intros Hrun. apply IH in Hrun. cbn [list_to_set length].
      apply dec_stable in Hold.
      assert (unique_contacts ∪
                ({[group1 m]} ∪
                 list_to_set
                   (vcards_fuel fuel (ends_with_line_feed (group1 m +:+ group2 m))
                      (after m))) =
              unique_contacts ∪
                list_to_set
                  (vcards_fuel fuel (ends_with_line_feed (group1 m +:+ group2 m))
                     (after m))) as -> by set_solver.
      lia.
  - intros [= _ <-]. cbn [list_to_set length]. rewrite (right_id_L ∅ (∪)). lia.
Qed.

(** X14. The number [process_vcf_file] returns is the number of vCards of
    the text less the number of distinct ones: it is [0] exactly when no
    two vCards of the text are the same string. *)
Theorem process_vcf_file_count `{Platform} (content written : string) (n : nat) :
  process_vcf_file content = Processed written n ->
  n + size (list_to_set (vcards content) : gset string) = length (vcards content) /\
  (n = 0 <-> NoDup (vcards content)).
Proof.
  unfold process_vcf_file. destruct (negb VOBJECT_AVAILABLE); [done|].
  intros Hrun. apply process_loop_count in Hrun.
  rewrite (left_id_L ∅ (∪)), size_empty in Hrun. fold (vcards content) in Hrun.
  split; [lia|]. rewrite <- size_list_to_set_NoDup. lia.
Qed.

Lemma process_vcf_file_count_witness :
  1 + size (list_to_set (vcards Sample.vcf) : gset string) =
    length (vcards Sample.vcf) /\
  (1 = 0 <-> NoDup (vcards Sample.vcf)).
Proof.
  apply (@process_vcf_file_count Sample.fuzzy Sample.vcf
           (Sample.line (Sample.vcard "Jean Dupont") +:+
            Sample.line (Sample.vcard "Marie Curie") +:+ "X-END")).
  vm_compute. reflexivity.
Defined.

(** ** What the removal of duplicate events asks for *)

Section Deletion_requests.
Context {R : Type} `{EqDecision R}.
Variable choose_best : list R -> option R.
Variable delete_record : R -> Remote -> bool * Remote.
Variable object_of : R -> nat.
Hypothesis delete_record_object :
  forall r st, delete_record r st = dav_delete (object_of r) st.

Lemma delete_others_requests (best : R) (duplicates : list R) (deleted_count : nat)
    (st : Remote) :
  calls (delete_others delete_record best duplicates deleted_count st).2 =
  calls st ++
  List.map (fun r => CallDelete (object_of r))
    (List.filter (fun r => bool_decide (r <> best)) duplicates).
Proof.
  revert deleted_count st.
  induction duplicates as [|r duplicates IH]; intros deleted_count st; simpl.
  - by rewrite app_nil_r.
  - destruct (bool_decide (r <> best)); simpl; [|apply IH].
    rewrite delete_record_object.
    destruct (dav_delete_spec (object_of r) st) as (_ & Hcalls & _).
    destruct (dav_delete (object_of r) st) as [ok st1]. simpl in Hcalls.
    by rewrite IH, Hcalls, <- app_assoc.
Qed.

Lemma delete_in_groups_requests (groups : dict (list R)) (deleted_count : nat)
    (st : Remote) :
  exists requested,
    calls (delete_in_groups choose_best delete_record groups deleted_count st).2 =
      calls st ++ List.map (fun r => CallDelete (object_of r)) requested /\
    forall r, r ∈ requested -> exists g, g ∈ dict_values groups /\ r ∈ g.
Proof.
  revert deleted_count st.
  induction groups as [|[key g] groups IH]; intros deleted_count st.
  - exists []. simpl. by rewrite app_nil_r; split; [|intros r ?%elem_of_nil].
  - cbn [delete_in_groups].
    destruct (choose_best g) as [best|].
    + pose proof (delete_others_requests best g deleted_count st) as Hcalls.
      destruct (delete_others delete_record best g deleted_count st) as [count1 st1].
      cbn [snd] in Hcalls.
      destruct (IH count1 st1) as (requested & Hcalls' & Hfrom).
      exists (List.filter (fun r => bool_decide (r <> best)) g ++ requested). split.
      * by rewrite Hcalls', Hcalls, List.map_app, <- app_assoc.
      * intros r [Hr|Hr]%elem_of_app.
        -- exists g. split; [apply list_elem_of_here|].
           apply list_elem_of_In, filter_In in Hr as [Hr _]. by apply list_elem_of_In.
        -- destruct (Hfrom r Hr) as (g' & Hg' & Hin). exists g'.
           split; [by apply list_elem_of_further|done].
    + exists []. simpl. by rewrite app_nil_r; split; [|intros r ?%elem_of_nil].
Qed.

Lemma remove_groups_requests (groups : dict (list R)) (dry_run : bool) (st : Remote) :
  exists requested,
    calls (remove_groups choose_best delete_record groups dry_run st).2 =
      calls st ++ List.map (fun r => CallDelete (object_of r)) requested /\
    forall r, r ∈ requested -> exists g, g ∈ dict_values groups /\ r ∈ g.
Proof.
  assert (exists requested : list R,
            calls st = calls st ++ List.map (fun r => CallDelete (object_of r)) requested /\
            forall r, r ∈ requested -> exists g, g ∈ dict_values groups /\ r ∈ g)
    as Hnone.
  { exists []. simpl. by rewrite app_nil_r; split; [|intros r ?%elem_of_nil]. }
  unfold remove_groups. destruct groups as [|kg groups]; [done|].
  destruct dry_run.
  - by destruct (dry_run_report choose_best (kg :: groups)).
  - destruct (delete_in_groups_requests (kg :: groups) 0 st)
      as (requested & Hcalls & Hfrom).
    exists requested. split; [|done].
    by destruct (delete_in_groups choose_best delete_record (kg :: groups) 0 st)
      as [[n|] st'].
Qed.

End Deletion_requests.

(** The members of the groups of events are events of the input. *)
Lemma find_event_duplicates_members `{Platform} (events : list Event) (thr : Z)
    (g : list Event) (event : Event) :
  g ∈ dict_values (find_event_duplicates events thr) -> event ∈ g -> event ∈ events.
Proof.
  unfold find_event_duplicates. rewrite forget_positions_values.
  intros (pg & -> & Hpg)%list_elem_of_fmap ([j e] & -> & Hje)%list_elem_of_fmap.
  destruct (clustering_loop_partition
              (fun e1 e2 => _are_events_duplicates e1 e2 thr) "event_group_" events)
    as (_ & Hgroups & _).
  rewrite Forall_forall in Hgroups. destruct (Hgroups pg Hpg) as [_ Hat].
  unfold at_positions in Hat. rewrite Forall_forall in Hat.
  specialize (Hat (j, e) Hje). simpl in *. by eapply list_elem_of_lookup_2.
Qed.

(** X15. With [--calendar NAME], [remove_event_duplicates] asks the server
    for deletions only, and only of events of the calendar that
    [get_calendar_by_name] finds for [NAME]; when no calendar has that
    name it asks for nothing. *)
Theorem remove_event_duplicates_scope `{Platform} (name : string) (dry_run : bool)
    (st : Remote) :
  Py.truthy name = true ->
  exists requested,
    calls (remove_event_duplicates (Some name) dry_run st).2 =
      calls st ++ List.map (fun e => CallDelete (event_object e)) requested /\
    forall event, event ∈ requested ->
      exists c, get_calendar_by_name st name = Some c /\ event ∈ cal_events c.
Proof.
  intros Hname.
  assert (exists requested : list Event,
            calls st =
              calls st ++ List.map (fun e => CallDelete (event_object e)) requested /\
            forall event, event ∈ requested ->
              exists c, get_calendar_by_name st name = Some c /\ event ∈ cal_events c)
    as Hnone.
  { exists []. simpl. by rewrite app_nil_r; split; [|intros r ?%elem_of_nil]. }
  unfold remove_event_duplicates, get_all_events.
  destruct (calendars st) as [|c0 cs] eqn:Hcalendars; [done|].
  cbn [Py.get_default]. rewrite Hname.
  destruct (get_calendar_by_name st name) as [c|] eqn:Hfound; [|done].
  destruct (cal_events c) as [|e es] eqn:Hevents; [done|].
  destruct (remove_groups_requests choose_best_event delete_event event_object
              (fun r st0 => eq_refl)
              (find_event_duplicates (e :: es) default_similarity_threshold)
              dry_run st) as (requested & Hcalls & Hfrom).
  exists requested. split; [done|].
  intros event Hevent. destruct (Hfrom event Hevent) as (g & Hg & Hin).
  exists c. split; [done|]. rewrite Hevents.
  by eapply find_event_duplicates_members.
Qed.

Lemma remove_event_duplicates_scope_witness :
  exists requested,
    calls (@remove_event_duplicates Sample.fuzzy (Some "Anniversaire") false
             Sample.twins_server).2 =
      calls Sample.twins_server ++
      List.map (fun e => CallDelete (event_object e)) requested /\
    forall event, event ∈ requested ->
      exists c, @get_calendar_by_name Sample.fuzzy Sample.twins_server "Anniversaire" =
                  Some c /\ event ∈ cal_events c.
Proof.
  apply (@remove_event_duplicates_scope Sample.fuzzy "Anniversaire" false
           Sample.twins_server).
  reflexivity.
Defined.

(** On the sample server the copy of the birthday kept in the calendar
    [Perso] is out of reach of a run on [Anniversaire]: only the copy in
    [Anniversaire] is deleted. *)
Example remove_event_duplicates_twins :
  calls (@remove_event_duplicates Sample.fuzzy (Some "Anniversaire") false
           Sample.twins_server).2 = [CallDelete 21] /\
  calls (@remove_event_duplicates Sample.fuzzy None false Sample.twins_server).2 =
    [CallDelete 21; CallDelete 22].
Proof. split; vm_compute; reflexivity. Qed.

(** ** What the synchronisation of birthdays asks for *)

Section Synchronisation_journal.
Context `{Platform} `{Collaborators}.

(** A deletion keeps the calendars, their names and their access. *)
Lemma dav_delete_calendars (object : nat) (st : Remote) :
  Forall2 (fun c' c => cal_name c' = cal_name c /\ cal_readonly c' = cal_readonly c)
    (calendars (dav_delete object st).2) (calendars st).
Proof.
  unfold dav_delete. destruct (decide (object ∈ protected st)); simpl.
  - by apply Forall_Forall2_diag, Forall_forall.
  - apply Forall2_fmap_l, Forall_Forall2_diag, Forall_forall. done.
Qed.

Lemma delete_orphans_spec (orphans : list Event) (deleted_count : nat) (st : Remote) :
  let result := delete_orphans orphans deleted_count st in
  result.1 =
    deleted_count +
    length (List.filter (fun e => bool_decide (event_object e ∉ protected st)) orphans) /\
  calls result.2 = calls st ++ List.map (fun e => CallDelete (event_object e)) orphans /\
  Forall2 (fun c' c => cal_name c' = cal_name c /\ cal_readonly c' = cal_readonly c)
    (calendars result.2) (calendars st).
Proof.
  cbv zeta. revert deleted_count st.
  induction orphans as [|e orphans IH]; intros deleted_count st; simpl.
  - rewrite app_nil_r, Nat.add_0_r. split; [done|]. split; [done|].
    by apply Forall_Forall2_diag, Forall_forall.
  - change (delete_event e st) with (dav_delete (event_object e) st).
    destruct (dav_delete_spec (event_object e) st) as (Hok & Hcalls & Hprot & _).
    pose proof (dav_delete_calendars (event_object e) st) as Hcalendars.
    destruct (dav_delete (event_object e) st) as [ok st1]. simpl in *.
    destruct (IH (if ok then deleted_count + 1 else deleted_count) st1)
      as (Hcount' & Hcalls' & Hcalendars').
    rewrite Hcount', Hcalls', Hcalls, Hprot, <- app_assoc. subst ok.
    split; [|split; [done|]].
    + destruct (bool_decide (event_object e ∉ protected st)); simpl; lia.
    + eapply Forall2_trans; [|exact Hcalendars'|exact Hcalendars].
      intros c1 c2 c3 [-> ->] [-> ->]. done.
Qed.

Lemma get_calendar_by_name_stable (st st' : Remote) (name : string) (c : Calendar) :
  Forall2 (fun c' c => cal_name c' = cal_name c /\ cal_readonly c' = cal_readonly c)
    (calendars st') (calendars st) ->
  get_calendar_by_name st name = Some c ->
  exists c', get_calendar_by_name st' name = Some c' /\
             cal_name c' = cal_name c /\ cal_readonly c' = cal_readonly c.
Proof.
  unfold get_calendar_by_name. intros Hsame.
  induction Hsame as [|c1' c1 cs' cs [Hname Hread] _ IH]; [done|]. simpl.
  rewrite Hname. destruct (String.eqb (str_lower (cal_name c1)) (str_lower name)).
  - intros [= <-]. by exists c1'.
  - exact IH.
Qed.

(** The payloads [_create_birthday_event] builds for a list of entries:
    one for every entry whose date it can read. *)
Lemma create_missing_spec (cal : Calendar) (missing : list (string * string))
    (created_count : nat) (st : Remote) :
  let payloads := omap (fun nd => birthday_vevent nd.1 nd.2) missing in
  let result := create_missing cal missing created_count st in
  result.1 = created_count + (if cal_readonly cal then 0 else length payloads) /\
  calls result.2 = calls st ++ List.map (CallAddEvent (cal_name cal)) payloads.
Proof.
  cbv zeta. revert created_count st.
  induction missing as [|[name date] missing IH]; intros created_count st.
  - simpl. rewrite app_nil_r. by destruct (cal_readonly cal); rewrite Nat.add_0_r.
  - cbn [create_missing omap list_omap fst snd]. unfold _create_birthday_event.
    destruct (birthday_vevent name date) as [ical|]; [|apply IH].
    pose proof (dav_add_event_calls cal ical st) as Hcalls.
    assert ((dav_add_event cal ical st).1 = negb (cal_readonly cal)) as Hok.
    { unfold dav_add_event. by destruct (cal_readonly cal). }
    destruct (dav_add_event cal ical st) as [ok st1]. simpl in Hcalls, Hok.
    destruct (IH (if ok then created_count + 1 else created_count) st1)
      as [Hcount' Hcalls'].
    rewrite Hcount', Hcalls', Hcalls, <- app_assoc. subst ok.
    split; [|done]. destruct (cal_readonly cal); simpl; lia.
Qed.

(** X16. A synchronisation that is not dry, on a calendar that is found
    and holds events, with at least one birthday known: it asks the server
    first to delete every orphan event, in order, then to create in that
    calendar one event for every missing birthday whose date can be read,
    in order, and nothing else.  It returns the number of orphans, the
    number of deletions the server accepted, and the number of creations:
    none on a read-only calendar. *)
Theorem sync_birthday_calendar_journal (calendar_name : string) (st : Remote)
    (c : Calendar) :
  Py.truthy calendar_name = true ->
  _get_contacts_with_birthdays st <> [] ->
  get_calendar_by_name st calendar_name = Some c ->
  cal_events c <> [] ->
  let reconciled :=
    _match_birthdays_and_events (_get_contacts_with_birthdays st) (cal_events c) in
  let orphans := reconciled.1.1.2 in
  let payloads := omap (fun nd => birthday_vevent nd.1 nd.2) reconciled.2 in
  let result := sync_birthday_calendar calendar_name false st in
  result.1 =
    Some (length orphans,
          length
            (List.filter (fun e => bool_decide (event_object e ∉ protected st)) orphans),
          if cal_readonly c then 0 else length payloads) /\
  calls result.2 =
    calls st ++ List.map (fun e => CallDelete (event_object e)) orphans ++
    List.map (CallAddEvent (cal_name c)) payloads.
Proof.
  intros Hname Hentries Hfound Hevents. cbv zeta.
  unfold sync_birthday_calendar.
  destruct (_get_contacts_with_birthdays st) as [|nd nds] eqn:Hcontacts; [done|].
  unfold get_all_events.
  assert (calendars st <> []) as Hcalendars.
  { intros Hnil. unfold get_calendar_by_name in Hfound. by rewrite Hnil in Hfound. }
  destruct (calendars st) as [|c0 cs] eqn:Hcs; [done|].
  cbn [Py.get_default]. rewrite Hname, Hfound.
  destruct (cal_events c) as [|e es] eqn:Hes; [done|].
  destruct (_match_birthdays_and_events (nd :: nds) (e :: es))
    as [[[matched orphans] others] missing].
  cbn [fst snd negb].
  destruct (delete_orphans_spec orphans 0 st) as (Hdeleted & Hcalls & Hsame).
  destruct (delete_orphans orphans 0 st) as [deleted_count st1]. cbn [fst snd] in *.
  destruct (get_calendar_by_name_stable st st1 calendar_name c Hsame Hfound)
    as (c' & Hfound' & Hname' & Hread').
  destruct missing as [|m missing'].
  - simpl. rewrite app_nil_r, Hcalls, Hdeleted.
    split; [|done]. by destruct (cal_readonly c).
  - rewrite Hfound'.
    destruct (create_missing_spec c' (m :: missing') 0 st1) as [Hcreated Hcalls'].
    destruct (create_missing c' (m :: missing') 0 st1) as [created_count st2].
    cbn [fst snd] in *. rewrite Hcalls', Hcalls, Hcreated, Hdeleted, Hname', Hread'.
    by rewrite <- app_assoc.
Qed.

End Synchronisation_journal.

Lemma sync_birthday_calendar_journal_witness :
  (@sync_birthday_calendar Sample.fuzzy Sample.collaborators "Anniversaire" false
     Sample.birthday_server).1 = Some (1, 1, 1) /\
  calls (@sync_birthday_calendar Sample.fuzzy Sample.collaborators "Anniversaire" false
           Sample.birthday_server).2 =
    [CallDelete 12;
     CallAddEvent "Anniversaire" "SUMMARY:Anniversaire de Marie Curie;11-07"].
Proof.
  apply (@sync_birthday_calendar_journal Sample.fuzzy Sample.collaborators
           "Anniversaire" Sample.birthday_server
           {| cal_name := "Anniversaire"; cal_readonly := false;
              cal_events := [Sample.jean_event; Sample.meeting; Sample.unknown];
              cal_added := [] |});
    [reflexivity|by vm_compute|reflexivity|by vm_compute].
Defined.

(** ** The groups of the fallback detection *)

Section Simple_mode_groups.
Context `{Platform}.

(** The stripped, lower-cased full name the fallback indexes a contact by. *)
#[local] Abbreviation indexed_name c :=
  (str_lower (str_strip (Py.get_default (full_name c) ""))).

Lemma dict_append_keyed (P : string -> nat * Contact -> Prop) k (x : nat * Contact)
    (d : dict (list (nat * Contact))) :
  P k x ->
  Forall (fun kl => Forall (P kl.1) kl.2) d ->
  Forall (fun kl => Forall (P kl.1) kl.2) (dict_append k x d).
Proof.
  intros Hx. induction d as [|[k' l] d IH]; simpl; intros Hd.
  - repeat constructor. done.
  - apply Forall_cons in Hd as [Hl Hd]. simpl in Hl.
    destruct (String.eqb_spec k' k) as [->|]; constructor; simpl; auto.
    apply Forall_app. split; [done|]. by constructor.
Qed.

Lemma index_emails_keyed i contact es (d : dict (list (nat * Contact))) :
  es ⊆ emails contact ->
  Forall (fun kl =>
            Forall (fun ic => Py.truthy kl.1 = true /\ kl.1 ∈ emails ic.2) kl.2) d ->
  Forall (fun kl =>
            Forall (fun ic => Py.truthy kl.1 = true /\ kl.1 ∈ emails ic.2) kl.2)
    (index_emails i contact es d).
Proof.
  revert d. induction es as [|email es IH]; intros d Hes Hd; simpl; [done|].
  apply IH; [set_solver|]. destruct (Py.truthy email) eqn:Hemail; [|done].
  apply (dict_append_keyed
           (fun k ic => Py.truthy k = true /\ k ∈ emails ic.2)); [|done].
  split; [done|]. simpl. set_solver.
Qed.

Lemma index_contacts_keyed rest i processed
    (email_groups name_groups : dict (list (nat * Contact))) :
  Forall (fun kl =>
            Forall (fun ic => Py.truthy kl.1 = true /\ kl.1 ∈ emails ic.2) kl.2)
    email_groups ->
  Forall (fun kl =>
            Forall (fun ic => Py.truthy kl.1 = true /\ indexed_name ic.2 = kl.1) kl.2)
    name_groups ->
  Forall (fun kl =>
            Forall (fun ic => Py.truthy kl.1 = true /\ kl.1 ∈ emails ic.2) kl.2)
    (index_contacts i rest processed email_groups name_groups).1 /\
  Forall (fun kl =>
            Forall (fun ic => Py.truthy kl.1 = true /\ indexed_name ic.2 = kl.1) kl.2)
    (index_contacts i rest processed email_groups name_groups).2.
Proof.
  revert i email_groups name_groups.
  induction rest as [|contact rest IH]; intros i email_groups name_groups He Hn;
    simpl; [done|].
  destruct (decide (i ∈ processed)); [by apply IH|].
  apply IH; [by apply index_emails_keyed|].
  destruct (Py.truthy (indexed_name contact)) eqn:Hname; [|done].
  by apply (dict_append_keyed
              (fun k ic => Py.truthy k = true /\ indexed_name ic.2 = k)).
Qed.

Lemma dict_set_values {V} (Q : V -> Prop) k (v : V) (d : dict V) :
  Q v -> Forall Q (dict_values d) -> Forall Q (dict_values (dict_set k v d)).
Proof.
  intros Hv. induction d as [|[k' v'] d IH]; simpl; intros Hd.
  - by repeat constructor.
  - apply Forall_cons in Hd as [Hv' Hd].
    destruct (String.eqb k' k); constructor; simpl; auto.
Qed.

(** The groups the two last loops build are made of members of one entry
    of the index. *)
Lemma build_groups_from_index (Q : list (nat * Contact) -> Prop) items :
  (forall l l', l' ⊆ l -> Q l -> Q l') ->
  Forall Q (dict_values items) ->
  forall groups (processed : gset nat) counter,
    Forall Q (dict_values groups) ->
    Forall Q (dict_values (build_groups items groups processed counter).1.1).
Proof.
  intros Hsubset.
  induction items as [|[key contacts_list] items IH];
    intros Hitems groups processed counter Hgroups; simpl; [done|].
  apply Forall_cons in Hitems as [Hlist Hitems]. simpl in Hlist.
  destruct (1 <? length contacts_list); [|by apply IH].
  destruct (collect_unprocessed_spec contacts_list [] processed)
    as (new & -> & Hsub & _). simpl.
  destruct (1 <? length new); [|by apply IH].
  apply IH; [done|]. apply dict_set_values; [|done]. by apply (Hsubset contacts_list).
Qed.

Lemma _find_duplicates_simple_common (contacts : list Contact) :
  Forall
    (fun g =>
       (exists email,
          Py.truthy email = true /\ Forall (fun ic => email ∈ emails ic.2) g) \/
       (exists name,
          Py.truthy name = true /\ Forall (fun ic => indexed_name ic.2 = name) g))
    (dict_values (_find_duplicates_simple_at contacts)).
Proof.
  unfold _find_duplicates_simple_at.
  pose proof (index_contacts_keyed contacts 0 ∅ [] []) as Hindex.
  destruct (index_contacts 0 contacts ∅ [] []) as [email_groups name_groups].
  destruct Hindex as [Hemails Hnames]; [constructor|constructor|]. simpl in *.
  set (Q := fun g : list (nat * Contact) =>
              (exists email,
                 Py.truthy email = true /\ Forall (fun ic => email ∈ emails ic.2) g) \/
              (exists name,
                 Py.truthy name = true /\ Forall (fun ic => indexed_name ic.2 = name) g)).
  assert (forall l l', l' ⊆ l -> Q l -> Q l') as Hsubset.
  { intros l l' Hl [(email & ? & Hall)|(name & ? & Hall)]; [left|right].
    - exists email. split; [done|]. rewrite Forall_forall in *. auto.
    - exists name. split; [done|]. rewrite Forall_forall in *. auto. }
  assert (Forall Q (dict_values email_groups)) as Hfirst.
  { apply Forall_fmap. eapply Forall_impl; [exact Hemails|].
    intros [email l] Hl. simpl in *. destruct l as [|ic l].
    - right. by exists "x".
    - left. exists email. apply Forall_cons in Hl as Hl'. destruct Hl' as [[? _] _].
      split; [done|]. eapply Forall_impl; [exact Hl|]. by intros ? [_ ?]. }
  assert (Forall Q (dict_values name_groups)) as Hsecond.
  { apply Forall_fmap. eapply Forall_impl; [exact Hnames|].
    intros [name l] Hl. simpl in *. destruct l as [|ic l].
    - right. by exists "x".
    - right. exists name. apply Forall_cons in Hl as Hl'. destruct Hl' as [[? _] _].
      split; [done|]. eapply Forall_impl; [exact Hl|]. by intros ? [_ ?]. }
  pose proof (build_groups_from_index Q email_groups Hsubset Hfirst [] ∅ 0) as Hg1.
  destruct (build_groups email_groups [] ∅ 0) as [[groups processed] counter].
  simpl in Hg1.
  pose proof (build_groups_from_index Q name_groups Hsubset Hsecond
                groups processed counter) as Hg2.
  destruct (build_groups name_groups groups processed counter)
    as [[groups' processed'] counter'].
  simpl in Hg2. apply Hg2, Hg1. constructor.
Qed.

End Simple_mode_groups.

(** X17. Without the fuzzy library, the members of every group
    [find_duplicates] returns have one non-empty email address in common,
    or the same non-empty full name once stripped and lower-cased:
    telephone numbers and similar names group nothing. *)
Theorem degraded_groups_share `{Platform} (contacts : list Contact) (thr : Z) :
  FUZZYWUZZY_AVAILABLE = false ->
  Forall
    (fun g =>
       (exists email,
          Py.truthy email = true /\ Forall (fun c => email ∈ emails c) g) \/
       (exists name,
          Py.truthy name = true /\
          Forall
            (fun c => str_lower (str_strip (Py.get_default (full_name c) "")) = name) g))
    (dict_values (find_duplicates contacts thr)).
Proof.
  intros Hfuzzy. unfold find_duplicates, find_duplicates_at. rewrite Hfuzzy. simpl.
  rewrite forget_positions_values. apply Forall_fmap.
  eapply Forall_impl; [exact (_find_duplicates_simple_common contacts)|].
  intros g [(email & ? & Hall)|(name & ? & Hall)]; [left|right].
  - exists email. split; [done|]. by apply Forall_fmap.
  - exists name. split; [done|]. by apply Forall_fmap.
Qed.

Lemma degraded_groups_share_witness :
  Forall
    (fun g =>
       (exists email,
          Py.truthy email = true /\ Forall (fun c => email ∈ emails c) g) \/
       (exists name,
          Py.truthy name = true /\
          Forall
            (fun c =>
               @str_lower Sample.degraded
                 (@str_strip Sample.degraded (Py.get_default (full_name c) "")) = name)
            g))
    (dict_values (@find_duplicates Sample.degraded [Sample.a; Sample.b; Sample.c] 85)).
Proof.
  apply (@degraded_groups_share Sample.degraded [Sample.a; Sample.b; Sample.c] 85).
  reflexivity.
Defined.
